(** * LeArm servo control: wire protocol, HID transport and choreography

    A shallow embedding of [hiwonder_control.py] (class [LeArmController])
    and [auto_control.py] (class [ButtonPressAutomation]).

    - Python integers are [Z]; [&] and [>>] are [Z.land] and [Z.shiftr],
      which agree with Python on negative operands.
    - Python floats are IEEE-754 binary64 values, computed with the
      Standard Library's executable [SpecFloat] operations at precision 53.
    - A [str] is the sequence of its code points, each below 256; white
      space and [int()] are those of Python on such text. Text with other
      code points is outside the model, and so is the interpreter's limit on
      the number of digits [int()] reads.
    - A [dict] is an association list in insertion order without duplicate
      keys: the wire frame depends on the iteration order of the angle map.
    - Methods that touch the device, the clock, the position file or that can
      raise run in a small state-and-exception monad over a [World]. *)

From Stdlib Require Import ZArith List String Ascii Bool Lia SpecFloat.
From stdpp Require Import base list strings pretty.
Import ListNotations.
Local Open Scope Z_scope.

(** ** Python exceptions and outcomes *)

Inductive exn :=
| TypeError | ValueError | KeyError | OverflowError | EOFError.

Inductive outcome (A : Type) :=
| Return (a : A)
| Raise (e : exn).
Arguments Return {A} a.
Arguments Raise {A} e.

Definition obind {A B} (x : outcome A) (k : A -> outcome B) : outcome B :=
  match x with
  | Return a => k a
  | Raise e => Raise e
  end.

#[global] Instance exn_eq_dec : EqDecision exn.
Proof. solve_decision. Defined.

(** ** binary64 arithmetic *)

Module Float64.

Definition prec : Z := 53.
Definition emax : Z := 1024.

Definition float := spec_float.

Definition div : float -> float -> float := SFdiv prec emax.
Definition mul : float -> float -> float := SFmul prec emax.
Definition add : float -> float -> float := SFadd prec emax.
Definition sub : float -> float -> float := SFsub prec emax.
Definition ltb : float -> float -> bool := SFltb.
Definition leb : float -> float -> bool := SFleb.

(** A well-formed binary64 value: a finite one has its canonical mantissa
    and exponent. *)
Definition valid (f : float) : bool := valid_binary prec emax f.

(** The nearest binary64 value of an integer, as the hardware rounds it
    (an infinity when the integer is out of range). *)
Definition of_Z (n : Z) : float := binary_normalize prec emax n 0 false.

Definition is_finite (f : float) : bool :=
  match f with
  | S754_zero _ | S754_finite _ _ _ => true
  | _ => false
  end.

(** [float(n)] of a Python [int]: raises [OverflowError] when the rounded
    value does not fit. *)
Definition of_int (n : Z) : outcome float :=
  let f := of_Z n in
  if is_finite f then Return f else Raise OverflowError.

(** Magnitude of [m * 2^e] cut towards zero. *)
Definition trunc_mag (m : positive) (e : Z) : Z :=
  match e with
  | Z0 => Zpos m
  | Zpos p => Zpos m * 2 ^ Zpos p
  | Zneg p => Zpos m / 2 ^ Zpos p
  end.

(** [int(f)]: truncation towards zero; [ValueError] on a NaN and
    [OverflowError] on an infinity. *)
Definition to_int (f : float) : outcome Z :=
  match f with
  | S754_zero _ => Return 0
  | S754_finite s m e =>
      Return (if s then - trunc_mag m e else trunc_mag m e)
  | S754_infinity _ => Raise OverflowError
  | S754_nan => Raise ValueError
  end.

(** Magnitude of [m * 2^e] rounded to the nearest integer, ties to even. *)
Definition round_mag (m : positive) (e : Z) : Z :=
  match e with
  | Z0 => Zpos m
  | Zpos p => Zpos m * 2 ^ Zpos p
  | Zneg p =>
      let d := 2 ^ Zpos p in
      let q := Zpos m / d in
      let r := Zpos m mod d in
      match (2 * r) ?= d with
      | Lt => q
      | Gt => q + 1
      | Eq => if Z.even q then q else q + 1
      end
  end.

(** [round(f)] with one argument: nearest integer, ties to even. *)
Definition round (f : float) : outcome Z :=
  match f with
  | S754_zero _ => Return 0
  | S754_finite s m e =>
      Return (if s then - round_mag m e else round_mag m e)
  | S754_infinity _ => Raise OverflowError
  | S754_nan => Raise ValueError
  end.

Definition zero : float := S754_zero false.

(** Literals of the source. Each is the correctly rounded quotient of two
    exactly representable integers, hence the value Python reads. *)
Definition f180_0 : float := of_Z 180.
Definition f1000_0 : float := of_Z 1000.
Definition f0_5 : float := div (of_Z 1) (of_Z 2).
Definition f0_05 : float := div (of_Z 5) (of_Z 100).
Definition f1_5 : float := div (of_Z 3) (of_Z 2).

End Float64.

Abbreviation float := Float64.float.

(** ** Python values of the angle maps *)

(** A number: [int] or [float]. *)
Inductive num :=
| NInt (n : Z)
| NFloat (f : float).

(** A dictionary key of an angle map: the servo id as [int] (in-memory
    positions) or as [str] (positions read back from JSON). *)
Inductive key :=
| KInt (n : Z)
| KStr (s : string).

#[global] Instance key_eq_dec : EqDecision key.
Proof. solve_decision. Defined.

(** [float(x)] *)
Definition py_float (x : num) : outcome float :=
  match x with
  | NInt n => Float64.of_int n
  | NFloat f => Return f
  end.

(** *** Strings *)

(** [c.isspace()], the white space of [strip] and [split]: the ASCII white
    space, the separators 0x1C to 0x1F, NEL (0x85) and the no-break space
    (0xA0). *)
Definition is_space (c : ascii) : bool :=
  let n := nat_of_ascii c in
  ((9 <=? n)%nat && (n <=? 13)%nat) || ((28 <=? n)%nat && (n <=? 32)%nat)
  || (n =? 133)%nat || (n =? 160)%nat.

Fixpoint lstrip (s : string) : string :=
  match s with
  | String c r => if is_space c then lstrip r else s
  | EmptyString => EmptyString
  end.

(** Drops the white space at the end of [s]. *)
Fixpoint rstrip (s : string) : string :=
  match s with
  | String c r =>
      match rstrip r with
      | EmptyString => if is_space c then EmptyString else String c EmptyString
      | r' => String c r'
      end
  | EmptyString => EmptyString
  end.

(** [s.strip()] *)
Definition strip (s : string) : string := rstrip (lstrip s).

Definition digit_val (c : ascii) : option Z :=
  let n := nat_of_ascii c in
  if ((48 <=? n)%nat && (n <=? 57)%nat) then Some (Z.of_nat n - 48) else None.

(** Decimal digits with single underscores between digits, as [int()]
    accepts them. [prev] tells whether the previous character was a digit. *)
Fixpoint parse_digits (s : string) (acc : Z) (prev : bool) : option Z :=
  match s with
  | EmptyString => if prev then Some acc else None
  | String c r =>
      match digit_val c with
      | Some d => parse_digits r (10 * acc + d) true
      | None =>
          if (Ascii.eqb c "_"%char && prev)%bool
          then match r with
               | EmptyString => None
               | _ => parse_digits r acc false
               end
          else None
      end
  end.

(** The white space [int()] skips around the digits: the ASCII white space,
    and NEL and the no-break space, which it reads as a space. The
    separators 0x1C to 0x1F are not among it. *)
Definition is_int_space (c : ascii) : bool :=
  let n := nat_of_ascii c in
  ((9 <=? n)%nat && (n <=? 13)%nat) || (n =? 32)%nat
  || (n =? 133)%nat || (n =? 160)%nat.

Fixpoint int_lstrip (s : string) : string :=
  match s with
  | String c r => if is_int_space c then int_lstrip r else s
  | EmptyString => EmptyString
  end.

Fixpoint int_rstrip (s : string) : string :=
  match s with
  | String c r =>
      match int_rstrip r with
      | EmptyString =>
          if is_int_space c then EmptyString else String c EmptyString
      | r' => String c r'
      end
  | EmptyString => EmptyString
  end.

(** [int(s)] of a [str] in base 10: surrounding white space, an optional
    sign, then digits; [ValueError] otherwise. *)
Definition int_of_str (s : string) : outcome Z :=
  let body := int_rstrip (int_lstrip s) in
  let parsed :=
    match body with
    | String "-"%char r => option_map Z.opp (parse_digits r 0 false)
    | String "+"%char r => parse_digits r 0 false
    | _ => parse_digits body 0 false
    end in
  match parsed with
  | Some n => Return n
  | None => Raise ValueError
  end.

(** [int(k)] of a dictionary key. *)
Definition py_int (k : key) : outcome Z :=
  match k with
  | KInt n => Return n
  | KStr s => int_of_str s
  end.

(** [sub in s] on strings. *)
Fixpoint contains (sub s : string) : bool :=
  String.prefix sub s ||
  match s with
  | String _ r => contains sub r
  | EmptyString => false
  end.

(** *** Dictionaries *)

Section Dict.
Context {K V : Type} `{EqDecision K}.

Definition dict := list (K * V).

(** [d.get(k)] *)
Fixpoint get (d : list (K * V)) (k : K) : option V :=
  match d with
  | [] => None
  | (k', v) :: r => if decide (k' = k) then Some v else get r k
  end.

(** [d[k] = v]: overwrites in place, or appends a new key at the end. *)
Fixpoint set (d : list (K * V)) (k : K) (v : V) : list (K * V) :=
  match d with
  | [] => [(k, v)]
  | (k', v') :: r =>
      if decide (k' = k) then (k', v) :: r else (k', v') :: set r k v
  end.

(** [d[k]] *)
Definition getitem (d : list (K * V)) (k : K) : outcome V :=
  match get d k with
  | Some v => Return v
  | None => Raise KeyError
  end.

(** [k in d] *)
Definition mem (d : list (K * V)) (k : K) : bool :=
  match get d k with Some _ => true | None => false end.

(** The dictionary built from a list of pairs: a later pair overwrites the
    value of an earlier one with the same key. *)
Definition of_pairs (l : list (K * V)) : list (K * V) :=
  fold_left (fun d kv => set d (fst kv) (snd kv)) l [].

Definition keys (d : list (K * V)) : list K := map fst d.

(** The invariant of a dictionary: keys are unique. *)
Definition wf (d : list (K * V)) : Prop := NoDup (keys d).
End Dict.

Arguments dict K V : clear implicits.

(** An angle map, and a move [(servo_id, position, time_ms)]. *)
Definition angle_map := dict key num.
Definition move := (Z * Z * Z)%type.

(** ** Wire frame *)

Definition FRAME_HEADER : Z := 0x55.
Definition CMD_SERVO_MOVE : Z := 0x03.

(** [build_servo_packet], the same text in both classes. *)
Definition build_servo_packet (servos_data : list move) : list Z :=
  let length := Z.of_nat (List.length servos_data) * 3 + 5 in
  let packet := [FRAME_HEADER; FRAME_HEADER; length; CMD_SERVO_MOVE] in
  let packet := packet ++ [Z.of_nat (List.length servos_data)] in
  let time_ms :=
    match servos_data with
    | (_, _, t) :: _ => t
    | [] => 1000
    end in
  let packet := packet ++ [Z.land time_ms 0xFF] in
  let packet := packet ++ [Z.land (Z.shiftr time_ms 8) 0xFF] in
  fold_left
    (fun packet '(servo_id, position, _) =>
       packet ++ [servo_id; Z.land position 0xFF;
                  Z.land (Z.shiftr position 8) 0xFF])
    servos_data packet.

(** [int((angle / 180.0) * 2000) + 500] for a float [angle]. *)
Definition angle_to_position (angle : float) : outcome Z :=
  obind
    (Float64.to_int
       (Float64.mul (Float64.div angle Float64.f180_0) (Float64.of_Z 2000)))
    (fun p => Return (p + 500)).

(** ** HID report *)

(** The buffer that [send_packet] fills: 64 zeros, then [packet[i]] stored
    at index [i + 1] while that index is inside the buffer. *)
Definition hid_report (packet : list Z) : list Z :=
  fold_left
    (fun hid_packet '(i, byte) =>
       if (i + 1 <? List.length hid_packet)%nat
       then <[(i + 1)%nat := byte]> hid_packet
       else hid_packet)
    (combine (seq 0 (List.length packet)) packet)
    (replicate 64 0).

(** ** The world the methods act on *)

(** What the program does to its environment, oldest first. [Call_press_button]
    and [Call_go_home] mark the entry of the two methods (where the source
    prints its banner). *)
Inductive event :=
| HidWrite (report : list Z)
| Sleep (seconds : float)
| Call_press_button (position_name : option string) (press_depth : num)
    (press_time : Z) (return_home : bool)
| Call_go_home (time_ms : Z).

(** The persisted store: a JSON object of JSON objects of numbers. Member
    names of a JSON object are strings, in file order. *)
Definition json_store := list (string * list (string * num)).

Record World := {
  device_open : bool;                         (* [self.device] is an open HID handle *)
  home_position : angle_map;                  (* [self.home_position] *)
  saved_positions : dict string angle_map;    (* [self.saved_positions] *)
  positions_file : option json_store;         (* content of [button_positions.json] *)
  trace : list event
}.

Definition M (A : Type) : Type := World -> outcome A * World.

Definition ret {A} (a : A) : M A := fun w => (Return a, w).
Definition raise {A} (e : exn) : M A := fun w => (Raise e, w).
Definition bind {A B} (m : M A) (k : A -> M B) : M B :=
  fun w =>
    match m w with
    | (Return a, w') => k a w'
    | (Raise e, w') => (Raise e, w')
    end.
Definition lift {A} (x : outcome A) : M A := fun w => (x, w).

Declare Scope py_scope.
Delimit Scope py_scope with py.
Notation "x <- m ;; k" := (bind m (fun x => k))
  (at level 100, m at level 99, right associativity) : py_scope.
Notation "m ;; k" := (bind m (fun _ => k))
  (at level 100, right associativity) : py_scope.
Local Open Scope py_scope.

(** The world after the events [evs]. *)
Definition logged (w : World) (evs : list event) : World :=
  {| device_open := device_open w;
     home_position := home_position w;
     saved_positions := saved_positions w;
     positions_file := positions_file w;
     trace := trace w ++ evs |}.

Definition emit (e : event) : M unit :=
  fun w => (Return tt, logged w [e]).

Definition get_world : M World := fun w => (Return w, w).

(** [try: body except Exception: return False] *)
Definition try_or_false (body : M bool) : M bool :=
  fun w =>
    match body w with
    | (Return b, w') => (Return b, w')
    | (Raise _, w') => (Return false, w')
    end.

(** The clock of [time.sleep] counts nanoseconds, [seconds * 1e9], in a
    signed 64-bit integer. *)
Definition nanoseconds (seconds : float) : float :=
  Float64.mul seconds (Float64.of_Z (10 ^ 9)).

Definition fits_clock (seconds : float) : bool :=
  Float64.leb (Float64.of_Z (- 2 ^ 63)) (nanoseconds seconds)
  && Float64.ltb (nanoseconds seconds) (Float64.of_Z (2 ^ 63)).

(** [time.sleep(seconds)]: a NaN is a [ValueError]; a number of nanoseconds
    that does not fit the clock is an [OverflowError], so for both
    infinities and beyond about 9.2e9 seconds either way; a negative
    argument that fits is a [ValueError]. *)
Definition sleep (seconds : float) : M unit :=
  match seconds with
  | S754_nan => raise ValueError
  | _ =>
      if negb (fits_clock seconds) then raise OverflowError
      else if Float64.ltb seconds Float64.zero then raise ValueError
      else emit (Sleep seconds)
  end.

(** [self.device.write(hid_packet)] of the [hid] package: raises when there
    is no open handle and when an element of the buffer is not a byte. *)
Definition is_byte (b : Z) : bool := (0 <=? b) && (b <=? 255).

Definition device_write (hid_packet : list Z) : M unit :=
  w <- get_world ;;
  if device_open w && forallb is_byte hid_packet
  then emit (HidWrite hid_packet)
  else raise ValueError.

(** [x / 1000.0] for an [int] [x]. *)
Definition ms_to_seconds (x : Z) : outcome float :=
  obind (Float64.of_int x) (fun f => Return (Float64.div f Float64.f1000_0)).

(** ** class LeArmController (hiwonder_control.py) *)

Module LeArmController.

(** [send_packet]: the response read after the write is only printed. *)
Definition send_packet (packet : list Z) : M bool :=
  try_or_false
    (device_write (hid_report packet) ;;
     sleep Float64.f0_05 ;;
     ret true).

(** [int((angle / 180.0) * 2000) + 500] for the [int] or [float] angle
    the caller passes. *)
Definition position_of (angle : num) : outcome Z :=
  obind (py_float angle) angle_to_position.

Definition move_servo (servo_id : Z) (angle : num) (time_ms : Z) : M bool :=
  position <- lift (position_of angle) ;;
  send_packet (build_servo_packet [(servo_id, position, time_ms)]).

Fixpoint servos_data_of (servo_angles : list (Z * num)) (time_ms : Z)
  : outcome (list move) :=
  match servo_angles with
  | [] => Return []
  | (servo_id, angle) :: rest =>
      obind (position_of angle) (fun position =>
      obind (servos_data_of rest time_ms) (fun servos_data =>
      Return ((servo_id, position, time_ms) :: servos_data)))
  end.

Definition move_multiple_servos (servo_angles : list (Z * num))
  (time_ms : Z) : M bool :=
  servos_data <- lift (servos_data_of servo_angles time_ms) ;;
  send_packet (build_servo_packet servos_data).

End LeArmController.

(** ** class ButtonPressAutomation (auto_control.py) *)

Module ButtonPressAutomation.

Definition send_packet (packet : list Z) : M bool :=
  try_or_false
    (device_write (hid_report packet) ;;
     sleep Float64.f0_05 ;;
     ret true).

(** The loop of [move_to_angles]: each item is converted with [int] and
    [float], in dictionary order; the first failing conversion raises. *)
Fixpoint servos_data_of (angles : angle_map) (time_ms : Z)
  : outcome (list move) :=
  match angles with
  | [] => Return []
  | (servo_id, angle) :: rest =>
      obind (py_int servo_id) (fun servo_id =>
      obind (py_float angle) (fun angle =>
      obind (angle_to_position angle) (fun position =>
      obind (servos_data_of rest time_ms) (fun servos_data =>
      Return ((servo_id, position, time_ms) :: servos_data)))))
  end.

Definition move_to_angles (angles : angle_map) (time_ms : Z) : M bool :=
  servos_data <- lift (servos_data_of angles time_ms) ;;
  send_packet (build_servo_packet servos_data).

Definition go_home (time_ms : Z) : M bool :=
  emit (Call_go_home time_ms) ;;
  w <- get_world ;;
  move_to_angles (home_position w) time_ms.

(** *** press_button *)

Definition servo_to_press : key := KStr "5".

(** Defaults of the signature of [press_button]. *)
Definition default_press_depth : num := NInt 6.
Definition default_press_time : Z := 500.

(** [float(press_position.get(servo_to_press))] *)
Definition current_angle_of (press_position : angle_map) : outcome float :=
  match get press_position servo_to_press with
  | Some v => py_float v
  | None => Raise TypeError
  end.

(** [current_angle - press_depth] *)
Definition minus_depth (current_angle : float) (press_depth : num)
  : outcome float :=
  obind (py_float press_depth) (fun d =>
  Return (Float64.sub current_angle d)).

(** The angle map of the press move, lines 122 to 127. *)
Definition press_position_of (position : angle_map) (press_depth : num)
  : outcome angle_map :=
  let press_position := position in
  obind (current_angle_of press_position) (fun current_angle =>
  obind (minus_depth current_angle press_depth) (fun pressed =>
  Return (set press_position servo_to_press (NFloat pressed)))).

Definition lookup_position (w : World) (position_name : option string)
  : option angle_map :=
  match position_name with
  | Some n => get (saved_positions w) n
  | None => None
  end.

Definition press_button (position_name : option string) (press_depth : num)
  (press_time : Z) (return_home : bool) : M bool :=
  emit (Call_press_button position_name press_depth press_time return_home) ;;
  w <- get_world ;;
  match lookup_position w position_name with
  | None => ret false
  | Some position =>
      move_to_angles position 1000 ;;
      sleep Float64.f1_5 ;;
      press_position <- lift (press_position_of position press_depth) ;;
      move_to_angles press_position press_time ;;
      seconds <- lift (obind (ms_to_seconds press_time) (fun s =>
                       Return (Float64.add s Float64.f0_5))) ;;
      sleep seconds ;;
      (if return_home
       then go_home 1000 ;; sleep (Float64.of_Z 1)
       else ret tt) ;;
      ret true
  end.

(** *** The position file *)

(** The member name [json.dump] writes for a key: an [int] key becomes
    its decimal text. *)
Definition json_key (k : key) : string :=
  match k with
  | KStr s => s
  | KInt n => pretty n
  end.

(** [json.dump(self.saved_positions, f)]: numbers are written so that
    reading gives the same number back. *)
Definition json_dump (positions : dict string angle_map) : json_store :=
  map (fun '(name, angles) =>
         (name, map (fun '(k, v) => (json_key k, v)) angles))
      positions.

(** [json.load(f)]: every object becomes a [dict] with [str] keys; of two
    members with one name the later value stays. *)
Definition json_load (doc : json_store) : dict string angle_map :=
  of_pairs
    (map (fun '(name, members) =>
            (name, of_pairs (map (fun '(k, v) => (KStr k, v)) members)))
         doc).

Definition load_positions (w : World) : dict string angle_map :=
  match positions_file w with
  | Some doc => json_load doc
  | None => []
  end.

Definition save_positions : M unit :=
  fun w => (Return tt,
            {| device_open := device_open w;
               home_position := home_position w;
               saved_positions := saved_positions w;
               positions_file := Some (json_dump (saved_positions w));
               trace := trace w |}).

(** [self.saved_positions[name] = angles] *)
Definition store_position (name : string) (angles : angle_map) : M unit :=
  fun w => (Return tt,
            {| device_open := device_open w;
               home_position := home_position w;
               saved_positions := set (saved_positions w) name angles;
               positions_file := positions_file w;
               trace := trace w |}).

(** The state [__init__] builds, given the device flag and the file. *)
Definition default_home : angle_map :=
  [(KInt 1, NInt 80); (KInt 2, NInt 90); (KInt 3, NInt 180);
   (KInt 4, NInt 130); (KInt 5, NInt 90); (KInt 6, NInt 70)].

Definition init (opened : bool) (file : option json_store) : World :=
  {| device_open := opened;
     home_position := default_home;
     saved_positions :=
       match file with Some doc => json_load doc | None => [] end;
     positions_file := file;
     trace := [] |}.

(** *** teach_position *)

Record teach_state := {
  current_angles : angle_map;
  selected_servo : Z
}.

(** [x < n] and [x > n] for a number and a small [int] literal. *)
Definition num_ltb (x : num) (n : Z) : bool :=
  match x with
  | NInt a => a <? n
  | NFloat f => Float64.ltb f (Float64.of_Z n)
  end.

Definition num_gtb (x : num) (n : Z) : bool :=
  match x with
  | NInt a => n <? a
  | NFloat f => Float64.ltb (Float64.of_Z n) f
  end.

(** [x + n] and [x - n] for a number and a small [int] literal. *)
Definition num_add (x : num) (n : Z) : num :=
  match x with
  | NInt a => NInt (a + n)
  | NFloat f => NFloat (Float64.add f (Float64.of_Z n))
  end.

Definition num_sub (x : num) (n : Z) : num :=
  match x with
  | NInt a => NInt (a - n)
  | NFloat f => NFloat (Float64.sub f (Float64.of_Z n))
  end.

(** What one pass of the [while True] body decides. [moved] tells that
    the angle map changed, so that a 200 ms move follows. *)
Inductive teach_next :=
| Cancelled
| Committed
| Continue (st : teach_state) (moved : bool).

(** The [if]/[elif] chain on the stripped input line. *)
Definition teach_command (command : string) (st : teach_state)
  : outcome teach_next :=
  let angles := current_angles st in
  let sel := selected_servo st in
  if decide (command = "q") then Return Cancelled
  else if decide (command = "s") then Return Committed
  else if contains command "123456" then
    obind (int_of_str command) (fun n =>
    Return (Continue {| current_angles := angles; selected_servo := n |}
                     false))
  else if decide (command = "+") then
    obind (getitem angles (KInt sel)) (fun a =>
    if num_ltb a 180
    then Return (Continue
                   {| current_angles := set angles (KInt sel) (num_add a 5);
                      selected_servo := sel |} true)
    else Return (Continue st false))
  else if decide (command = "-") then
    obind (getitem angles (KInt sel)) (fun a =>
    if num_gtb a 0
    then Return (Continue
                   {| current_angles := set angles (KInt sel) (num_sub a 5);
                      selected_servo := sel |} true)
    else Return (Continue st false))
  else Return (Continue st false).

(** The [while True] loop over the lines the operator types. The prompt
    reads [current_angles[selected_servo]] before each line; running out
    of input is the [EOFError] of [input()]. *)
Fixpoint teach_loop (name : string) (inputs : list string)
  (st : teach_state) : M bool :=
  lift (getitem (current_angles st) (KInt (selected_servo st))) ;;
  match inputs with
  | [] => raise EOFError
  | line :: rest =>
      next <- lift (teach_command (strip line) st) ;;
      match next with
      | Cancelled => ret false
      | Committed =>
          store_position name (current_angles st) ;;
          save_positions ;;
          ret true
      | Continue st' moved =>
          (if moved
           then move_to_angles (current_angles st') 200 ;; ret tt
           else ret tt) ;;
          teach_loop name rest st'
      end
  end.

Definition teach_start (w : World) : teach_state :=
  {| current_angles := home_position w; selected_servo := 1 |}.

Definition teach_position (name : string) (inputs : list string) : M bool :=
  w <- get_world ;;
  move_to_angles (current_angles (teach_start w)) 1000 ;;
  teach_loop name inputs (teach_start w).


(** *** run_sequence *)

(** A step: a [str], a [dict] (with the entries it may hold under
    ['button'], ['depth'] and ['time']), or anything else. *)
Inductive step :=
| StepStr (name : string)
| StepDict (button : option string) (depth : option num) (time : option Z)
| StepOther.

Definition run_step (s : step) : M unit :=
  match s with
  | StepStr name =>
      press_button (Some name) default_press_depth default_press_time false ;;
      ret tt
  | StepDict button depth time =>
      let name := button in
      let depth := default (NInt 10) depth in
      let press_time := default 500 time in
      press_button name depth press_time false ;;
      ret tt
  | StepOther => ret tt
  end.

Fixpoint for_steps (sequence : list step) (delay : Z) : M unit :=
  match sequence with
  | [] => ret tt
  | s :: rest =>
      run_step s ;;
      seconds <- lift (ms_to_seconds delay) ;;
      sleep seconds ;;
      for_steps rest delay
  end.

Fixpoint for_range (n : nat) (body : M unit) : M unit :=
  match n with
  | O => ret tt
  | S k => body ;; for_range k body
  end.

Definition run_sequence (sequence : list step) (repeat : Z) (delay : Z)
  (return_home : bool) : M unit :=
  for_range (Z.to_nat repeat) (for_steps sequence delay) ;;
  if return_home
  then go_home 1000 ;; sleep (Float64.of_Z 1)
  else ret tt.

(** *** set_home_position and close *)

(** [set_home_position(angles)]: a [None] or empty [angles] is falsy and
    leaves the home position as it is. *)
Definition set_home_position (angles : option angle_map) : M unit :=
  match angles with
  | Some (item :: rest) =>
      fun w => (Return tt,
                {| device_open := device_open w;
                   home_position := item :: rest;
                   saved_positions := saved_positions w;
                   positions_file := positions_file w;
                   trace := trace w |})
  | Some [] | None => ret tt
  end.

(** [close]: the handle of the [hid] package is closed; a later write on it
    raises. *)
Definition close : M unit :=
  fun w => (Return tt,
            {| device_open := false;
               home_position := home_position w;
               saved_positions := saved_positions w;
               positions_file := positions_file w;
               trace := trace w |}).

(** *** turn_dial *)

(** The literal [0.8]. *)
Definition f0_8 : float := Float64.div (Float64.of_Z 8) (Float64.of_Z 10).

(** The key under which [turn_dial] finds the gripper. *)
Definition gripper : key := KStr "1".

Definition turn_dial (dial_name : string) (turn_time : Z)
  (return_home : bool) : M bool :=
  let position_open := dial_name +:+ "_open" in
  let position_closed := dial_name +:+ "_closed" in
  let position_turned := dial_name +:+ "_turned" in
  w <- get_world ;;
  if negb (mem (saved_positions w) position_open) then ret false
  else if negb (mem (saved_positions w) position_closed) then ret false
  else if negb (mem (saved_positions w) position_turned) then ret false
  else
    opened <- lift (getitem (saved_positions w) position_open) ;;
    move_to_angles opened 1000 ;;
    sleep Float64.f1_5 ;;
    closed <- lift (getitem (saved_positions w) position_closed) ;;
    move_to_angles closed 500 ;;
    sleep f0_8 ;;
    turned <- lift (getitem (saved_positions w) position_turned) ;;
    move_to_angles turned turn_time ;;
    seconds <- lift (obind (ms_to_seconds turn_time) (fun s =>
                     Return (Float64.add s Float64.f0_5))) ;;
    sleep seconds ;;
    let release_position := turned in
    grip <- lift (getitem opened gripper) ;;
    let release_position := set release_position gripper grip in
    move_to_angles release_position 500 ;;
    sleep f0_8 ;;
    (if return_home
     then go_home 1000 ;; sleep (Float64.of_Z 1)
     else ret tt) ;;
    ret true.

(** *** teach_dial_positions *)

(** [input(prompt)]: the next line of the input, and the lines after it. *)
Definition input (inputs : list string) : M (string * list string) :=
  match inputs with
  | [] => raise EOFError
  | line :: rest => ret (line, rest)
  end.

(** [teach_loop], giving back also the lines it has not read. *)
Fixpoint teach_loop_io (name : string) (inputs : list string)
  (st : teach_state) : M (bool * list string) :=
  lift (getitem (current_angles st) (KInt (selected_servo st))) ;;
  match inputs with
  | [] => raise EOFError
  | line :: rest =>
      next <- lift (teach_command (strip line) st) ;;
      match next with
      | Cancelled => ret (false, rest)
      | Committed =>
          store_position name (current_angles st) ;;
          save_positions ;;
          ret (true, rest)
      | Continue st' moved =>
          (if moved
           then move_to_angles (current_angles st') 200 ;; ret tt
           else ret tt) ;;
          teach_loop_io name rest st'
      end
  end.

Definition teach_position_io (name : string) (inputs : list string)
  : M (bool * list string) :=
  w <- get_world ;;
  move_to_angles (current_angles (teach_start w)) 1000 ;;
  teach_loop_io name inputs (teach_start w).

Definition teach_dial_positions (dial_name : string) (inputs : list string)
  : M (bool * list string) :=
  r <- input inputs ;;
  r <- teach_position_io (dial_name +:+ "_open") (snd r) ;;
  if negb (fst r) then ret (false, snd r)
  else
    r <- input (snd r) ;;
    r <- teach_position_io (dial_name +:+ "_closed") (snd r) ;;
    if negb (fst r) then ret (false, snd r)
    else
      r <- input (snd r) ;;
      r <- teach_position_io (dial_name +:+ "_turned") (snd r) ;;
      if negb (fst r) then ret (false, snd r)
      else ret (true, snd r).

End ButtonPressAutomation.

(** ** main (auto_control.py) *)

Module auto_control.
Import ButtonPressAutomation.

(** [s.split()]: the words of [s], cut at runs of white space. [word] is
    the word being read. *)
Fixpoint split_from (s : string) (word : string) : list string :=
  match s with
  | EmptyString =>
      match word with
      | EmptyString => []
      | _ => [word]
      end
  | String c r =>
      if is_space c
      then match word with
           | EmptyString => split_from r EmptyString
           | _ => word :: split_from r EmptyString
           end
      else split_from r (word +:+ String c EmptyString)
  end.

Definition split (s : string) : list string := split_from s EmptyString.

(** The attributes of [args] that [main] reads. *)
Record Namespace := {
  teach : option string;
  teach_dial : option string;
  press : option string;
  turn : option string;
  list_ : bool;
  sequence : option (list string);
  repeat : Z;
  delay : Z;
  depth : Z;
  turn_time : Z
}.

(** The truth value of an optional [str]: [None] and [''] are false. *)
Definition given (s : option string) : option string :=
  match s with
  | Some (String c r) => Some (String c r)
  | Some EmptyString | None => None
  end.

(** [try: body finally: handler] *)
Definition finally {A} (body : M A) (handler : M unit) : M A :=
  fun w =>
    let (r, w1) := body w in
    match handler w1 with
    | (Return _, w2) => (r, w2)
    | (Raise e, w2) => (Raise e, w2)
    end.

(** The [while True] loop of the interactive mode, for at most [fuel]
    passes: [Return (Some tt)] is the [break] at ['quit'], [Return None]
    tells that the passes were used up. Each pass reads a line, so one pass
    more than there are lines is enough. *)
Fixpoint interactive (fuel : nat) (inputs : list string)
  : M (option unit) :=
  match fuel with
  | O => ret None
  | S fuel =>
      r <- input inputs ;;
      let cmd := split (strip (fst r)) in
      let inputs := snd r in
      match cmd with
      | [] => interactive fuel inputs
      | c :: _ =>
          if bool_decide (c = "quit") then ret (Some tt)
          else if bool_decide (c = "list") then interactive fuel inputs
          else if bool_decide (c = "teach") && (2 <=? List.length cmd)%nat
          then
            r <- teach_position_io (nth 1 cmd "") inputs ;;
            interactive fuel (snd r)
          else if bool_decide (c = "teach-dial")
                  && (2 <=? List.length cmd)%nat
          then
            r <- teach_dial_positions (nth 1 cmd "") inputs ;;
            interactive fuel (snd r)
          else if bool_decide (c = "press") && (2 <=? List.length cmd)%nat
          then
            press_button (Some (nth 1 cmd "")) default_press_depth
              default_press_time true ;;
            interactive fuel inputs
          else if bool_decide (c = "turn") && (2 <=? List.length cmd)%nat
          then
            turn_dial (nth 1 cmd "") 1000 true ;;
            interactive fuel inputs
          else if bool_decide (c = "sequence")
                  && (2 <=? List.length cmd)%nat
          then
            run_sequence (map StepStr (tl cmd)) 1 1000 true ;;
            interactive fuel inputs
          else interactive fuel inputs
      end
  end.

(** The [if]/[elif] chain on [args] inside the [try]. *)
Definition dispatch (args : Namespace) (inputs : list string)
  : M (option unit) :=
  if list_ args then ret (Some tt)
  else match given (teach args) with
  | Some name => teach_position_io name inputs ;; ret (Some tt)
  | None =>
  match given (teach_dial args) with
  | Some name => teach_dial_positions name inputs ;; ret (Some tt)
  | None =>
  match given (press args) with
  | Some name =>
      press_button (Some name) (NInt (depth args)) default_press_time true ;;
      ret (Some tt)
  | None =>
  match given (turn args) with
  | Some name => turn_dial name (turn_time args) true ;; ret (Some tt)
  | None =>
  match sequence args with
  | Some (item :: rest) =>
      run_sequence (map StepStr (item :: rest)) (repeat args) (delay args)
        true ;;
      ret (Some tt)
  | Some [] | None => interactive (S (List.length inputs)) inputs
  end end end end end.

(** [main], from the point where the arguments are parsed and the
    controller is built: [device_open] of the world it starts in tells
    whether [connect] succeeds. *)
Definition main (args : Namespace) (inputs : list string) : M (option unit) :=
  w <- get_world ;;
  if negb (device_open w) then ret (Some tt)
  else finally (dispatch args inputs) close.

End auto_control.

(** ** POSITIONS and main (hiwonder_control.py) *)

Module hiwonder_control.
Import LeArmController.

Definition POSITIONS : dict string (list (Z * num)) :=
  [("home"%string,
    [(1, NInt 90); (2, NInt 90); (3, NInt 90);
     (4, NInt 90); (5, NInt 90); (6, NInt 90)]);
   ("rest"%string,
    [(1, NInt 90); (2, NInt 45); (3, NInt 135);
     (4, NInt 45); (5, NInt 90); (6, NInt 90)]);
   ("reach_forward"%string,
    [(1, NInt 90); (2, NInt 135); (3, NInt 45);
     (4, NInt 45); (5, NInt 90); (6, NInt 90)]);
   ("pick_up"%string,
    [(1, NInt 90); (2, NInt 135); (3, NInt 90);
     (4, NInt 90); (5, NInt 45); (6, NInt 0)]);
   ("button_press"%string,
    [(1, NInt 90); (2, NInt 100); (3, NInt 80);
     (4, NInt 70); (5, NInt 90); (6, NInt 45)])].

(** The method [home_position] of [LeArmController]. *)
Definition home_position : M bool :=
  let home_angles :=
    [(1, NInt 90); (2, NInt 90); (3, NInt 90);
     (4, NInt 90); (5, NInt 90); (6, NInt 90)] in
  move_multiple_servos home_angles 1000.

(** The method [close] of [LeArmController], the same text as in
    [ButtonPressAutomation]. *)
Definition close : M unit := ButtonPressAutomation.close.

(** The attributes of [args] that [main] reads. *)
Record Namespace := {
  servo : option Z;
  angle : option Z;
  time : Z;
  position : option string;
  list_ : bool;
  test : bool;
  home : bool
}.

(** [try: body except ValueError: print(...)] *)
Definition except_ValueError (body : M unit) : M unit :=
  fun w =>
    match body w with
    | (Raise ValueError, w1) => (Return tt, w1)
    | other => other
    end.

(** The body of [for servo_id in range(2, 7)] under [--test]. *)
Fixpoint test_servos (servo_ids : list Z) : M unit :=
  match servo_ids with
  | [] => ret tt
  | servo_id :: rest =>
      move_servo servo_id (NInt 45) 500 ;;
      sleep Float64.f0_5 ;;
      move_servo servo_id (NInt 135) 500 ;;
      sleep Float64.f0_5 ;;
      move_servo servo_id (NInt 90) 500 ;;
      sleep Float64.f0_5 ;;
      test_servos rest
  end.

(** The [while True] loop of the interactive mode: every pass reads one
    line, and no command reads more. *)
Fixpoint interactive (inputs : list string) : M unit :=
  match inputs with
  | [] => raise EOFError
  | line :: inputs =>
      let cmd := auto_control.split (strip line) in
      match cmd with
      | [] => interactive inputs
      | c :: _ =>
          if bool_decide (c = "quit"%string) then ret tt
          else if bool_decide (c = "home"%string)
          then home_position ;; interactive inputs
          else if bool_decide (c = "list"%string) then interactive inputs
          else if bool_decide (c = "pos"%string)
                  && (2 <=? List.length cmd)%nat
          then
            match get POSITIONS (nth 1 cmd ""%string) with
            | Some servo_angles =>
                move_multiple_servos servo_angles 1000 ;; interactive inputs
            | None => interactive inputs
            end
          else if bool_decide (c = "move"%string)
                  && (3 <=? List.length cmd)%nat
          then
            except_ValueError
              (servo <- lift (int_of_str (nth 1 cmd ""%string)) ;;
               angle <- lift (int_of_str (nth 2 cmd ""%string)) ;;
               time_ms <- (if (3 <? List.length cmd)%nat
                           then lift (int_of_str (nth 3 cmd ""%string))
                           else ret 1000) ;;
               move_servo servo (NInt angle) time_ms ;;
               ret tt) ;;
            interactive inputs
          else interactive inputs
      end
  end.

(** The truth value of [args.servo]: [None] and [0] are false. *)
Definition given_servo (s : option Z) : option Z :=
  match s with
  | Some 0 | None => None
  | Some n => Some n
  end.

(** The [if]/[elif] chain on [args] inside the [try]. *)
Definition dispatch (args : Namespace) (inputs : list string) : M unit :=
  if list_ args then ret tt
  else if test args then
    move_servo 1 (NInt 45) 500 ;;
    sleep Float64.f0_5 ;;
    move_servo 1 (NInt 90) 500 ;;
    sleep Float64.f0_5 ;;
    test_servos [2; 3; 4; 5; 6]
  else if home args then home_position ;; ret tt
  else match auto_control.given (position args) with
  | Some name =>
      match get POSITIONS name with
      | Some servo_angles =>
          move_multiple_servos servo_angles (time args) ;; ret tt
      | None => ret tt
      end
  | None =>
  match given_servo (servo args), angle args with
  | Some servo_id, Some a =>
      move_servo servo_id (NInt a) (time args) ;; ret tt
  | _, _ => interactive inputs
  end end.

(** [main], from the point where the arguments are parsed and the
    controller is built: [device_open] of the world it starts in tells
    whether [connect] succeeds. *)
Definition main (args : Namespace) (inputs : list string) : M unit :=
  w <- get_world ;;
  if negb (device_open w) then ret tt
  else auto_control.finally (dispatch args inputs) close.

End hiwonder_control.

(** * Vocabulary of the properties *)

(** A 16-bit field in little-endian order: low byte, then high byte. *)
Definition le16 (v : Z) : list Z := [v mod 256; (v / 256) mod 256].

(** The three bytes of one move in the frame. *)
Definition move_bytes (m : move) : list Z :=
  let '(servo_id, position, _) := m in servo_id :: le16 position.

(** The layout of a report: the report id 0, at most 63 bytes of the frame,
    zeros up to 64 bytes. *)
Definition report_layout (packet : list Z) : list Z :=
  0 :: take 63 packet ++ replicate (63 - List.length packet) 0.

(** The events of a trace that are method entries. *)
Definition is_call (e : event) : bool :=
  match e with
  | Call_press_button _ _ _ _ | Call_go_home _ => true
  | HidWrite _ | Sleep _ => false
  end.

Definition calls (evs : list event) : list event := filter is_call evs.

(** The raw position as the spec words it:
    [round(angle / 180.0 * 2000) + 500]. *)
Definition rounded_position (angle : float) : outcome Z :=
  obind
    (Float64.round
       (Float64.mul (Float64.div angle Float64.f180_0) (Float64.of_Z 2000)))
    (fun p => Return (p + 500)).

(** [angle_to_position] agrees with truncating integer arithmetic at the
    whole degree [a]. *)
Definition truncates_at (a : Z) : bool :=
  match angle_to_position (Float64.of_Z a) with
  | Return p => p =? a * 2000 / 180 + 500
  | Raise _ => false
  end.

(** An angle map as JSON gives it back: unique keys, all of them [str]. *)
Definition is_str (k : key) : bool :=
  match k with KStr _ => true | KInt _ => false end.

Definition is_int (k : key) : bool :=
  match k with KInt _ => true | KStr _ => false end.

Definition str_keyed (angles : angle_map) : Prop :=
  wf angles /\ forallb is_str (keys angles) = true.

(** The angle map with every key replaced by its JSON member name. *)
Definition stringified (angles : angle_map) : angle_map :=
  map (fun '(k, v) => (KStr (ButtonPressAutomation.json_key k), v)) angles.

(** The member names of an angle map do not collide in the file. *)
Definition distinct_names (angles : angle_map) : Prop :=
  NoDup (map ButtonPressAutomation.json_key (keys angles)).

(** What [send_packet] adds to the trace: the report and the settle delay
    when the write goes through, nothing when it raises. *)
Definition write_ok (opened : bool) (packet : list Z) : bool :=
  opened && forallb is_byte (hid_report packet).

Definition sent (opened : bool) (packet : list Z) : list event :=
  if write_ok opened packet
  then [HidWrite (hid_report packet); Sleep Float64.f0_05]
  else [].

(** [time.sleep] accepts the argument. *)
Definition can_sleep (seconds : float) : bool :=
  match seconds with
  | S754_nan => false
  | _ => fits_clock seconds && negb (Float64.ltb seconds Float64.zero)
  end.

(** The conversions of a press of [position] go through: both moves can
    be encoded and the hold time is one [time.sleep] accepts. *)
Definition can_press (position : angle_map) (press_depth : num)
  (press_time : Z) : bool :=
  match ButtonPressAutomation.servos_data_of position 1000,
        ButtonPressAutomation.press_position_of position press_depth,
        ms_to_seconds press_time with
  | Return _, Return press_position, Return s =>
      match ButtonPressAutomation.servos_data_of press_position press_time with
      | Return _ => can_sleep (Float64.add s Float64.f0_5)
      | Raise _ => false
      end
  | _, _, _ => false
  end.


(** The home position can be encoded. *)
Definition home_ready (w : World) : bool :=
  match ButtonPressAutomation.servos_data_of (home_position w) 1000 with
  | Return _ => true
  | Raise _ => false
  end.

(** The entry of a press as [run_sequence] issues it for a bare name. *)
Definition bare_press (name : string) : event :=
  Call_press_button (Some name) (NInt 6) 500 false.

(** An angle the teaching loop keeps inside 0..180: a whole number of
    degrees that is a multiple of the step 5. *)
Definition on_grid (v : num) : Prop :=
  match v with
  | NInt n => 0 <= n <= 180 /\ n mod 5 = 0
  | NFloat _ => False
  end.

Definition grid_angles (angles : angle_map) : Prop :=
  Forall on_grid (map snd angles).


(** The raw position of a whole-degree angle without any clamp:
    [a * 2000 / 180] cut towards zero, plus 500. *)
Definition unclamped_position (a : Z) : Z := Z.quot (a * 2000) 180 + 500.

Definition unclamped_at (a : Z) : bool :=
  match obind (Float64.of_int a) angle_to_position with
  | Return p => p =? unclamped_position a
  | Raise _ => false
  end.

(** A move list as [move_to_angles] receives it, with [int] keys and [int]
    angles, and the servo data it should become. *)
Definition int_angles (moves : list (Z * Z)) : angle_map :=
  map (fun '(servo_id, a) => (KInt servo_id, NInt a)) moves.

Definition unclamped_moves (moves : list (Z * Z)) (time_ms : Z) : list move :=
  map (fun '(servo_id, a) => (servo_id, unclamped_position a, time_ms)) moves.

(** *** binary64 rounding *)

(** A shift record has lost a non-zero bit. *)
Definition inexact (mrs : shr_record) : bool := shr_r mrs || shr_s mrs.

(** After [n] right shifts: the mantissa is divided by [2^n], and a flag
    raised in the record comes from a bit that was lost, or from [lx]. *)
Definition shifted (mx : Z) (lx : bool) (n : Z) (mrs : shr_record) : Prop :=
  shr_m mrs = mx / 2 ^ n
  /\ (inexact mrs = true -> lx = true \/ mx mod 2 ^ n <> 0).

Abbreviation fexp := (SpecFloat.fexp 53 1024).

(** A location that is not exact. *)
Definition inexactb (l : location) : bool :=
  match l with loc_Exact => false | _ => true end.

(** The mantissas of 180.0 (exponent -45) and 2000.0 (exponent -42). *)
Definition m180 : positive := 6333186975989760.
Definition m2000 : positive := 8796093022208000.

(** *** Frames, sessions and sequences *)

(** Moves as [move_to_angles] builds them: one duration for all, and
    positions that fit the 16-bit field. *)
Definition uniform_moves (time_ms : Z) (servos_data : list move) : Prop :=
  Forall (fun m : move =>
            let '(_, position, t) := m in
            0 <= position < 65536 /\ t = time_ms) servos_data.

(** The outcome without the unread input. *)
Definition result_of {A B} (r : outcome (A * B)) : outcome A :=
  match r with
  | Return x => Return (fst x)
  | Raise e => Raise e
  end.

(** The store and the file are those of [w]. *)
Definition same_store (w w' : World) : Prop :=
  saved_positions w' = saved_positions w
  /\ positions_file w' = positions_file w.

(** The store of [w'] is the one of [w] with [angles] under [name], and the
    file holds exactly the store of [w']. *)
Definition committed (w w' : World) (name : string) (angles : angle_map)
  : Prop :=
  saved_positions w' = set (saved_positions w) name angles
  /\ positions_file w'
     = Some (ButtonPressAutomation.json_dump (saved_positions w')).

(** The store of [w'] is the one of [w] after the given commits, oldest
    first, and the file holds it when there was a commit. *)
Definition after_commits (w w' : World)
  (commits : list (string * angle_map)) : Prop :=
  saved_positions w'
  = fold_left (fun d c => set d (fst c) (snd c)) commits (saved_positions w)
  /\ positions_file w'
     = match commits with
       | [] => positions_file w
       | _ => Some (ButtonPressAutomation.json_dump (saved_positions w'))
       end
  /\ home_position w' = home_position w
  /\ device_open w' = device_open w
  /\ Forall (fun c => keys (snd c) = keys (home_position w)
                      /\ (grid_angles (home_position w) ->
                          grid_angles (snd c))) commits.

(** What the return-home at the end of a choreography adds to the trace. *)
Definition home_tail (opened return_home : bool) (home_data : list move)
  : list event :=
  if return_home
  then Call_go_home 1000 :: sent opened (build_servo_packet home_data)
       ++ [Sleep (Float64.of_Z 1)]
  else [].

(** The entries into methods that one step of a sequence makes. *)
Definition step_calls (s : ButtonPressAutomation.step) : list event :=
  match s with
  | ButtonPressAutomation.StepStr name => [bare_press name]
  | ButtonPressAutomation.StepDict button depth time =>
      [Call_press_button button (default (NInt 10) depth)
         (default 500 time) false]
  | ButtonPressAutomation.StepOther => []
  end.

(** What the return-home at the end of [run_sequence] enters. *)
Definition home_call (return_home : bool) : list event :=
  if return_home then [Call_go_home 1000] else [].

(** The press move from the whole-degree angle [m] by the whole-degree depth
    [k] is encoded without a clamp. *)
Definition press_depth_ok (m k : Z) : bool :=
  match angle_to_position (Float64.sub (Float64.of_Z m) (Float64.of_Z k)) with
  | Return p => p =? unclamped_position (m - k)
  | Raise _ => false
  end.

(** The whole degrees 0..180, and those the teaching loop can reach. *)
Definition degrees : list Z := map Z.of_nat (seq 0 181).

Definition grid_degrees : list Z := map (fun n => 5 * Z.of_nat n) (seq 0 37).

(** *** The interactive prompt *)

(** Text of ASCII characters only. *)
Definition plain (s : string) : bool :=
  forallb (fun c => (nat_of_ascii c <? 128)%nat) (list_ascii_of_string s).

(** Arguments that select no mode, so that [main] goes to its prompt. *)
Definition prompt_mode (args : auto_control.Namespace) : bool :=
  negb (auto_control.list_ args)
  && bool_decide (auto_control.given (auto_control.teach args) = None)
  && bool_decide (auto_control.given (auto_control.teach_dial args) = None)
  && bool_decide (auto_control.given (auto_control.press args) = None)
  && bool_decide (auto_control.given (auto_control.turn args) = None)
  && match auto_control.sequence args with
     | Some (_ :: _) => false
     | Some [] | None => true
     end.

(** The first words that make the prompt act on the arm or the store when
    a second word follows. *)
Definition acting_word (c : string) : bool :=
  bool_decide (c = "teach"%string) || bool_decide (c = "teach-dial"%string)
  || bool_decide (c = "press"%string) || bool_decide (c = "turn"%string)
  || bool_decide (c = "sequence"%string).

(** A line the prompt passes over: blank, ['list'], an acting word without
    its argument, or anything unknown; not ['quit']. *)
Definition idle (line : string) : bool :=
  match auto_control.split (strip line) with
  | [] => true
  | c :: words =>
      negb (bool_decide (c = "quit"%string))
      && (bool_decide (c = "list"%string)
          || match words with
             | [] => true
             | _ => negb (acting_word c)
             end)
  end.

(** *** The prompt of the plain controller *)

(** Arguments with which [main] of [hiwonder_control.py] goes to its
    prompt. *)
Definition learm_prompt_mode (args : hiwonder_control.Namespace) : bool :=
  negb (hiwonder_control.list_ args)
  && negb (hiwonder_control.test args)
  && negb (hiwonder_control.home args)
  && bool_decide (auto_control.given (hiwonder_control.position args) = None)
  && (bool_decide
        (hiwonder_control.given_servo (hiwonder_control.servo args) = None)
      || bool_decide (hiwonder_control.angle args = None)).

(** [int(s)] raises. *)
Definition bad_int (s : string) : bool :=
  match int_of_str s with
  | Return _ => false
  | Raise _ => true
  end.

(** A line that prompt passes over: blank, ['list'], a ['pos'] with an
    unknown name, a ['move'] with a word that is not a number, a command
    without its arguments, or anything unknown; neither ['quit'] nor
    ['home']. *)
Definition passed_over (line : string) : bool :=
  let cmd := auto_control.split (strip line) in
  match cmd with
  | [] => true
  | c :: _ =>
      if bool_decide (c = "quit"%string) then false
      else if bool_decide (c = "home"%string) then false
      else if bool_decide (c = "list"%string) then true
      else if bool_decide (c = "pos"%string) && (2 <=? List.length cmd)%nat
      then negb (mem hiwonder_control.POSITIONS (nth 1 cmd ""%string))
      else if bool_decide (c = "move"%string) && (3 <=? List.length cmd)%nat
      then bad_int (nth 1 cmd ""%string)
           || bad_int (nth 2 cmd ""%string)
           || ((3 <? List.length cmd)%nat && bad_int (nth 3 cmd ""%string))
      else true
  end.

(** * Properties *)

(** ** The wire frame *)

Lemma land_0xFF (v : Z) : Z.land v 0xFF = v mod 256.
Proof. change 0xFF with (Z.ones 8). now rewrite Z.land_ones by lia. Qed.

Lemma shiftr_8 (v : Z) : Z.shiftr v 8 = v / 256.
Proof. now rewrite Z.shiftr_div_pow2 by lia. Qed.

Lemma le16_value (v : Z) :
  0 <= v < 65536 -> v mod 256 + 256 * ((v / 256) mod 256) = v.
Proof.
  intros Hv. rewrite (Z.mod_small (v / 256)).
  - pose proof (Z.div_mod v 256). lia.
  - split; [apply Z.div_pos; lia | apply Z.div_lt_upper_bound; lia].
Qed.

Lemma fold_moves (servos_data : list move) (packet : list Z) :
  fold_left
    (fun packet '(servo_id, position, _) =>
       packet ++ [servo_id; Z.land position 0xFF;
                  Z.land (Z.shiftr position 8) 0xFF])
    servos_data packet
  = packet ++ flat_map move_bytes servos_data.
Proof.
  revert packet.
  induction servos_data as [|[[servo_id position] t] rest IH]; intros packet.
  - simpl. now rewrite app_nil_r.
  - cbn [fold_left flat_map move_bytes]. rewrite IH.
    unfold le16. rewrite shiftr_8, !land_0xFF, <- app_assoc. reflexivity.
Qed.

Lemma build_servo_packet_eq (servos_data : list move) :
  build_servo_packet servos_data =
    let n := Z.of_nat (List.length servos_data) in
    let time_ms :=
      match servos_data with (_, _, t) :: _ => t | [] => 1000 end in
    [0x55; 0x55; n * 3 + 5; 0x03; n] ++ le16 time_ms
      ++ flat_map move_bytes servos_data.
Proof.
  unfold build_servo_packet. rewrite fold_moves.
  unfold le16. rewrite shiftr_8, !land_0xFF. reflexivity.
Qed.

(** C1. The move list [(servo 1, 90 degrees, 1000 ms)] is encoded as
    55 55 08 03 01 E8 03 01 DC 05; for a list of [N >= 1] moves the frame is
    0x55 0x55, the length [N*3 + 5], 0x03, [N], the first move's duration as
    a little-endian 16-bit field, then per move, in list order, the servo id
    and the raw position as a little-endian 16-bit field. *)
Theorem build_servo_packet_layout :
  ButtonPressAutomation.servos_data_of [(KInt 1, NInt 90)] 1000
    = Return [(1, 1500, 1000)]
  /\ LeArmController.position_of (NInt 90) = Return 1500
  /\ build_servo_packet [(1, 1500, 1000)]
     = [0x55; 0x55; 0x08; 0x03; 0x01; 0xE8; 0x03; 0x01; 0xDC; 0x05]
  /\ forall (servo_id position time_ms : Z) (rest : list move),
       let servos_data := (servo_id, position, time_ms) :: rest in
       let n := Z.of_nat (List.length servos_data) in
       build_servo_packet servos_data
       = [0x55; 0x55; n * 3 + 5; 0x03; n] ++ le16 time_ms
           ++ flat_map move_bytes servos_data.
Proof.
  repeat split; try (vm_compute; reflexivity).
  intros servo_id position time_ms rest servos_data n.
  apply (build_servo_packet_eq servos_data).
Qed.

(** ** The HID report *)

Lemma enumerate_snoc (p : list Z) (b : Z) (i : nat) :
  combine (seq i (List.length (p ++ [b]))) (p ++ [b])
  = combine (seq i (List.length p)) p ++ [((i + List.length p)%nat, b)].
Proof.
  revert i. induction p as [|a p IH]; intros i.
  - simpl. now rewrite Nat.add_0_r.
  - cbn [List.length app seq combine]. rewrite IH.
    cbn [app]. now rewrite Nat.add_succ_comm.
Qed.

Lemma hid_report_snoc (p : list Z) (b : Z) :
  hid_report (p ++ [b])
  = if (List.length p + 1 <? List.length (hid_report p))%nat
    then <[(List.length p + 1)%nat := b]> (hid_report p)
    else hid_report p.
Proof.
  unfold hid_report. rewrite enumerate_snoc, fold_left_app. reflexivity.
Qed.

Lemma report_layout_length (packet : list Z) :
  List.length (report_layout packet) = 64%nat.
Proof.
  unfold report_layout. cbn [List.length].
  rewrite length_app, length_take, length_replicate. lia.
Qed.

Lemma hid_report_layout (packet : list Z) :
  hid_report packet = report_layout packet.
Proof.
  induction packet as [|b p IH] using rev_ind; [reflexivity|].
  rewrite hid_report_snoc, IH, report_layout_length.
  unfold report_layout. rewrite length_app. cbn [List.length].
  destruct (Nat.ltb_spec (List.length p + 1) 64) as [Hlt|Hge].
  - rewrite take_ge by lia.
    rewrite take_ge by (rewrite length_app; simpl; lia).
    rewrite Nat.add_1_r.
    change (<[S (List.length p) := b]>
              (0 :: p ++ replicate (63 - List.length p) 0))
      with (0 :: <[List.length p := b]>
                   (p ++ replicate (63 - List.length p) 0)).
    f_equal. rewrite insert_app_r_alt by lia. rewrite Nat.sub_diag.
    replace (63 - List.length p)%nat
      with (S (63 - (List.length p + 1))) by lia.
    rewrite <- app_assoc. cbn [replicate]. f_equal. cbn. do 2 f_equal. lia.
  - f_equal. rewrite take_app_le by lia.
    replace (63 - List.length p)%nat with 0%nat by lia.
    replace (63 - (List.length p + 1))%nat with 0%nat by lia. reflexivity.
Qed.

Lemma report_layout_bytes (packet : list Z) :
  forallb is_byte (take 63 packet) = true ->
  forallb is_byte (report_layout packet) = true.
Proof.
  intros H. unfold report_layout. cbn [forallb].
  rewrite forallb_app, H. cbn [andb].
  induction (63 - List.length packet)%nat as [|n IHn]; [reflexivity|exact IHn].
Qed.

(** ** The monad and the transport *)

Lemma logged_nil (w : World) : logged w [] = w.
Proof. destruct w. unfold logged. cbn. now rewrite app_nil_r. Qed.

Lemma logged_logged (w : World) (a b : list event) :
  logged (logged w a) b = logged w (a ++ b).
Proof. unfold logged. cbn. now rewrite app_assoc. Qed.

(** Unfolds the plumbing of the monad, leaving the effects in place. *)
Ltac run_monad :=
  repeat (progress (unfold bind, get_world, ret, raise, lift, emit,
                      try_or_false; cbv beta iota)).

Lemma sleep_settle (w : World) :
  sleep Float64.f0_05 w = (Return tt, logged w [Sleep Float64.f0_05]).
Proof. reflexivity. Qed.

Lemma auto_send_packet_open (packet : list Z) (w : World) :
  device_open w = true ->
  forallb is_byte (take 63 packet) = true ->
  ButtonPressAutomation.send_packet packet w
  = (Return true,
     logged w [HidWrite (report_layout packet); Sleep Float64.f0_05]).
Proof.
  intros Hopen Hbytes.
  unfold ButtonPressAutomation.send_packet, device_write. run_monad.
  rewrite hid_report_layout, Hopen, (report_layout_bytes _ Hbytes).
  cbv beta iota delta [andb]. rewrite sleep_settle, logged_logged. reflexivity.
Qed.


(** C5, as the code has it. A report is always 64 bytes: byte 0 is 0x00, the
    frame follows from byte 1, zeros fill the tail. A frame longer than 63
    bytes is no error: on an open device the send succeeds and the report
    carries the first 63 bytes of the frame, the rest is dropped. *)
Theorem send_packet_report (packet : list Z) (w : World) :
  device_open w = true ->
  forallb is_byte (take 63 packet) = true ->
  List.length (hid_report packet) = 64%nat
  /\ hid_report packet
     = 0 :: take 63 packet ++ replicate (63 - List.length packet) 0
  /\ ButtonPressAutomation.send_packet packet w
     = (Return true,
        logged w [HidWrite (hid_report packet); Sleep Float64.f0_05])
  /\ LeArmController.send_packet packet w
     = (Return true,
        logged w [HidWrite (hid_report packet); Sleep Float64.f0_05]).
Proof.
  intros Hopen Hbytes.
  pose proof (auto_send_packet_open _ _ Hopen Hbytes) as Hsend.
  rewrite hid_report_layout, report_layout_length.
  repeat split; exact Hsend.
Qed.

Lemma send_packet_report_witness :
  let packet := build_servo_packet [(1, 1500, 1000)] in
  let w := ButtonPressAutomation.init true None in
  List.length (hid_report packet) = 64%nat
  /\ hid_report packet
     = 0 :: take 63 packet ++ replicate (63 - List.length packet) 0
  /\ ButtonPressAutomation.send_packet packet w
     = (Return true,
        logged w [HidWrite (hid_report packet); Sleep Float64.f0_05])
  /\ LeArmController.send_packet packet w
     = (Return true,
        logged w [HidWrite (hid_report packet); Sleep Float64.f0_05]).
Proof.
  intros packet w. apply (send_packet_report packet w); reflexivity.
Defined.

(** C5, as the spec words it, fails: a 64-byte frame (19 moves) is sent
    without any error, and its last byte never reaches the device. *)
Lemma long_frame_is_truncated :
  let packet := build_servo_packet (replicate 19 (1, 1500, 1000)) in
  let w := ButtonPressAutomation.init true None in
  List.length packet = 64%nat
  /\ ButtonPressAutomation.send_packet packet w
     = (Return true,
        logged w [HidWrite (0 :: take 63 packet); Sleep Float64.f0_05])
  /\ 0 :: take 63 packet <> 0 :: packet.
Proof.
  cbv zeta. split; [reflexivity|]. split; [reflexivity|].
  intros H. apply (f_equal (@List.length Z)) in H. vm_compute in H. discriminate H.
Qed.

(** ** Rounding of the binary64 operations *)

Lemma digits2_pos_bounds (p : positive) :
  2 ^ (Zpos (digits2_pos p) - 1) <= Zpos p < 2 ^ Zpos (digits2_pos p).
Proof.
  induction p as [p IH|p IH|]; cbn [digits2_pos].
  - rewrite Pos2Z.inj_succ.
    replace (Z.succ (Zpos (digits2_pos p)) - 1) with (Z.succ (Zpos (digits2_pos p) - 1)) by lia.
    rewrite !Z.pow_succ_r by lia. lia.
  - rewrite Pos2Z.inj_succ.
    replace (Z.succ (Zpos (digits2_pos p)) - 1) with (Z.succ (Zpos (digits2_pos p) - 1)) by lia.
    rewrite !Z.pow_succ_r by lia. lia.
  - cbn. lia.
Qed.

Lemma Zdigits2_le (m k : Z) : 0 <= m -> 0 <= k -> m <= 2 ^ k -> Zdigits2 m <= k + 1.
Proof.
  intros Hm Hk Hle. destruct m as [|p|p]; cbn [Zdigits2]; [lia| |lia].
  pose proof (digits2_pos_bounds p) as [Hlo _].
  destruct (Z_lt_le_dec (k + 1) (Zpos (digits2_pos p))) as [Hlt|]; [|lia].
  exfalso.
  assert (2 ^ (k + 1) <= 2 ^ (Zpos (digits2_pos p) - 1)) by (apply Z.pow_le_mono_r; lia).
  rewrite Z.pow_add_r in H by lia. lia.
Qed.

(** One right shift of a record with a non-negative mantissa. *)
Lemma shr_1_spec (m : Z) (r s : bool) :
  0 <= m ->
  shr_1 (Build_shr_record m r s) = Build_shr_record (m / 2) (Z.odd m) (r || s).
Proof.
  intros Hm. rewrite <- Z.div2_div.
  destruct m as [|[p|p|]|p]; try reflexivity; lia.
Qed.

Lemma iter_pos_inv {A} (f : A -> A) (P : Z -> A -> Prop) :
  (forall n x, 0 <= n -> P n x -> P (n + 1) (f x)) ->
  forall p n x, 0 <= n -> P n x -> P (n + Zpos p) (SpecFloat.iter_pos f p x).
Proof.
  intros Hstep. induction p as [p IH|p IH|]; intros n x Hn HP;
    cbn [SpecFloat.iter_pos].
  - replace (n + Zpos p~1) with (n + 1 + Zpos p + Zpos p) by lia.
    apply IH; [lia|]. apply IH; [lia|]. now apply Hstep.
  - replace (n + Zpos p~0) with (n + Zpos p + Zpos p) by lia.
    apply IH; [lia|]. now apply IH.
  - now apply Hstep.
Qed.

Lemma shifted_step (mx : Z) (lx : bool) (n : Z) (mrs : shr_record) :
  0 <= mx -> 0 <= n ->
  shifted mx lx n mrs -> shifted mx lx (n + 1) (shr_1 mrs).
Proof.
  intros Hmx Hn [Hm Hin]. destruct mrs as [m r s]. cbn [shr_m] in Hm.
  assert (Hpow : 0 < 2 ^ n) by (apply Z.pow_pos_nonneg; lia).
  assert (H0 : 0 <= m) by (subst m; apply Z.div_pos; lia).
  rewrite (shr_1_spec m r s H0). unfold shifted, inexact in *.
  cbn [shr_m shr_r shr_s] in *.
  rewrite Z.pow_add_r, Z.pow_1_r by lia. split.
  - subst m. rewrite Z.div_div by lia. reflexivity.
  - intros Hor.
    destruct lx; [now left|right].
    intros Hmod.
    apply Z.mod_divide in Hmod; [|lia]. destruct Hmod as [c Hc].
    assert (Hm' : m = 2 * c).
    { rewrite Hm, Hc. replace (c * (2 ^ n * 2)) with ((2 * c) * 2 ^ n) by lia.
      now rewrite Z.div_mul by lia. }
    assert (Hodd : Z.odd m = false) by (rewrite Hm'; now rewrite Z.odd_mul).
    rewrite Hodd in Hor. cbn [orb] in Hor.
    destruct (Hin Hor) as [Hl|Hne]; [discriminate|].
    apply Hne. rewrite Hc.
    replace (c * (2 ^ n * 2)) with ((2 * c) * 2 ^ n) by lia.
    apply Z.mod_mul. lia.
Qed.

Lemma shifted_iter (mx : Z) (lx : location) (p : positive) :
  0 <= mx ->
  shifted mx (match lx with loc_Exact => false | _ => true end) (Zpos p)
    (SpecFloat.iter_pos shr_1 p (shr_record_of_loc mx lx)).
Proof.
  intros Hmx.
  apply (iter_pos_inv shr_1
           (shifted mx (match lx with loc_Exact => false | _ => true end))
           (fun n x Hn => shifted_step mx _ n x Hmx Hn) p 0); [lia|].
  unfold shifted, inexact. rewrite Z.pow_0_r, Z.div_1_r. split.
  - now destruct lx as [|[| |]].
  - destruct lx as [|[| |]]; cbn; intros H; try discriminate; now left.
Qed.

Lemma loc_of_record_of (m : Z) (l : location) :
  loc_of_shr_record (shr_record_of_loc m l) = l
  /\ shr_m (shr_record_of_loc m l) = m.
Proof. now destruct l as [|[| |]]. Qed.

Lemma round_bounds (mrs : shr_record) :
  let r := round_nearest_even (shr_m mrs) (loc_of_shr_record mrs) in
  shr_m mrs <= r <= shr_m mrs + 1 /\ (inexact mrs = false -> r = shr_m mrs).
Proof.
  destruct mrs as [m [|] [|]]; cbn; try destruct (Z.even m);
    repeat split; try lia; intros; discriminate.
Qed.

Lemma round_loc_bounds (m : Z) (l : location) :
  m <= round_nearest_even m l <= m + (if inexactb l then 1 else 0).
Proof.
  destruct l as [|[| |]]; cbn; try destruct (Z.even m); lia.
Qed.

(** One alignment to the exponent [fexp] asks for, then rounding. *)
Lemma shr_fexp_round (mx ex : Z) (lx : location) (K : Z) :
  0 <= mx ->
  mx + (if inexactb lx then 1 else 0) <= K ->
  (forall n, 0 < n -> n = fexp (Zdigits2 mx + ex) - ex -> (2 ^ n | K)) ->
  forall mrs e',
    shr_fexp 53 1024 mx ex lx = (mrs, e') ->
    let m1 := round_nearest_even (shr_m mrs) (loc_of_shr_record mrs) in
    0 <= m1
    /\ e' = Z.max ex (fexp (Zdigits2 mx + ex))
    /\ m1 * 2 ^ (e' - ex) <= K.
Proof.
  intros Hmx HK Hdiv mrs e' Hshr m1. unfold shr_fexp, shr in Hshr.
  destruct (fexp (Zdigits2 mx + ex) - ex) as [|p|p] eqn:Hn.
  - inversion Hshr; subst mrs e'. subst m1.
    destruct (loc_of_record_of mx lx) as [-> ->].
    pose proof (round_loc_bounds mx lx).
    replace (Z.max ex (fexp (Zdigits2 mx + ex))) with ex by lia.
    rewrite Z.sub_diag, Z.pow_0_r. lia.
  - inversion Hshr; subst mrs e'. subst m1.
    destruct (shifted_iter mx lx p Hmx) as [Hm Hin].
    fold (inexactb lx) in Hin.
    set (mrs := SpecFloat.iter_pos shr_1 p (shr_record_of_loc mx lx)) in *.
    destruct (round_bounds mrs) as [[Hlo Hhi] Hex].
    assert (Hpow : 0 < 2 ^ Zpos p) by (apply Z.pow_pos_nonneg; lia).
    assert (Hm0 : 0 <= shr_m mrs) by (rewrite Hm; apply Z.div_pos; lia).
    split; [lia|]. split; [lia|].
    replace (ex + Zpos p - ex) with (Zpos p) by lia.
    destruct (Hdiv (Zpos p)) as [k Hk]; [lia|lia|].
    pose proof (Z.div_mod mx (2 ^ Zpos p)) as Hdm.
    pose proof (Z.mod_pos_bound mx (2 ^ Zpos p) Hpow) as Hmod.
    destruct (inexact mrs) eqn:Hinex.
    + assert (Hlt : mx < k * 2 ^ Zpos p).
      { destruct (Hin eq_refl) as [Hl|Hne].
        - rewrite Hl in HK. lia.
        - destruct (inexactb lx); [lia|].
          assert (mx <> k * 2 ^ Zpos p); [|lia].
          intros Heq. apply Hne. rewrite Heq. apply Z.mod_mul. lia. }
      assert (mx / 2 ^ Zpos p < k) by (apply Z.div_lt_upper_bound; lia).
      nia.
    + rewrite (Hex eq_refl), Hm.
      assert (mx / 2 ^ Zpos p * 2 ^ Zpos p <= mx) by lia.
      destruct (inexactb lx); lia.
  - inversion Hshr; subst mrs e'. subst m1.
    destruct (loc_of_record_of mx lx) as [-> ->].
    pose proof (round_loc_bounds mx lx).
    replace (Z.max ex (fexp (Zdigits2 mx + ex))) with ex by lia.
    rewrite Z.sub_diag, Z.pow_0_r. lia.
Qed.

(** The second alignment, after rounding: it can only cut bits off. *)
Lemma shr_fexp_exact (m1 e' : Z) :
  0 <= m1 ->
  forall mrs e'',
    shr_fexp 53 1024 m1 e' loc_Exact = (mrs, e'') ->
    0 <= shr_m mrs
    /\ e'' = Z.max e' (fexp (Zdigits2 m1 + e'))
    /\ shr_m mrs * 2 ^ (e'' - e') <= m1.
Proof.
  intros Hm1 mrs e'' Hshr. unfold shr_fexp, shr in Hshr.
  destruct (fexp (Zdigits2 m1 + e') - e') as [|p|p] eqn:Hn.
  - inversion Hshr; subst. cbn [shr_record_of_loc shr_m].
    replace (Z.max e'' (fexp (Zdigits2 m1 + e''))) with e'' by lia.
    rewrite Z.sub_diag, Z.pow_0_r. lia.
  - inversion Hshr; subst.
    destruct (shifted_iter m1 loc_Exact p Hm1) as [Hm _].
    cbn [shr_record_of_loc] in Hm. rewrite Hm.
    assert (Hpow : 0 < 2 ^ Zpos p) by (apply Z.pow_pos_nonneg; lia).
    split; [apply Z.div_pos; lia|]. split; [lia|].
    replace (e' + Zpos p - e') with (Zpos p) by lia.
    pose proof (Z.div_mod m1 (2 ^ Zpos p)) as Hdm.
    pose proof (Z.mod_pos_bound m1 (2 ^ Zpos p) Hpow) as Hmod. lia.
  - inversion Hshr; subst. cbn [shr_record_of_loc shr_m].
    replace (Z.max e'' (fexp (Zdigits2 m1 + e''))) with e'' by lia.
    rewrite Z.sub_diag, Z.pow_0_r. lia.
Qed.

Lemma fexp_le (d : Z) : d <= 12 -> fexp d <= -41.
Proof. unfold SpecFloat.fexp, emin. lia. Qed.

Lemma pow2_split (a b : Z) : 0 <= a -> 0 <= b -> 2 ^ (a + b) = 2 ^ a * 2 ^ b.
Proof. intros. now rewrite Z.pow_add_r. Qed.

Lemma le_pow2_cancel (m a b : Z) :
  0 <= a -> 0 <= b -> m * 2 ^ a <= 2 ^ (b + a) -> m <= 2 ^ b.
Proof.
  intros Ha Hb H. rewrite pow2_split in H by lia.
  assert (0 < 2 ^ a) by (apply Z.pow_pos_nonneg; lia). nia.
Qed.

(** Rounding a value that is at most [K * 2^ex], a grid point below 2^11,
    gives a finite result that is at most that grid point. *)
Lemma binary_round_aux_le (s : bool) (mx ex : Z) (lx : location) (K : Z) :
  0 <= mx ->
  ex <= -41 ->
  mx + (if inexactb lx then 1 else 0) <= K ->
  K <= 2 ^ (11 - ex) ->
  (2 ^ (-41 - ex) | K) ->
  binary_round_aux 53 1024 s mx ex lx = S754_zero s
  \/ exists m e,
       binary_round_aux 53 1024 s mx ex lx = S754_finite s m e
       /\ ex <= e <= -41
       /\ Zpos m * 2 ^ (e - ex) <= K.
Proof.
  intros Hmx Hex HK Hbound Hdiv. unfold binary_round_aux.
  destruct (shr_fexp 53 1024 mx ex lx) as [mrs e'] eqn:H1.
  assert (Hd : Zdigits2 mx + ex <= 12).
  { assert (Zdigits2 mx <= 11 - ex + 1); [|lia].
    apply Zdigits2_le; try lia. destruct (inexactb lx); lia. }
  pose proof (fexp_le _ Hd) as Hf.
  destruct (shr_fexp_round mx ex lx K Hmx HK) with (mrs := mrs) (e' := e')
    as (Hm1 & He' & Hle1); [|exact H1|].
  { intros n Hn Heq. apply Z.divide_trans with (2 ^ (-41 - ex)); [|exact Hdiv].
    exists (2 ^ (-41 - ex - n)). rewrite <- pow2_split by lia. f_equal. lia. }
  set (m1 := round_nearest_even (shr_m mrs) (loc_of_shr_record mrs)) in *.
  assert (He'41 : ex <= e' <= -41) by lia.
  destruct (shr_fexp 53 1024 m1 e' loc_Exact) as [mrs2 e''] eqn:H2.
  destruct (shr_fexp_exact m1 e' Hm1 mrs2 e'' H2) as (Hm2 & He'' & Hle2).
  assert (Hd1 : Zdigits2 m1 + e' <= 12).
  { assert (Zdigits2 m1 <= 11 - e' + 1); [|lia].
    apply Zdigits2_le; try lia.
    apply (le_pow2_cancel m1 (e' - ex) (11 - e')); try lia.
    replace (11 - e' + (e' - ex)) with (11 - ex) by lia. lia. }
  pose proof (fexp_le _ Hd1) as Hf1.
  assert (Hfinal : shr_m mrs2 * 2 ^ (e'' - ex) <= K).
  { replace (e'' - ex) with ((e'' - e') + (e' - ex)) by lia.
    rewrite pow2_split by lia.
    assert (0 < 2 ^ (e' - ex)) by (apply Z.pow_pos_nonneg; lia).
    nia. }
  destruct (shr_m mrs2) as [|m|m] eqn:Hm.
  - now left.
  - right. exists m, e''.
    replace (e'' <=? 1024 - 53) with true by (symmetry; apply Z.leb_le; lia).
    repeat split; try lia.
  - lia.
Qed.


Lemma f180_value : Float64.f180_0 = S754_finite false m180 (-45).
Proof. reflexivity. Qed.

Lemma f2000_value : Float64.of_Z 2000 = S754_finite false m2000 (-42).
Proof. reflexivity. Qed.

Lemma canonical_digits (m : positive) (e : Z) :
  bounded 53 1024 m e = true ->
  Zpos (digits2_pos m) <= 53 /\ Zpos m < 2 ^ 53.
Proof.
  unfold bounded, canonical_mantissa. intros Hb.
  apply andb_prop in Hb. destruct Hb as [Hc _]. apply Z.eqb_eq in Hc.
  unfold SpecFloat.fexp, emin in Hc.
  assert (Hd : Zpos (digits2_pos m) <= 53) by lia. split; [exact Hd|].
  pose proof (digits2_pos_bounds m) as [_ Hhi].
  eapply Z.lt_le_trans; [exact Hhi|]. apply Z.pow_le_mono_r; lia.
Qed.

Lemma le_180 (m : positive) (e : Z) :
  SFleb (S754_finite false m e) (S754_finite false m180 (-45)) = true ->
  e < -45 \/ (e = -45 /\ Zpos m <= Zpos m180).
Proof.
  unfold SFleb, SFcompare. destruct (Z.compare_spec e (-45)) as [He|He|He].
  - rewrite Pos.compare_cont_spec. cbn [Pos.switch_Eq].
    destruct (Pos.compare_spec m m180) as [Hm|Hm|Hm]; intros H.
    + right. split; [exact He|]. rewrite Hm. apply Z.le_refl.
    + right. split; [exact He|]. apply Pos2Z.pos_le_pos, Pos.lt_le_incl, Hm.
    + discriminate H.
  - now left.
  - intros H. discriminate H.
Qed.

Lemma shift_match (m : positive) (s : Z) :
  0 <= s ->
  match s with
  | 0 => Zpos m
  | Zpos _ => Z.shiftl (Zpos m) s
  | Zneg _ => 0
  end = Zpos m * 2 ^ s.
Proof.
  intros Hs. destruct s as [|p|p].
  - rewrite Z.pow_0_r. lia.
  - now rewrite Z.shiftl_mul_pow2 by lia.
  - lia.
Qed.

(** The integer quotient that [SFdiv] rounds, for an angle up to 180. *)
Lemma div_core_180 (m : positive) (e : Z) :
  bounded 53 1024 m e = true ->
  e < -45 \/ (e = -45 /\ Zpos m <= Zpos m180) ->
  exists q r e',
    SFdiv_core_binary 53 1024 (Zpos m) e (Zpos m180) (-45)
    = (q, e', new_location (Zpos m180) r)
    /\ 0 <= q
    /\ e' <= -53
    /\ q + (if r =? 0 then 0 else 1) <= 2 ^ (- e').
Proof.
  intros Hb Hle. destruct (canonical_digits m e Hb) as [Hd Hm53].
  unfold SFdiv_core_binary.
  change (Zdigits2 (Zpos m180)) with 53.
  change (Zdigits2 (Zpos m)) with (Zpos (digits2_pos m)).
  set (d1 := Zpos (digits2_pos m)) in *.
  set (e' := Z.min (fexp (d1 + e - (53 + -45))) (e - -45)).
  assert (He' : e' <= -53 /\ e' <= e + 45).
  { unfold e', SpecFloat.fexp, emin. lia. }
  set (s := e - -45 - e').
  assert (Hs : 0 <= s) by (unfold s; lia).
  rewrite (shift_match m s Hs).
  set (m' := Zpos m * 2 ^ s).
  assert (Hpow_s : 0 < 2 ^ s) by (apply Z.pow_pos_nonneg; lia).
  assert (HmK : m' <= Zpos m180 * 2 ^ (- e')).
  { unfold m'. destruct Hle as [Hlt|[Heq Hm]].
    - replace (- e') with ((-45 - e) + s) by (unfold s; lia).
      rewrite pow2_split by lia.
      assert (2 <= 2 ^ (-45 - e)).
      { change 2 with (2 ^ 1) at 1. apply Z.pow_le_mono_r; lia. }
      assert (H53 : 2 ^ 53 <= Zpos m180 * 2).
      { vm_compute. discriminate. }
      assert (Ht : Zpos m180 * 2 <= Zpos m180 * 2 ^ (-45 - e))
        by (apply Z.mul_le_mono_nonneg_l; lia).
      rewrite Z.mul_assoc. apply Z.mul_le_mono_nonneg_r; lia.
    - replace (- e') with s by (unfold s; lia).
      apply Z.mul_le_mono_nonneg_r; lia. }
  pose proof (Z.div_eucl_eq m' (Zpos m180)) as Heucl.
  pose proof (Z.mod_pos_bound m' (Zpos m180)) as Hmod.
  unfold Z.modulo in Hmod.
  destruct (Z.div_eucl m' (Zpos m180)) as [q r].
  specialize (Heucl ltac:(lia)). specialize (Hmod ltac:(lia)).
  assert (0 <= m') by (unfold m'; nia).
  assert (Hq0 : 0 <= q) by nia.
  exists q, r, e'. split; [reflexivity|]. split; [exact Hq0|].
  split; [lia|].
  assert (HKpos : 0 < 2 ^ (- e')) by (apply Z.pow_pos_nonneg; lia).
  destruct (Z.eqb_spec r 0) as [Hr|Hr].
  - assert (q <= 2 ^ (- e')); [|lia]. subst r. nia.
  - assert (q < 2 ^ (- e')); [|lia]. nia.
Qed.

Lemma new_location_180 (r : Z) :
  inexactb (new_location (Zpos m180) r) = negb (r =? 0).
Proof.
  unfold new_location. change (Z.even (Zpos m180)) with true.
  unfold new_location_even. now destruct (r =? 0).
Qed.

(** The quotient of an angle of at most 180 by 180.0 is at most 1. *)
Lemma div_180_le_1 (m : positive) (e : Z) :
  bounded 53 1024 m e = true ->
  SFleb (S754_finite false m e) Float64.f180_0 = true ->
  let x := Float64.div (S754_finite false m e) Float64.f180_0 in
  x = S754_zero false
  \/ exists m1 e1,
       x = S754_finite false m1 e1 /\ e1 <= -41 /\ Zpos m1 <= 2 ^ (- e1).
Proof.
  intros Hb Hle. rewrite f180_value in *. apply le_180 in Hle.
  destruct (div_core_180 m e Hb Hle) as (q & r & e' & Hcore & Hq & He' & HK).
  cbv zeta. unfold Float64.div, SFdiv.
  change Float64.prec with 53. change Float64.emax with 1024.
  rewrite Hcore.
  destruct (binary_round_aux_le (xorb false false) q e'
              (new_location (Zpos m180) r) (2 ^ (- e')))
    as [Hz|(m1 & e1 & Hf & He1 & Hle1)]; try lia.
  - rewrite new_location_180. now destruct (r =? 0).
  - apply Z.pow_le_mono_r; lia.
  - exists (2 ^ 41). rewrite <- pow2_split by lia. f_equal. lia.
  - left. exact Hz.
  - right. exists m1, e1. split; [exact Hf|]. split; [lia|].
    apply (le_pow2_cancel _ (e1 - e') (- e1)); try lia.
    replace (- e1 + (e1 - e')) with (- e') by lia. exact Hle1.
Qed.

(** The product of a quotient of at most 1 and 2000 is at most 2000. *)
Lemma mul_2000_le (m1 : positive) (e1 : Z) :
  e1 <= -41 ->
  Zpos m1 <= 2 ^ (- e1) ->
  let y := Float64.mul (S754_finite false m1 e1) (Float64.of_Z 2000) in
  y = S754_zero false
  \/ exists m2 e2,
       y = S754_finite false m2 e2
       /\ e2 <= -41
       /\ Zpos m2 <= 2000 * 2 ^ (- e2).
Proof.
  intros He1 Hm1. rewrite f2000_value. cbv zeta. unfold Float64.mul, SFmul.
  change Float64.prec with 53. change Float64.emax with 1024.
  rewrite Pos2Z.inj_mul.
  assert (Hm2000 : Zpos m2000 = 2000 * 2 ^ 42) by reflexivity.
  assert (Hp1 : 0 < 2 ^ (- e1)) by (apply Z.pow_pos_nonneg; lia).
  destruct (binary_round_aux_le (xorb false false) (Zpos m1 * Zpos m2000)
              (e1 + -42) loc_Exact (2000 * 2 ^ (42 - e1)))
    as [Hz|(m2 & e2 & Hf & He2 & Hle2)]; try lia.
  - cbn [inexactb]. rewrite Hm2000.
    replace (42 - e1) with (- e1 + 42) by lia. rewrite pow2_split by lia.
    assert (0 < 2 ^ 42) by (apply Z.pow_pos_nonneg; lia). nia.
  - replace (11 - (e1 + -42)) with (11 + (42 - e1)) by lia.
    rewrite pow2_split by lia.
    apply Z.mul_le_mono_nonneg_r; [apply Z.pow_nonneg; lia|].
    vm_compute. discriminate.
  - exists (2000 * 2 ^ 41).
    replace (42 - e1) with (41 + (-41 - (e1 + -42))) by lia.
    rewrite pow2_split by lia. lia.
  - left. exact Hz.
  - right. exists m2, e2. split; [exact Hf|]. split; [lia|].
    replace (42 - e1) with (- e2 + (e2 - (e1 + -42))) in Hle2 by lia.
    rewrite pow2_split in Hle2 by lia.
    assert (0 < 2 ^ (e2 - (e1 + -42))) by (apply Z.pow_pos_nonneg; lia).
    nia.
Qed.

Lemma to_int_le_2000 (m2 : positive) (e2 : Z) :
  e2 <= -41 ->
  Zpos m2 <= 2000 * 2 ^ (- e2) ->
  exists p, Float64.to_int (S754_finite false m2 e2) = Return p
            /\ 0 <= p <= 2000.
Proof.
  intros He2 Hm2. destruct e2 as [|p|p]; try lia.
  cbn [Float64.to_int Float64.trunc_mag]. eexists. split; [reflexivity|].
  change (- Zneg p) with (Zpos p) in Hm2.
  assert (0 < 2 ^ Zpos p) by (apply Z.pow_pos_nonneg; lia).
  split; [apply Z.div_pos; lia|].
  apply Z.div_le_upper_bound; lia.
Qed.

(** ** Angle to raw position *)

Lemma truncates_upto_180 :
  forallb truncates_at (map Z.of_nat (seq 0 181)) = true.
Proof. vm_compute. reflexivity. Qed.

Lemma truncates_at_spec (a : Z) :
  0 <= a <= 180 ->
  angle_to_position (Float64.of_Z a) = Return (a * 2000 / 180 + 500).
Proof.
  intros Ha.
  assert (Hin : In a (map Z.of_nat (seq 0 181))).
  { apply in_map_iff. exists (Z.to_nat a). split; [lia|].
    apply in_seq. lia. }
  pose proof (proj1 (forallb_forall _ _) truncates_upto_180 a Hin) as Hchk.
  unfold truncates_at in Hchk.
  destruct (angle_to_position (Float64.of_Z a)) as [p|e]; [|discriminate].
  apply Z.eqb_eq in Hchk. now subst.
Qed.

Lemma of_int_small (a : Z) :
  0 <= a <= 180 -> Float64.of_int a = Return (Float64.of_Z a).
Proof.
  intros Ha. unfold Float64.of_int.
  pose proof (truncates_at_spec a Ha) as H.
  unfold angle_to_position in H.
  destruct (Float64.of_Z a) as [s|s| |s m e]; try reflexivity;
    vm_compute in H; discriminate H.
Qed.

(** Every binary64 angle in 0..180 has a raw position in 500..2500. *)
Lemma raw_position_in_range (a : float) :
  Float64.valid a = true ->
  Float64.leb Float64.zero a = true ->
  Float64.leb a Float64.f180_0 = true ->
  exists p, angle_to_position a = Return p /\ 500 <= p <= 2500.
Proof.
  intros Hvalid H0 H180. unfold Float64.valid, Float64.leb in *.
  change Float64.prec with 53 in Hvalid. change Float64.emax with 1024 in Hvalid.
  unfold angle_to_position.
  destruct a as [s|s| |s m e].
  - exists 500. now destruct s.
  - destruct s; discriminate.
  - discriminate.
  - destruct s; [discriminate|]. cbn [valid_binary] in Hvalid.
    destruct (div_180_le_1 m e Hvalid H180) as [Hz|(m1 & e1 & Hx & He1 & Hm1)].
    + rewrite Hz. exists 500. split; [reflexivity|lia].
    + rewrite Hx.
      destruct (mul_2000_le m1 e1 He1 Hm1) as [Hz|(m2 & e2 & Hy & He2 & Hm2)].
      * rewrite Hz. exists 500. split; [reflexivity|lia].
      * rewrite Hy. destruct (to_int_le_2000 m2 e2 He2 Hm2) as (p & Hp & Hr).
        rewrite Hp. exists (p + 500). split; [reflexivity|lia].
Qed.

Lemma whole_degree_position (n : Z) :
  0 <= n <= 180 ->
  angle_to_position (Float64.of_Z n) = Return (n * 2000 / 180 + 500)
  /\ ButtonPressAutomation.servos_data_of [(KInt 1, NInt n)] 1000
     = Return [(1, n * 2000 / 180 + 500, 1000)]
  /\ LeArmController.position_of (NInt n) = Return (n * 2000 / 180 + 500).
Proof.
  intros Hn. pose proof (truncates_at_spec n Hn) as Hpos.
  pose proof (of_int_small n Hn) as Hflt.
  split; [exact Hpos|]. split.
  - cbn [ButtonPressAutomation.servos_data_of py_int py_float obind].
    rewrite Hflt. cbn [obind]. rewrite Hpos. reflexivity.
  - unfold LeArmController.position_of. cbn [py_float obind].
    rewrite Hflt. exact Hpos.
Qed.

(** C2, as the code has it. For every binary64 angle [a] in 0.0..180.0 the
    raw position is [int(a / 180.0 * 2000) + 500], the product cut towards
    zero and not rounded, and it lies in 500..2500; 0 gives 500, 90 gives
    1500 and 180 gives 2500; for a whole number [n] of degrees the result
    is exactly [floor(n * 2000 / 180) + 500]. *)
Theorem raw_position_truncates (a : float) :
  Float64.valid a = true ->
  Float64.leb Float64.zero a = true ->
  Float64.leb a Float64.f180_0 = true ->
  (exists p,
      angle_to_position a = Return p
      /\ Float64.to_int
           (Float64.mul (Float64.div a Float64.f180_0) (Float64.of_Z 2000))
         = Return (p - 500)
      /\ 500 <= p <= 2500)
  /\ angle_to_position (Float64.of_Z 0) = Return 500
  /\ angle_to_position (Float64.of_Z 90) = Return 1500
  /\ angle_to_position (Float64.of_Z 180) = Return 2500
  /\ forall n : Z,
       0 <= n <= 180 ->
       angle_to_position (Float64.of_Z n) = Return (n * 2000 / 180 + 500)
       /\ ButtonPressAutomation.servos_data_of [(KInt 1, NInt n)] 1000
          = Return [(1, n * 2000 / 180 + 500, 1000)]
       /\ LeArmController.position_of (NInt n)
          = Return (n * 2000 / 180 + 500).
Proof.
  intros Hvalid H0 H180. split.
  - destruct (raw_position_in_range a Hvalid H0 H180) as (p & Hp & Hrange).
    exists p. split; [exact Hp|]. split; [|exact Hrange].
    unfold angle_to_position in Hp.
    destruct (Float64.to_int _) as [t|e]; [|discriminate].
    cbn [obind] in Hp. inversion Hp. f_equal. lia.
  - split; [vm_compute; reflexivity|].
    split; [vm_compute; reflexivity|].
    split; [vm_compute; reflexivity|].
    exact whole_degree_position.
Qed.

Lemma raw_position_truncates_witness :
  let a := Float64.div (Float64.of_Z 181) (Float64.of_Z 2) in
  (exists p,
      angle_to_position a = Return p
      /\ Float64.to_int
           (Float64.mul (Float64.div a Float64.f180_0) (Float64.of_Z 2000))
         = Return (p - 500)
      /\ 500 <= p <= 2500)
  /\ angle_to_position (Float64.of_Z 45) = Return (45 * 2000 / 180 + 500)
  /\ ButtonPressAutomation.servos_data_of [(KInt 1, NInt 45)] 1000
     = Return [(1, 45 * 2000 / 180 + 500, 1000)]
  /\ LeArmController.position_of (NInt 45) = Return (45 * 2000 / 180 + 500).
Proof.
  intros a.
  destruct (raw_position_truncates a) as (Hrange & _ & _ & _ & Hwhole);
    try reflexivity.
  split; [exact Hrange|]. apply (Hwhole 45). lia.
Defined.

(** C2, as the spec words it, fails at 5 degrees: 5 / 180.0 * 2000 is
    55.55..., which [int] cuts to 55 where [round] gives 56. *)
Lemma position_is_not_rounded :
  Float64.ltb (Float64.of_Z 5) Float64.f180_0 = true
  /\ angle_to_position (Float64.of_Z 5) = Return 555
  /\ rounded_position (Float64.of_Z 5) = Return 556
  /\ angle_to_position (Float64.of_Z 5) <> rounded_position (Float64.of_Z 5).
Proof.
  repeat split; try (vm_compute; reflexivity).
  vm_compute. discriminate.
Qed.

(** ** Dictionaries *)

Section DictFacts.
Context {K V : Type} `{EqDecision K}.
Implicit Types (d : list (K * V)) (k : K) (v : V).

Lemma get_set_eq d k v : get (set d k v) k = Some v.
Proof.
  induction d as [|[k' v'] d IH]; cbn [set get].
  - now rewrite decide_True.
  - destruct (decide (k' = k)) as [->|Hne]; cbn [get].
    + now rewrite decide_True.
    + now rewrite decide_False.
Qed.

Lemma get_set_ne d k k' v : k <> k' -> get (set d k v) k' = get d k'.
Proof.
  intros Hne. induction d as [|[k0 v0] d IH]; cbn [set get].
  - now rewrite decide_False.
  - destruct (decide (k0 = k)) as [->|Hne0]; cbn [get].
    + now rewrite !decide_False.
    + destruct (decide (k0 = k')); [reflexivity|exact IH].
Qed.

Lemma get_None d k : get d k = None <-> ~ In k (keys d).
Proof.
  induction d as [|[k' v'] d IH]; cbn [get keys map fst In].
  - tauto.
  - destruct (decide (k' = k)) as [->|Hne].
    + split; [discriminate|]. intros Hn. exfalso. apply Hn. now left.
    + unfold keys in IH. rewrite IH. tauto.
Qed.

Lemma get_Some_In d k v : get d k = Some v -> In k (keys d).
Proof.
  intros Hg. destruct (in_dec (fun a b => decide (a = b)) k (keys d)) as [Hin|Hn].
  - exact Hin.
  - apply get_None in Hn. congruence.
Qed.

Lemma set_fresh d k v : ~ In k (keys d) -> set d k v = d ++ [(k, v)].
Proof.
  induction d as [|[k' v'] d IH]; cbn [set keys map fst In app]; intros Hn.
  - reflexivity.
  - rewrite decide_False by tauto. f_equal. apply IH. tauto.
Qed.


Lemma keys_set_present d k v : In k (keys d) -> keys (set d k v) = keys d.
Proof.
  induction d as [|[k' v'] d IH]; cbn [set keys map fst In]; intros Hin.
  - contradiction.
  - destruct (decide (k' = k)) as [->|Hne]; cbn [map fst].
    + reflexivity.
    + f_equal. apply IH. tauto.
Qed.

Lemma keys_set d k v :
  keys (set d k v) = if mem d k then keys d else keys d ++ [k].
Proof.
  unfold mem. destruct (get d k) as [v0|] eqn:Hg.
  - apply keys_set_present. eapply get_Some_In, Hg.
  - apply get_None in Hg. rewrite (set_fresh _ _ _ Hg).
    unfold keys. now rewrite map_app.
Qed.

Lemma wf_set d k v : wf d -> wf (set d k v).
Proof.
  unfold wf. intros Hwf. rewrite keys_set. unfold mem.
  destruct (get d k) eqn:Hg; [exact Hwf|].
  apply get_None in Hg. apply NoDup_app. repeat split.
  - exact Hwf.
  - intros x Hx Hk. apply list_elem_of_In in Hx.
    apply list_elem_of_In in Hk. cbn in Hk.
    destruct Hk as [Hk|[]]. subst. contradiction.
  - apply NoDup_singleton.
Qed.

Lemma fold_set_app (l acc : list (K * V)) :
  NoDup (keys (acc ++ l)) ->
  fold_left (fun d kv => set d (fst kv) (snd kv)) l acc = acc ++ l.
Proof.
  revert acc. induction l as [|[k v] l IH]; intros acc Hnd; cbn [fold_left].
  - now rewrite app_nil_r.
  - cbn [fst snd].
    assert (Hfresh : ~ In k (keys acc)).
    { unfold keys in *. rewrite map_app in Hnd. cbn [map fst] in Hnd.
      apply NoDup_app in Hnd. destruct Hnd as (_ & Hdisj & _).
      intros Hin. apply (Hdisj k); [now apply list_elem_of_In|]. now left. }
    rewrite (set_fresh _ _ _ Hfresh), IH.
    + now rewrite <- app_assoc.
    + now rewrite <- app_assoc.
Qed.

Lemma of_pairs_wf (l : list (K * V)) : wf l -> of_pairs l = l.
Proof. intros Hwf. unfold of_pairs. now rewrite fold_set_app. Qed.

Lemma fold_set_inv (P : list (K * V) -> Prop) (l acc : list (K * V)) :
  (forall d k v, In (k, v) l -> P d -> P (set d k v)) ->
  P acc ->
  P (fold_left (fun d kv => set d (fst kv) (snd kv)) l acc).
Proof.
  revert acc. induction l as [|[k v] l IH]; intros acc Hstep Hacc.
  - exact Hacc.
  - cbn [fold_left fst snd]. apply IH.
    + intros d k' v' Hin. apply Hstep. now right.
    + apply Hstep; [now left|exact Hacc].
Qed.

Lemma wf_of_pairs (l : list (K * V)) : wf (of_pairs l).
Proof.
  unfold of_pairs. apply fold_set_inv.
  - intros d k v _. apply wf_set.
  - apply NoDup_nil_2.
Qed.

End DictFacts.

(** ** The position file *)

Import ButtonPressAutomation.

Lemma values_set {K V} `{EqDecision K} (Q : V -> Prop)
  (d : list (K * V)) (k : K) (v : V) :
  Forall Q (map snd d) -> Q v -> Forall Q (map snd (set d k v)).
Proof.
  intros Hd Hv. induction d as [|[k' v'] d IH]; cbn [set map snd].
  - now constructor.
  - inversion Hd as [|? ? Hv' Hd']; subst.
    destruct (decide (k' = k)); cbn [map snd]; constructor; auto.
Qed.

Lemma values_of_pairs {K V} `{EqDecision K} (Q : V -> Prop)
  (l : list (K * V)) :
  Forall Q (map snd l) -> Forall Q (map snd (of_pairs l)).
Proof.
  intros Hl. unfold of_pairs. apply fold_set_inv; [|constructor].
  intros d k v Hin Hd. apply values_set; [exact Hd|].
  rewrite Forall_forall in Hl. apply Hl.
  apply list_elem_of_In, in_map_iff. now exists (k, v).
Qed.

#[local] Instance KStr_inj : Inj (=) (=) KStr.
Proof. intros a b Hab. now inversion Hab. Qed.

Lemma stringified_keys (angles : angle_map) :
  keys (stringified angles) = map (fun k => KStr (json_key k)) (keys angles).
Proof.
  unfold stringified, keys. rewrite !map_map. apply map_ext.
  now intros [k v].
Qed.

Lemma stringified_str_keyed (angles : angle_map) :
  forallb is_str (keys angles) = true -> stringified angles = angles.
Proof.
  induction angles as [|[k v] angles IH]; cbn; [reflexivity|].
  intros Hs. apply andb_prop in Hs. destruct Hs as [Hk Hs].
  destruct k as [n|s]; [discriminate|]. cbn. f_equal. now apply IH.
Qed.

Lemma str_keyed_distinct (angles : angle_map) :
  str_keyed angles -> distinct_names angles.
Proof.
  intros [Hwf Hs]. unfold distinct_names, wf in *.
  rewrite <- (stringified_str_keyed _ Hs), stringified_keys in Hwf.
  rewrite <- (map_map json_key KStr) in Hwf.
  revert Hwf. apply NoDup_fmap_1.
Qed.

Lemma load_members (angles : angle_map) :
  distinct_names angles ->
  of_pairs (map (fun '(k, v) => (KStr k, v))
              (map (fun '(k, v) => (json_key k, v)) angles))
  = stringified angles.
Proof.
  intros Hd. rewrite map_map.
  replace (map _ angles) with (stringified angles)
    by (unfold stringified; apply map_ext; now intros [k v]).
  apply of_pairs_wf. unfold wf. rewrite stringified_keys.
  rewrite <- (map_map json_key KStr).
  apply (NoDup_fmap_2 KStr). exact Hd.
Qed.

Lemma load_members_str_keyed (members : list (string * num)) :
  str_keyed (of_pairs (map (fun '(k, v) => (KStr k, v)) members)).
Proof.
  split; [apply wf_of_pairs|].
  unfold of_pairs. apply fold_set_inv; [|reflexivity].
  intros d k v Hin Hd. rewrite keys_set. destruct (mem d k); [exact Hd|].
  rewrite forallb_app, Hd. apply in_map_iff in Hin.
  destruct Hin as [[s x] [Heq _]]. inversion Heq; subst. reflexivity.
Qed.

(** What comes back from the file in general: the same store with every
    servo id turned into its member name. *)
Lemma json_load_dump (positions : dict string angle_map) :
  wf positions ->
  Forall distinct_names (map snd positions) ->
  json_load (json_dump positions)
  = map (fun '(name, angles) => (name, stringified angles)) positions.
Proof.
  intros Hwf Hd. unfold json_load, json_dump. rewrite map_map.
  assert (Heq : map (fun x => let '(name, members) :=
                         let '(name, angles) := x in
                         (name, map (fun '(k, v) => (json_key k, v)) angles) in
                       (name, of_pairs (map (fun '(k, v) => (KStr k, v)) members)))
                  positions
                = map (fun '(name, angles) => (name, stringified angles))
                    positions).
  { clear Hwf. induction positions as [|[name angles] positions IH];
      [reflexivity|].
    cbn [map snd] in *. inversion Hd; subst.
    rewrite load_members by assumption. f_equal. now apply IH. }
  rewrite Heq. apply of_pairs_wf.
  unfold wf, keys in *. rewrite map_map.
  erewrite map_ext; [exact Hwf|]. now intros [name angles].
Qed.

Lemma json_load_dump_str_keyed (positions : dict string angle_map) :
  wf positions ->
  Forall str_keyed (map snd positions) ->
  json_load (json_dump positions) = positions.
Proof.
  intros Hwf Hs. rewrite json_load_dump; [|exact Hwf|].
  - clear Hwf. induction positions as [|[name angles] positions IH];
      [reflexivity|].
    cbn [map snd] in *. inversion Hs as [|? ? [_ Hk] Hs']; subst.
    rewrite (stringified_str_keyed _ Hk). f_equal. now apply IH.
  - eapply Forall_impl; [exact Hs|]. apply str_keyed_distinct.
Qed.

Lemma json_load_str_keyed (doc : json_store) :
  wf (json_load doc) /\ Forall str_keyed (map snd (json_load doc)).
Proof.
  split; [apply wf_of_pairs|].
  unfold json_load. apply values_of_pairs.
  rewrite map_map. apply Forall_forall. intros angles Hin.
  apply list_elem_of_In, in_map_iff in Hin.
  destruct Hin as [[name members] [<- _]]. apply load_members_str_keyed.
Qed.

(** C7, as the code has it. A store whose servo ids are all strings comes
    back from save-then-load identical; and whatever the file holds, loading
    it, saving the result and loading again gives the same mapping as the
    first load. *)
Theorem store_round_trip (w : World) :
  wf (saved_positions w) ->
  Forall str_keyed (map snd (saved_positions w)) ->
  load_positions (snd (save_positions w)) = saved_positions w
  /\ forall doc : json_store,
       json_load (json_dump (json_load doc)) = json_load doc.
Proof.
  intros Hwf Hs. split.
  - cbn. now apply json_load_dump_str_keyed.
  - intros doc. destruct (json_load_str_keyed doc) as [Hw Hk].
    now apply json_load_dump_str_keyed.
Qed.

Lemma store_round_trip_witness :
  let w := init true (Some [("a"%string, [("1"%string, NInt 80);
                                          ("5"%string, NInt 90)])]) in
  load_positions (snd (save_positions w)) = saved_positions w
  /\ forall doc : json_store,
       json_load (json_dump (json_load doc)) = json_load doc.
Proof.
  intros w. apply (store_round_trip w).
  - apply (bool_decide_unpack _). vm_compute. reflexivity.
  - repeat constructor; apply (bool_decide_unpack _); vm_compute; reflexivity.
Defined.

(** C7, as the spec words it, fails for integer servo ids: the position
    [{1: 80}] kept in memory is read back as [{"1": 80}]. *)
Lemma int_keys_do_not_round_trip :
  let w := {| device_open := true;
              home_position := default_home;
              saved_positions := [("a"%string, [(KInt 1, NInt 80)])];
              positions_file := None;
              trace := [] |} in
  wf (saved_positions w)
  /\ load_positions (snd (save_positions w))
     = [("a"%string, [(KStr "1", NInt 80)])]
  /\ load_positions (snd (save_positions w)) <> saved_positions w.
Proof.
  cbv zeta. split; [|split].
  - apply (bool_decide_unpack _). vm_compute. reflexivity.
  - vm_compute. reflexivity.
  - vm_compute. discriminate.
Qed.

(** ** Running the methods *)

Lemma bind_run {A B} (m : M A) (k : A -> M B) (w w' : World) (a : A) :
  m w = (Return a, w') -> bind m k w = k a w'.
Proof. intros Hm. unfold bind. now rewrite Hm. Qed.

Lemma bind_raise {A B} (m : M A) (k : A -> M B) (w w' : World) (e : exn) :
  m w = (Raise e, w') -> bind m k w = (Raise e, w').
Proof. intros Hm. unfold bind. now rewrite Hm. Qed.

Lemma sleep_run (seconds : float) (w : World) :
  can_sleep seconds = true ->
  sleep seconds w = (Return tt, logged w [Sleep seconds]).
Proof.
  unfold can_sleep, sleep. intros Hs.
  destruct seconds as [s|s| |s m e]; [| |discriminate|];
    apply andb_prop in Hs; destruct Hs as [Hfit Hneg];
    apply negb_true_iff in Hneg; rewrite Hfit, Hneg; reflexivity.
Qed.

Lemma send_packet_run (packet : list Z) (w : World) :
  send_packet packet w
  = (Return (write_ok (device_open w) packet),
     logged w (sent (device_open w) packet)).
Proof.
  unfold send_packet, device_write, sent, write_ok. run_monad.
  destruct (device_open w && forallb is_byte (hid_report packet)).
  - rewrite sleep_settle, logged_logged. reflexivity.
  - now rewrite logged_nil.
Qed.

Lemma move_to_angles_run (angles : angle_map) (time_ms : Z) (w : World) :
  move_to_angles angles time_ms w
  = match servos_data_of angles time_ms with
    | Return servos_data =>
        (Return (write_ok (device_open w) (build_servo_packet servos_data)),
         logged w (sent (device_open w) (build_servo_packet servos_data)))
    | Raise e => (Raise e, w)
    end.
Proof.
  unfold move_to_angles. run_monad.
  destruct (servos_data_of angles time_ms); [apply send_packet_run|reflexivity].
Qed.

Lemma calls_app (a b : list event) : calls (a ++ b) = calls a ++ calls b.
Proof. unfold calls. apply filter_app. Qed.

Lemma calls_sent (opened : bool) (packet : list Z) :
  calls (sent opened packet) = [].
Proof. unfold sent. now destruct (write_ok opened packet). Qed.

(** Closes a goal [m w = (r, logged w (c :: ?evs)) /\ calls ?evs = []]
    once [m w] has been run. *)
Ltac quiet_trace :=
  rewrite ?logged_logged; split; [reflexivity|];
  cbn [device_open logged]; rewrite ?calls_app, ?calls_sent; reflexivity.

Lemma sleep_cases (seconds : float) (w : World) :
  sleep seconds w = (Return tt, logged w [Sleep seconds])
  \/ exists e, sleep seconds w = (Raise e, w).
Proof.
  destruct (can_sleep seconds) eqn:Hs.
  - left. now apply sleep_run.
  - right. unfold can_sleep in Hs. unfold sleep.
    destruct seconds as [s|s| |s m e]; [| |eexists; reflexivity|];
      (match type of Hs with (fits_clock ?x && _) = false =>
         destruct (fits_clock x); cbn [negb andb] in *;
         [apply negb_false_iff in Hs; rewrite Hs|]
       end; eexists; reflexivity).
Qed.

Lemma sleep_f1_5 (w : World) :
  sleep Float64.f1_5 w = (Return tt, logged w [Sleep Float64.f1_5]).
Proof. reflexivity. Qed.

Lemma sleep_1 (w : World) :
  sleep (Float64.of_Z 1) w = (Return tt, logged w [Sleep (Float64.of_Z 1)]).
Proof. reflexivity. Qed.

Lemma go_home_run (time_ms : Z) (w : World) :
  go_home time_ms w
  = match servos_data_of (home_position w) time_ms with
    | Return servos_data =>
        (Return (write_ok (device_open w) (build_servo_packet servos_data)),
         logged w (Call_go_home time_ms
                   :: sent (device_open w) (build_servo_packet servos_data)))
    | Raise e => (Raise e, logged w [Call_go_home time_ms])
    end.
Proof.
  unfold go_home. run_monad. rewrite move_to_angles_run.
  cbn [home_position device_open logged].
  destruct (servos_data_of (home_position w) time_ms); [|reflexivity].
  now rewrite logged_logged.
Qed.

Lemma press_button_missing name depth t rh (w : World) :
  lookup_position w name = None ->
  press_button name depth t rh w
  = (Return false, logged w [Call_press_button name depth t rh]).
Proof.
  intros Hl. unfold press_button. run_monad.
  change (lookup_position (logged w _) name) with (lookup_position w name).
  now rewrite Hl.
Qed.

(** A press on a position without the key ['5'] stops with [TypeError]
    after the hover move and its settle time. *)
Lemma press_button_no_key name depth t rh (w : World) position sd1 :
  lookup_position w name = Some position ->
  servos_data_of position 1000 = Return sd1 ->
  get position servo_to_press = None ->
  press_button name depth t rh w
  = (Raise TypeError,
     logged w (Call_press_button name depth t rh
               :: sent (device_open w) (build_servo_packet sd1)
               ++ [Sleep Float64.f1_5])).
Proof.
  intros Hl Hsd Hg. unfold press_button. run_monad.
  change (lookup_position (logged w _) name) with (lookup_position w name).
  rewrite Hl. run_monad. rewrite move_to_angles_run, Hsd, sleep_f1_5.
  unfold press_position_of, current_angle_of. rewrite Hg. cbn [obind].
  rewrite !logged_logged. reflexivity.
Qed.

(** A press without return-home whose conversions go through. *)
Lemma press_button_run name depth t (w : World) position sd1 pp sd2 s :
  lookup_position w name = Some position ->
  servos_data_of position 1000 = Return sd1 ->
  press_position_of position depth = Return pp ->
  servos_data_of pp t = Return sd2 ->
  ms_to_seconds t = Return s ->
  can_sleep (Float64.add s Float64.f0_5) = true ->
  press_button name depth t false w
  = (Return true,
     logged w (Call_press_button name depth t false
               :: sent (device_open w) (build_servo_packet sd1)
               ++ [Sleep Float64.f1_5]
               ++ sent (device_open w) (build_servo_packet sd2)
               ++ [Sleep (Float64.add s Float64.f0_5)])).
Proof.
  intros Hl Hsd1 Hpp Hsd2 Hs Hsleep. unfold press_button. run_monad.
  change (lookup_position (logged w _) name) with (lookup_position w name).
  rewrite Hl. run_monad. rewrite move_to_angles_run, Hsd1, sleep_f1_5, Hpp.
  rewrite move_to_angles_run, Hsd2, Hs. cbn [obind].
  rewrite (sleep_run _ _ Hsleep), !logged_logged.
  reflexivity.
Qed.

(** Whatever happens in a press without return-home, it enters
    [press_button] once and no other method. *)
Lemma press_button_calls name depth t (w : World) :
  exists r evs,
    press_button name depth t false w
    = (r, logged w (Call_press_button name depth t false :: evs))
    /\ calls evs = [].
Proof.
  destruct (lookup_position w name) as [position|] eqn:Hl;
    [|eexists _, []; split; [now apply press_button_missing|reflexivity]].
  unfold press_button. run_monad.
  change (lookup_position (logged w _) name) with (lookup_position w name).
  rewrite Hl. run_monad. rewrite move_to_angles_run.
  destruct (servos_data_of position 1000) as [sd1|e];
    [|eexists _, []; split; reflexivity].
  rewrite sleep_f1_5.
  destruct (press_position_of position depth) as [pp|e];
    [|eexists _, _; quiet_trace].
  rewrite move_to_angles_run.
  destruct (servos_data_of pp t) as [sd2|e]; [|eexists _, _; quiet_trace].
  destruct (obind (ms_to_seconds t) _) as [secs|e];
    [|eexists _, _; quiet_trace].
  match goal with |- context [sleep secs ?w0] =>
    destruct (sleep_cases secs w0) as [Hs|[e Hs]]; rewrite Hs end;
    eexists _, _; quiet_trace.
Qed.

(** ** press_button: the press angle map *)

Lemma press_position_of_eq (position : angle_map) (v depth : num)
  (a d : float) :
  get position servo_to_press = Some v ->
  py_float v = Return a ->
  py_float depth = Return d ->
  press_position_of position depth
  = Return (set position servo_to_press (NFloat (Float64.sub a d))).
Proof.
  intros Hg Ha Hd. unfold press_position_of, current_angle_of, minus_depth.
  rewrite Hg, Ha. cbn [obind]. rewrite Hd. reflexivity.
Qed.

(** C4, as the code has it. The press angle map is the hover angle map with
    the angle under the key ['5'] replaced by [float(angle) - depth]; all
    other entries and the order of the keys are kept. There is no clamp:
    the difference is used as it is, also when it is negative, and the
    press goes on to its second move and returns [True]. *)
Theorem press_angle_map (w : World) (name : string) (position : angle_map)
  (v depth : num) (a d : float) (t : Z) :
  lookup_position w (Some name) = Some position ->
  get position servo_to_press = Some v ->
  py_float v = Return a ->
  py_float depth = Return d ->
  let pressed := set position servo_to_press (NFloat (Float64.sub a d)) in
  press_position_of position depth = Return pressed
  /\ keys pressed = keys position
  /\ get pressed servo_to_press = Some (NFloat (Float64.sub a d))
  /\ (forall k, k <> servo_to_press -> get pressed k = get position k)
  /\ forall sd1 sd2 s,
       servos_data_of position 1000 = Return sd1 ->
       servos_data_of pressed t = Return sd2 ->
       ms_to_seconds t = Return s ->
       can_sleep (Float64.add s Float64.f0_5) = true ->
       press_button (Some name) depth t false w
       = (Return true,
          logged w (Call_press_button (Some name) depth t false
                    :: sent (device_open w) (build_servo_packet sd1)
                    ++ [Sleep Float64.f1_5]
                    ++ sent (device_open w) (build_servo_packet sd2)
                    ++ [Sleep (Float64.add s Float64.f0_5)])).
Proof.
  intros Hl Hg Ha Hd pressed.
  pose proof (press_position_of_eq _ _ _ _ _ Hg Ha Hd) as Hpp.
  split; [exact Hpp|]. split.
  { apply keys_set_present. eapply get_Some_In, Hg. }
  split; [apply get_set_eq|]. split.
  { intros k Hk. apply get_set_ne. congruence. }
  intros sd1 sd2 s Hsd1 Hsd2 Hs Hsleep.
  now apply (press_button_run _ _ _ _ position sd1 pressed sd2 s).
Qed.

Lemma press_angle_map_witness :
  let position := [(KStr "1", NInt 80); (KStr "5", NInt 5)] in
  let w := init true (Some [("a"%string, [("1"%string, NInt 80);
                                          ("5"%string, NInt 5)])]) in
  let pressed :=
    set position servo_to_press
      (NFloat (Float64.sub (Float64.of_Z 5) (Float64.of_Z 10))) in
  let sd1 := [(1, 1388, 1000); (5, 555, 1000)] in
  let sd2 := [(1, 1388, 500); (5, 445, 500)] in
  press_position_of position (NInt 10) = Return pressed
  /\ keys pressed = keys position
  /\ get pressed servo_to_press
     = Some (NFloat (Float64.sub (Float64.of_Z 5) (Float64.of_Z 10)))
  /\ get pressed (KStr "1") = get position (KStr "1")
  /\ press_button (Some "a"%string) (NInt 10) 500 false w
     = (Return true,
        logged w (Call_press_button (Some "a"%string) (NInt 10) 500 false
                  :: sent (device_open w) (build_servo_packet sd1)
                  ++ [Sleep Float64.f1_5]
                  ++ sent (device_open w) (build_servo_packet sd2)
                  ++ [Sleep (Float64.add Float64.f0_5 Float64.f0_5)])).
Proof.
  intros position w pressed sd1 sd2.
  destruct (press_angle_map w "a" position (NInt 5) (NInt 10)
              (Float64.of_Z 5) (Float64.of_Z 10) 500)
    as (Hpp & Hkeys & Hget & Hother & Hrun); try reflexivity.
  split; [exact Hpp|]. split; [exact Hkeys|]. split; [exact Hget|].
  split; [apply Hother; discriminate|].
  apply (Hrun sd1 sd2 Float64.f0_5); reflexivity.
Defined.

(** C4, as the spec words it, fails: pressing 10 degrees down from a stored
    angle of 5 degrees moves servo 5 to -5.0 degrees, raw position 445
    (bytes BD 01), where a clamp at 0 would give raw position 500. *)
Lemma press_is_not_clamped :
  let position := [(KStr "5", NInt 5)] in
  let w := init true (Some [("a"%string, [("5"%string, NInt 5)])]) in
  press_position_of position (NInt 10)
    = Return [(KStr "5", NFloat (Float64.of_Z (-5)))]
  /\ press_position_of position (NInt 10)
     <> Return [(KStr "5", NFloat (Float64.of_Z 0))]
  /\ servos_data_of [(KStr "5", NFloat (Float64.of_Z (-5)))] 500
     = Return [(5, 445, 500)]
  /\ press_button (Some "a"%string) (NInt 10) 500 false w
     = (Return true,
        logged w [Call_press_button (Some "a"%string) (NInt 10) 500 false;
                  HidWrite (hid_report (build_servo_packet [(5, 555, 1000)]));
                  Sleep Float64.f0_05;
                  Sleep Float64.f1_5;
                  HidWrite (hid_report (build_servo_packet [(5, 445, 500)]));
                  Sleep Float64.f0_05;
                  Sleep (Float64.of_Z 1)]).
Proof.
  cbv zeta. repeat split; try (vm_compute; reflexivity).
  vm_compute. discriminate.
Qed.

(** ** run_sequence: the defaults of a step *)

(** What the two branches of the loop do. A bare position name is pressed
    with the defaults of [press_button]: depth 6 degrees and hold time
    500 ms. A record is pressed with its own depth and hold time, 10 degrees
    and 500 ms standing in for a missing entry. Either way return-home is
    off. *)
Theorem run_step_defaults (w : World) :
  (forall name : string,
      exists r evs,
        run_step (StepStr name) w
        = (r, logged w (Call_press_button (Some name) (NInt 6) 500 false
                        :: evs))
        /\ calls evs = [])
  /\ (forall button depth time,
         exists r evs,
           run_step (StepDict button depth time) w
           = (r, logged w (Call_press_button button
                             (match depth with Some d => d | None => NInt 10 end)
                             (match time with Some t => t | None => 500 end)
                             false
                           :: evs))
           /\ calls evs = []).
Proof.
  split.
  - intros name. unfold run_step.
    destruct (press_button_calls (Some name) default_press_depth
                default_press_time w) as (r & evs & Hrun & Hcalls).
    unfold bind. rewrite Hrun.
    destruct r; eexists _, evs; (split; [reflexivity|exact Hcalls]).
  - intros button depth time. unfold run_step.
    destruct (press_button_calls button (default (NInt 10) depth)
                (default 500 time) w) as (r & evs & Hrun & Hcalls).
    unfold bind. rewrite Hrun.
    destruct depth, time, r; eexists _, evs;
      (split; [reflexivity|exact Hcalls]).
Qed.

(** C6. The code at the failing input, the saved position [a] with servo 5
    at 90 degrees. Pressed as the bare name [a], it is pressed by 6 degrees,
    the default in the signature of [press_button], and the press move goes
    to 84.0 degrees. Pressed as a record without a depth, in the sibling
    branch of the same loop, it is pressed by 10 degrees, to 80.0 degrees,
    as the claim says of both. *)
Lemma bare_step_depth_is_6 :
  let w := init true (Some [("a"%string, [("5"%string, NInt 90)])]) in
  calls (trace (snd (run_sequence [StepStr "a"] 1 500 false w)))
    = [Call_press_button (Some "a"%string) (NInt 6) 500 false]
  /\ calls (trace (snd (run_sequence [StepDict (Some "a"%string) None None]
                          1 500 false w)))
     = [Call_press_button (Some "a"%string) (NInt 10) 500 false]
  /\ Call_press_button (Some "a"%string) (NInt 6) 500 false
     <> Call_press_button (Some "a"%string) (NInt 10) 500 false
  /\ press_position_of [(KStr "5", NInt 90)] default_press_depth
     = Return [(KStr "5", NFloat (Float64.of_Z 84))]
  /\ press_position_of [(KStr "5", NInt 90)] (NInt 10)
     = Return [(KStr "5", NFloat (Float64.of_Z 80))].
Proof.
  cbv zeta. repeat split; try (vm_compute; reflexivity).
  discriminate.
Qed.

(** ** run_sequence: order of the presses *)












(** ** teach_position *)

Lemma get_value {K V} `{EqDecision K} (Q : V -> Prop)
  (d : list (K * V)) (k : K) (v : V) :
  Forall Q (map snd d) -> get d k = Some v -> Q v.
Proof.
  induction d as [|[k' v'] d IH]; cbn [get map snd]; intros Hall Hg.
  - discriminate.
  - inversion Hall; subst.
    destruct (decide (k' = k)); [now inversion Hg; subst|auto].
Qed.

Lemma getitem_Return {K V} `{EqDecision K}
  (d : list (K * V)) (k : K) (v : V) :
  getitem d k = Return v -> get d k = Some v.
Proof.
  unfold getitem. destruct (get d k); intros Hg; now inversion Hg.
Qed.

(** One accepted input line keeps the keys of the angle map, and keeps its
    angles on the grid. *)
Lemma teach_command_keeps (command : string) (st st' : teach_state)
  (moved : bool) :
  teach_command command st = Return (Continue st' moved) ->
  keys (current_angles st') = keys (current_angles st)
  /\ (grid_angles (current_angles st) -> grid_angles (current_angles st')).
Proof.
  unfold teach_command. intros Hcmd.
  destruct (decide (command = "q")); [discriminate|].
  destruct (decide (command = "s")); [discriminate|].
  destruct (contains command "123456").
  { destruct (int_of_str command); inversion Hcmd; subst. cbn. tauto. }
  destruct (decide (command = "+")).
  { destruct (getitem (current_angles st) (KInt (selected_servo st)))
      as [a|] eqn:Hg; [|discriminate].
    apply getitem_Return in Hg. cbn [obind] in Hcmd.
    destruct (num_ltb a 180) eqn:Hlt; inversion Hcmd; subst;
      cbn [current_angles]; [|tauto].
    split; [apply keys_set_present; eapply get_Some_In, Hg|].
    intros Hgrid. apply values_set; [exact Hgrid|].
    pose proof (get_value _ _ _ _ Hgrid Hg) as Ha.
    destruct a as [z|f]; [|contradiction]. cbn in *.
    apply Z.ltb_lt in Hlt. Z.div_mod_to_equations. lia. }
  destruct (decide (command = "-")).
  { destruct (getitem (current_angles st) (KInt (selected_servo st)))
      as [a|] eqn:Hg; [|discriminate].
    apply getitem_Return in Hg. cbn [obind] in Hcmd.
    destruct (num_gtb a 0) eqn:Hgt; inversion Hcmd; subst;
      cbn [current_angles]; [|tauto].
    split; [apply keys_set_present; eapply get_Some_In, Hg|].
    intros Hgrid. apply values_set; [exact Hgrid|].
    pose proof (get_value _ _ _ _ Hgrid Hg) as Ha.
    destruct a as [z|f]; [|contradiction]. cbn in *.
    apply Z.ltb_lt in Hgt. Z.div_mod_to_equations. lia. }
  inversion Hcmd; subst. tauto.
Qed.







Lemma default_home_on_grid : grid_angles default_home.
Proof. repeat constructor; lia. Qed.



(** ** press_button needs the key ['5'] *)

Lemma int_keyed_no_str (position : angle_map) (s : string) :
  forallb is_int (keys position) = true -> get position (KStr s) = None.
Proof.
  induction position as [|[k v] position IH]; cbn; [reflexivity|].
  intros Hk. apply andb_prop in Hk. destruct Hk as [Hk Hrest].
  destruct k as [n|s']; [|discriminate].
  rewrite decide_False by discriminate. now apply IH.
Qed.

Lemma grid_encodable (angles : angle_map) (time_ms : Z) :
  grid_angles angles ->
  forallb is_int (keys angles) = true ->
  exists servos_data, servos_data_of angles time_ms = Return servos_data.
Proof.
  unfold grid_angles.
  induction angles as [|[k v] angles IH]; cbn [map snd keys fst forallb];
    intros Hgrid Hk.
  - now exists [].
  - inversion Hgrid as [|? ? Hv Hrest]; subst.
    apply andb_prop in Hk. destruct Hk as [Hk Hks].
    destruct k as [id|s]; [|discriminate].
    destruct v as [a|f]; [|contradiction]. destruct Hv as [Ha _].
    destruct (IH Hrest Hks) as [sd Hsd].
    cbn [servos_data_of py_int py_float obind].
    rewrite (of_int_small a Ha). cbn [obind].
    rewrite (truncates_at_spec a Ha). cbn [obind]. rewrite Hsd.
    eexists. reflexivity.
Qed.

Lemma bind_Return_inv {A B} (m : M A) (k : A -> M B) (w w' : World) (b : B) :
  bind m k w = (Return b, w') ->
  exists a w1, m w = (Return a, w1) /\ k a w1 = (Return b, w').
Proof.
  unfold bind. destruct (m w) as [[a|e] w1]; intros Hk.
  - now exists a, w1.
  - discriminate.
Qed.

Lemma move_to_angles_keeps (angles : angle_map) (time_ms : Z)
  (w w1 : World) (b : bool) :
  move_to_angles angles time_ms w = (Return b, w1) ->
  saved_positions w1 = saved_positions w
  /\ home_position w1 = home_position w
  /\ device_open w1 = device_open w.
Proof.
  rewrite move_to_angles_run.
  destruct (servos_data_of angles time_ms); intros Hrun; inversion Hrun.
  repeat split.
Qed.

(** A teaching loop that ends with a commit has stored, under [name], an
    angle map with the keys it started from, on the grid if it started
    there. *)
Lemma teach_loop_commit (name : string) (inputs : list string) :
  forall (st : teach_state) (w w' : World),
    teach_loop name inputs st w = (Return true, w') ->
    exists angles,
      get (saved_positions w') name = Some angles
      /\ keys angles = keys (current_angles st)
      /\ (grid_angles (current_angles st) -> grid_angles angles)
      /\ home_position w' = home_position w
      /\ device_open w' = device_open w.
Proof.
  induction inputs as [|line rest IH]; intros st w w' Hrun;
    cbn [teach_loop] in Hrun;
    apply bind_Return_inv in Hrun; destruct Hrun as (v & w1 & Hprompt & Hrun);
    unfold lift in Hprompt; inversion Hprompt; subst w1; clear Hprompt.
  - discriminate.
  - apply bind_Return_inv in Hrun. destruct Hrun as (next & w1 & Hcmd & Hrun).
    unfold lift in Hcmd. inversion Hcmd as [[Hnext Hw]]; subst w1.
    destruct next as [| |st' moved].
    + discriminate.
    + unfold store_position, save_positions in Hrun. run_monad.
      inversion Hrun; subst w'. cbn [saved_positions home_position device_open].
      exists (current_angles st). rewrite get_set_eq. repeat split; auto.
    + apply bind_Return_inv in Hrun. destruct Hrun as (u & w1 & Hmove & Hrun).
      destruct (teach_command_keeps _ _ _ _ Hnext) as [Hk Hg].
      assert (Hkeep : saved_positions w1 = saved_positions w
                      /\ home_position w1 = home_position w
                      /\ device_open w1 = device_open w).
      { destruct moved.
        - apply bind_Return_inv in Hmove.
          destruct Hmove as (b & w2 & Hmove & Hret).
          inversion Hret; subst w2. eapply move_to_angles_keeps, Hmove.
        - inversion Hmove. repeat split. }
      destruct (IH st' w1 w' Hrun) as (angles & Hget & Hkeys & Hgrid & Hh & Hd).
      exists angles. destruct Hkeep as (_ & Hh1 & Hd1).
      split; [exact Hget|]. split; [congruence|].
      split; [auto|]. split; congruence.
Qed.

Lemma teach_position_commit (name : string) (inputs : list string)
  (w w' : World) :
  teach_position name inputs w = (Return true, w') ->
  exists angles,
    get (saved_positions w') name = Some angles
    /\ keys angles = keys (home_position w)
    /\ (grid_angles (home_position w) -> grid_angles angles)
    /\ device_open w' = device_open w.
Proof.
  unfold teach_position. run_monad. intros Hrun.
  destruct (move_to_angles (current_angles (teach_start w)) 1000 w)
    as [[b|e] w1] eqn:Hmove; [|discriminate].
  destruct (move_to_angles_keeps _ _ _ _ _ Hmove) as (_ & Hh1 & Hd1).
  destruct (teach_loop_commit _ _ _ _ _ Hrun)
    as (angles & Hget & Hkeys & Hgrid & Hh & Hd).
  exists angles. cbn [teach_start current_angles] in *.
  split; [exact Hget|]. split; [exact Hkeys|]. split; [exact Hgrid|].
  congruence.
Qed.

Lemma press_button_hover_raises name depth t rh (w : World) position e :
  lookup_position w name = Some position ->
  servos_data_of position 1000 = Raise e ->
  press_button name depth t rh w
  = (Raise e, logged w [Call_press_button name depth t rh]).
Proof.
  intros Hl Hsd. unfold press_button. run_monad.
  change (lookup_position (logged w _) name) with (lookup_position w name).
  rewrite Hl. run_monad. rewrite move_to_angles_run, Hsd. reflexivity.
Qed.

(** C10. A press on a position whose servo keys are all [int] raises
    [TypeError] ([float(None)]) once the hover move and its settle time are
    over. This is the case of every position [teach_position] has just
    committed from a home position with [int] keys. A press returns [True]
    only on a position that has the [str] key ['5']; the positions read
    from the JSON store have [str] keys only. *)
Theorem press_needs_str_key :
  (forall (w : World) name depth t rh position servos_data,
      lookup_position w name = Some position ->
      forallb is_int (keys position) = true ->
      servos_data_of position 1000 = Return servos_data ->
      press_button name depth t rh w
      = (Raise TypeError,
         logged w (Call_press_button name depth t rh
                   :: sent (device_open w) (build_servo_packet servos_data)
                   ++ [Sleep Float64.f1_5])))
  /\ (forall (w w' : World) (name : string) (inputs : list string),
         grid_angles (home_position w) ->
         forallb is_int (keys (home_position w)) = true ->
         teach_position name inputs w = (Return true, w') ->
         exists position servos_data,
           get (saved_positions w') name = Some position
           /\ forallb is_int (keys position) = true
           /\ servos_data_of position 1000 = Return servos_data
           /\ forall depth t rh,
                press_button (Some name) depth t rh w'
                = (Raise TypeError,
                   logged w' (Call_press_button (Some name) depth t rh
                              :: sent (device_open w')
                                   (build_servo_packet servos_data)
                              ++ [Sleep Float64.f1_5])))
  /\ (forall (w w' : World) name depth t rh,
         press_button name depth t rh w = (Return true, w') ->
         exists position v,
           lookup_position w name = Some position
           /\ get position (KStr "5") = Some v)
  /\ (forall doc : json_store, Forall str_keyed (map snd (json_load doc))).
Proof.
  split; [|split; [|split; [|intros doc; apply json_load_str_keyed]]].
  - intros w name depth t rh position sd Hl Hk Hsd.
    apply (press_button_no_key _ _ _ _ _ position sd Hl Hsd).
    now apply int_keyed_no_str.
  - intros w w' name inputs Hgrid Hk Hteach.
    destruct (teach_position_commit _ _ _ _ Hteach)
      as (position & Hget & Hkeys & Hg & _).
    assert (Hk' : forallb is_int (keys position) = true) by now rewrite Hkeys.
    destruct (grid_encodable position 1000 (Hg Hgrid) Hk') as [sd Hsd].
    exists position, sd. repeat split; auto.
    intros depth t rh.
    apply (press_button_no_key _ _ _ _ _ position sd); auto.
    now apply int_keyed_no_str.
  - intros w w' name depth t rh Hrun.
    destruct (lookup_position w name) as [position|] eqn:Hl.
    2:{ rewrite (press_button_missing _ _ _ _ _ Hl) in Hrun. discriminate. }
    destruct (get position (KStr "5")) as [v|] eqn:Hg; [now exists position, v|].
    destruct (servos_data_of position 1000) as [sd|e] eqn:Hsd.
    + rewrite (press_button_no_key _ _ _ _ _ position sd Hl Hsd Hg) in Hrun.
      discriminate.
    + rewrite (press_button_hover_raises _ _ _ _ _ position e Hl Hsd) in Hrun.
      discriminate.
Qed.

Lemma press_needs_str_key_witness :
  let w1 := {| device_open := true;
               home_position := default_home;
               saved_positions := [("a"%string, [(KInt 5, NInt 90)])];
               positions_file := None;
               trace := [] |} in
  let w2 := init true None in
  let w2' := snd (teach_position "x" ["+"; "s"]%string w2) in
  let w3 := init true (Some [("a"%string, [("5"%string, NInt 90)])]) in
  press_button (Some "a"%string) (NInt 10) 500 true w1
  = (Raise TypeError,
     logged w1 (Call_press_button (Some "a"%string) (NInt 10) 500 true
                :: sent true (build_servo_packet [(5, 1500, 1000)])
                ++ [Sleep Float64.f1_5]))
  /\ (exists position servos_data,
         get (saved_positions w2') "x"%string = Some position
         /\ forallb is_int (keys position) = true
         /\ servos_data_of position 1000 = Return servos_data
         /\ forall depth t rh,
              press_button (Some "x"%string) depth t rh w2'
              = (Raise TypeError,
                 logged w2' (Call_press_button (Some "x"%string) depth t rh
                             :: sent (device_open w2')
                                  (build_servo_packet servos_data)
                             ++ [Sleep Float64.f1_5])))
  /\ (exists position v,
         lookup_position w3 (Some "a"%string) = Some position
         /\ get position (KStr "5") = Some v).
Proof.
  intros w1 w2 w2' w3.
  destruct press_needs_str_key as (Hint & Htaught & Hstr & _).
  split; [|split].
  - apply (Hint w1 (Some "a"%string) (NInt 10) 500 true [(KInt 5, NInt 90)]);
      reflexivity.
  - apply (Htaught w2 w2' "x"%string ["+"; "s"]%string).
    + repeat constructor; lia.
    + reflexivity.
    + vm_compute. reflexivity.
  - apply (Hstr w3 (snd (press_button (Some "a"%string) (NInt 10) 500 true w3))
             (Some "a"%string) (NInt 10) 500 true).
    vm_compute. reflexivity.
Defined.

(** ** The encoder checks no range *)

Lemma unclamped_upto_720 :
  forallb unclamped_at (map (fun n => Z.of_nat n - 720) (seq 0 1441)) = true.
Proof. vm_compute. reflexivity. Qed.

Lemma unclamped_at_spec (a : Z) :
  -720 <= a <= 720 ->
  obind (Float64.of_int a) angle_to_position = Return (unclamped_position a).
Proof.
  intros Ha.
  assert (Hin : In a (map (fun n => Z.of_nat n - 720) (seq 0 1441))).
  { apply in_map_iff. exists (Z.to_nat (a + 720)). split; [lia|].
    apply in_seq. lia. }
  pose proof (proj1 (forallb_forall _ _) unclamped_upto_720 a Hin) as Hchk.
  unfold unclamped_at in Hchk.
  destruct (obind (Float64.of_int a) angle_to_position) as [p|e];
    [|discriminate].
  apply Z.eqb_eq in Hchk. now subst.
Qed.

Lemma servos_data_unclamped (moves : list (Z * Z)) (time_ms : Z) :
  Forall (fun m => -720 <= snd m <= 720) moves ->
  servos_data_of (int_angles moves) time_ms
  = Return (unclamped_moves moves time_ms).
Proof.
  induction moves as [|[servo_id a] moves IH]; intros Hall; [reflexivity|].
  inversion Hall as [|? ? Ha Hrest]; subst. cbn [snd] in Ha.
  cbn [int_angles unclamped_moves map servos_data_of py_int py_float obind].
  pose proof (unclamped_at_spec a Ha) as Hpos.
  destruct (Float64.of_int a) as [f|e]; [|discriminate].
  cbn [obind] in *. rewrite Hpos. cbn [obind].
  fold (int_angles moves). rewrite (IH Hrest). reflexivity.
Qed.

(** C3, as the code has it. The encoder checks neither the servo id nor
    the angle and clamps nothing. For every move list with [int] servo ids
    of any value and whole-degree angles anywhere in -720..720, the servo
    data are these ids with the raw positions [a * 2000 / 180 + 500], cut
    towards zero; [build_servo_packet] frames them, and on an open device
    the report is written whenever its bytes are bytes. *)
Theorem encoder_does_not_validate (moves : list (Z * Z)) (time_ms : Z)
  (w : World) :
  Forall (fun m => -720 <= snd m <= 720) moves ->
  device_open w = true ->
  forallb is_byte
    (take 63 (build_servo_packet (unclamped_moves moves time_ms))) = true ->
  servos_data_of (int_angles moves) time_ms
    = Return (unclamped_moves moves time_ms)
  /\ LeArmController.servos_data_of
       (map (fun '(servo_id, a) => (servo_id, NInt a)) moves) time_ms
     = Return (unclamped_moves moves time_ms)
  /\ move_to_angles (int_angles moves) time_ms w
     = (Return true,
        logged w [HidWrite (hid_report (build_servo_packet
                                          (unclamped_moves moves time_ms)));
                  Sleep Float64.f0_05]).
Proof.
  intros Hall Hopen Hbytes.
  pose proof (servos_data_unclamped moves time_ms Hall) as Hsd.
  split; [exact Hsd|]. split.
  - clear Hbytes Hsd.
    induction moves as [|[servo_id a] moves IH]; [reflexivity|].
    inversion Hall as [|? ? Ha Hrest]; subst. cbn [snd] in Ha.
    cbn [map LeArmController.servos_data_of unclamped_moves].
    unfold LeArmController.position_of. cbn [py_float].
    rewrite (unclamped_at_spec a Ha). cbn [obind].
    rewrite (IH Hrest). reflexivity.
  - unfold move_to_angles. unfold lift at 1.
    erewrite bind_run by (rewrite Hsd; reflexivity).
    rewrite (auto_send_packet_open _ _ Hopen Hbytes).
    now rewrite hid_report_layout.
Qed.

Lemma encoder_does_not_validate_witness :
  let moves := [(7, 200); (0, -5)] in
  let w := init true None in
  servos_data_of (int_angles moves) 1000
    = Return (unclamped_moves moves 1000)
  /\ LeArmController.servos_data_of
       (map (fun '(servo_id, a) => (servo_id, NInt a)) moves) 1000
     = Return (unclamped_moves moves 1000)
  /\ move_to_angles (int_angles moves) 1000 w
     = (Return true,
        logged w [HidWrite (hid_report (build_servo_packet
                                          (unclamped_moves moves 1000)));
                  Sleep Float64.f0_05]).
Proof.
  intros moves w. apply (encoder_does_not_validate moves 1000 w).
  - repeat constructor; cbn; lia.
  - reflexivity.
  - vm_compute. reflexivity.
Defined.

(** C3, as the spec words it, fails: servo id 7 at 200 degrees is encoded
    (raw position 2722, bytes A2 0A) and the frame is written to the
    device; the send returns [True]. *)
Lemma out_of_range_move_is_sent :
  let w := init true None in
  build_servo_packet [(7, 2722, 1000)]
    = [0x55; 0x55; 0x08; 0x03; 0x01; 0xE8; 0x03; 0x07; 0xA2; 0x0A]
  /\ servos_data_of [(KInt 7, NInt 200)] 1000 = Return [(7, 2722, 1000)]
  /\ move_to_angles [(KInt 7, NInt 200)] 1000 w
     = (Return true,
        logged w [HidWrite (hid_report (build_servo_packet [(7, 2722, 1000)]));
                  Sleep Float64.f0_05])
  /\ LeArmController.move_servo 7 (NInt 200) 1000 w
     = (Return true,
        logged w [HidWrite (hid_report (build_servo_packet [(7, 2722, 1000)]));
                  Sleep Float64.f0_05]).
Proof. cbv zeta. repeat split; vm_compute; reflexivity. Qed.

(** * Further properties of the code *)

(** ** The frame as a whole *)

Lemma flat_map_move_bytes_length (servos_data : list move) :
  List.length (flat_map move_bytes servos_data)
  = (3 * List.length servos_data)%nat.
Proof.
  induction servos_data as [|[[i p] t] sd IH]; [reflexivity|].
  cbn [flat_map move_bytes le16 List.length app]. rewrite IH. lia.
Qed.

Lemma build_servo_packet_length (servos_data : list move) :
  List.length (build_servo_packet servos_data)
  = (3 * List.length servos_data + 7)%nat.
Proof.
  rewrite build_servo_packet_eq. cbv zeta.
  rewrite !length_app, flat_map_move_bytes_length. cbn. lia.
Qed.

(** X1. A frame for [N] moves is [3*N + 7] bytes long; its length byte holds
    that length minus the two header bytes, and its count byte holds [N].
    This covers the empty move list. *)
Theorem frame_length (servos_data : list move) :
  List.length (build_servo_packet servos_data)
  = (3 * List.length servos_data + 7)%nat
  /\ build_servo_packet servos_data !! 2%nat
     = Some (Z.of_nat (List.length (build_servo_packet servos_data)) - 2)
  /\ build_servo_packet servos_data !! 4%nat
     = Some (Z.of_nat (List.length servos_data)).
Proof.
  split; [apply build_servo_packet_length|].
  rewrite build_servo_packet_length, build_servo_packet_eq. cbv zeta.
  split; [|reflexivity]. cbn. f_equal. lia.
Qed.

Lemma le16_inj (a b : Z) :
  0 <= a < 65536 -> 0 <= b < 65536 -> le16 a = le16 b -> a = b.
Proof.
  intros Ha Hb Heq. unfold le16 in Heq. inversion Heq as [[H0 H1]].
  rewrite <- (le16_value a Ha), <- (le16_value b Hb). congruence.
Qed.

Lemma move_bytes_inj (t : Z) (sd sd' : list move) :
  uniform_moves t sd -> uniform_moves t sd' ->
  flat_map move_bytes sd = flat_map move_bytes sd' -> sd = sd'.
Proof.
  intros Hu. revert sd'. induction Hu as [|[[i p] t1] sd [Hp Ht] Hu IH];
    intros sd' Hu' Heq.
  - destruct sd' as [|[[i' p'] t'] sd']; [reflexivity|discriminate].
  - destruct Hu' as [|[[i' p'] t1'] sd' [Hp' Ht'] Hu']; [discriminate|].
    cbn [flat_map move_bytes le16 app] in Heq.
    inversion Heq as [[Hi H0 H1 Hrest]].
    assert (p = p').
    { apply le16_inj; try assumption. unfold le16. congruence. }
    subst. f_equal. now apply IH.
Qed.

(** X2. The frame loses nothing: two move lists with 16-bit positions, each
    with one 16-bit duration for all its moves, that are encoded to the same
    frame are the same list. *)
Theorem build_servo_packet_inj (t t' : Z) (sd sd' : list move) :
  0 <= t < 65536 -> 0 <= t' < 65536 ->
  uniform_moves t sd -> uniform_moves t' sd' ->
  build_servo_packet sd = build_servo_packet sd' ->
  sd = sd'.
Proof.
  intros Ht Ht' Hu Hu' Heq. rewrite !build_servo_packet_eq in Heq.
  cbv zeta in Heq. inversion Heq as [[Hn1 Hn H0 H1 Hrest]].
  apply Nat2Z.inj in Hn.
  destruct sd as [|[[i p] t1] sd], sd' as [|[[i' p'] t1'] sd'];
    try discriminate; [reflexivity|].
  assert (t1 = t) by (inversion Hu as [|? ? Hhd _]; now destruct Hhd).
  assert (t1' = t') by (inversion Hu' as [|? ? Hhd _]; now destruct Hhd).
  subst t1 t1'.
  assert (t = t').
  { apply le16_inj; try assumption. unfold le16. congruence. }
  subst t'. now apply (move_bytes_inj t).
Qed.

Lemma build_servo_packet_inj_witness :
  [(1, 1500, 1000); (5, 1433, 1000)] = [(1, 1500, 1000); (5, 1433, 1000)].
Proof.
  apply (build_servo_packet_inj 1000 1000); try lia; try reflexivity;
    repeat constructor; lia.
Defined.

Lemma report_holds_packet (packet : list Z) :
  (List.length packet <= 63)%nat ->
  take (List.length packet) (drop 1 (hid_report packet)) = packet
  /\ drop (1 + List.length packet) (hid_report packet)
     = replicate (63 - List.length packet) 0.
Proof.
  intros Hlen. rewrite hid_report_layout. unfold report_layout.
  rewrite (take_ge packet 63) by lia.
  change (drop 1 (0 :: packet ++ replicate (63 - List.length packet) 0))
    with (packet ++ replicate (63 - List.length packet) 0).
  change (drop (1 + List.length packet)
            (0 :: packet ++ replicate (63 - List.length packet) 0))
    with (drop (List.length packet)
            (packet ++ replicate (63 - List.length packet) 0)).
  rewrite take_app_length, drop_app_length. split; reflexivity.
Qed.

(** X3. A frame fits one report exactly when it moves at most 18 servos;
    the report then holds the whole frame after the report id, followed by
    zeros only. *)
Theorem report_holds_frame (servos_data : list move) :
  let frame := build_servo_packet servos_data in
  ((List.length frame <= 63)%nat <-> (List.length servos_data <= 18)%nat)
  /\ ((List.length servos_data <= 18)%nat ->
      take (List.length frame) (drop 1 (hid_report frame)) = frame
      /\ drop (1 + List.length frame) (hid_report frame)
         = replicate (63 - List.length frame) 0).
Proof.
  cbv zeta. pose proof (build_servo_packet_length servos_data) as Hlen.
  split; [rewrite Hlen; lia|].
  intros Hn. apply report_holds_packet. rewrite Hlen. lia.
Qed.

(** ** Sending *)

(** X4. [send_packet] never raises, in either class: it returns [True]
    after a write that went through and [False] otherwise. With the device
    closed, or with an element among the first 63 of the packet that is not
    a byte, it returns [False] and nothing is written. *)
Theorem send_packet_never_raises (packet : list Z) (w : World) :
  (exists b, send_packet packet w
             = (Return b, logged w (sent (device_open w) packet))
             /\ b = write_ok (device_open w) packet
             /\ LeArmController.send_packet packet w
                = (Return b, logged w (sent (device_open w) packet)))
  /\ (device_open w = false -> send_packet packet w = (Return false, w))
  /\ (forallb is_byte (take 63 packet) = false ->
      send_packet packet w = (Return false, w)).
Proof.
  pose proof (send_packet_run packet w) as Hrun. split; [|split].
  - eexists. split; [exact Hrun|]. split; [reflexivity|exact Hrun].
  - intros Hclosed. rewrite Hrun. unfold sent, write_ok. rewrite Hclosed.
    cbn [andb]. now rewrite logged_nil.
  - intros Hbad. rewrite Hrun. unfold sent, write_ok.
    rewrite hid_report_layout. unfold report_layout. cbn [forallb].
    rewrite forallb_app, Hbad. cbn [andb]. rewrite andb_false_r.
    now rewrite logged_nil.
Qed.

Lemma servos_data_of_length (angles : angle_map) (t : Z) (sd : list move) :
  servos_data_of angles t = Return sd ->
  List.length sd = List.length angles.
Proof.
  revert sd. induction angles as [|[k v] angles IH]; intros sd Hsd.
  - now inversion Hsd.
  - cbn [servos_data_of] in Hsd.
    destruct (py_int k) as [i|]; [|discriminate]. cbn [obind] in Hsd.
    destruct (py_float v) as [f|]; [|discriminate]. cbn [obind] in Hsd.
    destruct (angle_to_position f) as [p|]; [|discriminate].
    cbn [obind] in Hsd.
    destruct (servos_data_of angles t) as [sd0|]; [|discriminate].
    cbn [obind] in Hsd. inversion Hsd; subst.
    cbn. now rewrite (IH sd0 eq_refl).
Qed.

(** X5. [move_to_angles] is all or nothing: when a key or an angle cannot
    be converted it raises before anything is written, and otherwise it
    sends one single frame that has a move for every entry of the angle
    map. *)
Theorem move_to_angles_all_or_nothing (angles : angle_map) (time_ms : Z)
  (w : World) :
  (exists e, servos_data_of angles time_ms = Raise e
             /\ move_to_angles angles time_ms w = (Raise e, w))
  \/ (exists servos_data,
         servos_data_of angles time_ms = Return servos_data
         /\ List.length servos_data = List.length angles
         /\ move_to_angles angles time_ms w
            = (Return (write_ok (device_open w)
                         (build_servo_packet servos_data)),
               logged w (sent (device_open w)
                           (build_servo_packet servos_data)))).
Proof.
  rewrite move_to_angles_run.
  destruct (servos_data_of angles time_ms) as [sd|e] eqn:Hsd.
  - right. exists sd. split; [reflexivity|].
    split; [now apply (servos_data_of_length _ time_ms)|reflexivity].
  - left. exists e. split; reflexivity.
Qed.

(** X6. An empty angle map is not skipped: a frame for zero servos is
    written, and the duration in it is 1000 ms (E8 03) whatever duration
    was asked for. *)
Theorem move_to_angles_empty (time_ms : Z) (w : World) :
  device_open w = true ->
  move_to_angles [] time_ms w
  = (Return true,
     logged w [HidWrite (hid_report [0x55; 0x55; 0x05; 0x03; 0x00; 0xE8; 0x03]);
               Sleep Float64.f0_05]).
Proof.
  intros Hopen. rewrite move_to_angles_run. cbn [servos_data_of].
  unfold sent, write_ok. rewrite Hopen. reflexivity.
Qed.

Lemma move_to_angles_empty_witness :
  move_to_angles [] 200 (init true None)
  = (Return true,
     logged (init true None)
       [HidWrite (hid_report [0x55; 0x55; 0x05; 0x03; 0x00; 0xE8; 0x03]);
        Sleep Float64.f0_05]).
Proof. apply (move_to_angles_empty 200 (init true None)). reflexivity. Defined.

Lemma learm_servos_data_eq (servo_angles : list (Z * num)) (t : Z) :
  LeArmController.servos_data_of servo_angles t
  = servos_data_of (map (fun '(servo_id, a) => (KInt servo_id, a))
                      servo_angles) t.
Proof.
  induction servo_angles as [|[i a] l IH]; [reflexivity|].
  cbn [map LeArmController.servos_data_of servos_data_of py_int obind].
  unfold LeArmController.position_of.
  destruct (py_float a) as [f|]; [|reflexivity]. cbn [obind].
  destruct (angle_to_position f) as [p|]; [|reflexivity]. cbn [obind].
  now rewrite IH.
Qed.

(** X7. The two classes drive the arm alike: [move_multiple_servos] of
    [LeArmController] does what [move_to_angles] of [ButtonPressAutomation]
    does on the same [int]-keyed angle map, and [move_servo] is the move of
    a map with that one servo. *)
Theorem classes_send_the_same (servo_angles : list (Z * num)) (time_ms : Z)
  (w : World) :
  LeArmController.move_multiple_servos servo_angles time_ms w
  = move_to_angles (map (fun '(servo_id, a) => (KInt servo_id, a))
                      servo_angles) time_ms w
  /\ forall servo_id angle,
       LeArmController.move_servo servo_id angle time_ms w
       = LeArmController.move_multiple_servos [(servo_id, angle)] time_ms w.
Proof.
  split.
  - unfold LeArmController.move_multiple_servos, move_to_angles.
    now rewrite learm_servos_data_eq.
  - intros servo_id angle.
    unfold LeArmController.move_multiple_servos, LeArmController.move_servo.
    cbn [LeArmController.servos_data_of]. unfold lift, bind.
    destruct (LeArmController.position_of angle); reflexivity.
Qed.

(** ** Teaching: what a session leaves behind *)

Lemma teach_loop_io_fst (name : string) (inputs : list string) :
  forall (st : teach_state) (w : World),
    teach_loop name inputs st w
    = (result_of (fst (teach_loop_io name inputs st w)),
       snd (teach_loop_io name inputs st w)).
Proof.
  induction inputs as [|line rest IH]; intros st w;
    cbn [teach_loop teach_loop_io]; unfold bind, lift, ret, raise;
    destruct (getitem (current_angles st) (KInt (selected_servo st)));
    try reflexivity.
  destruct (teach_command (strip line) st) as [[| |st' moved]|e];
    try reflexivity.
  destruct moved.
  - destruct (move_to_angles (current_angles st') 200 w) as [[b|e] w1];
      [apply IH|reflexivity].
  - apply IH.
Qed.

Lemma teach_position_io_fst (name : string) (inputs : list string)
  (w : World) :
  teach_position name inputs w
  = (result_of (fst (teach_position_io name inputs w)),
     snd (teach_position_io name inputs w)).
Proof.
  unfold teach_position, teach_position_io, bind, get_world.
  destruct (move_to_angles _ 1000 w) as [[b|e] w1]; [|reflexivity].
  apply teach_loop_io_fst.
Qed.

(** What a teaching loop leaves behind, by its outcome. *)
Lemma teach_loop_io_outcome (name : string) (inputs : list string) :
  forall (st : teach_state) (w w' : World) r,
    teach_loop_io name inputs st w = (r, w') ->
    home_position w' = home_position w
    /\ device_open w' = device_open w
    /\ match r with
       | Return (true, rest) =>
           exists angles,
             committed w w' name angles
             /\ keys angles = keys (current_angles st)
             /\ (grid_angles (current_angles st) -> grid_angles angles)
             /\ suffix rest inputs
       | Return (false, rest) => same_store w w' /\ suffix rest inputs
       | Raise _ => same_store w w'
       end.
Proof.
  induction inputs as [|line rest IH]; intros st w w' r Hrun;
    cbn [teach_loop_io] in Hrun; unfold bind, lift, ret, raise in Hrun;
    destruct (getitem (current_angles st) (KInt (selected_servo st)));
    try (inversion Hrun; subst; repeat split; fail).
  destruct (teach_command (strip line) st) as [[| |st' moved]|e] eqn:Hcmd;
    try (inversion Hrun; subst; repeat split; apply suffix_cons_r; reflexivity);
    try (inversion Hrun; subst; repeat split; fail).
  - unfold store_position, save_positions in Hrun.
    inversion Hrun; subst. cbn [home_position device_open].
    split; [reflexivity|]. split; [reflexivity|].
    exists (current_angles st). repeat split; auto.
    apply suffix_cons_r. reflexivity.
  - destruct (teach_command_keeps _ _ _ _ Hcmd) as [Hk Hg].
    assert (Hnext : forall w1,
               teach_loop_io name rest st' w1 = (r, w') ->
               (exists evs, w1 = logged w evs) ->
               home_position w' = home_position w
               /\ device_open w' = device_open w
               /\ match r with
                  | Return (true, rest0) =>
                      exists angles,
                        committed w w' name angles
                        /\ keys angles = keys (current_angles st)
                        /\ (grid_angles (current_angles st) ->
                            grid_angles angles)
                        /\ suffix rest0 (line :: rest)
                  | Return (false, rest0) =>
                      same_store w w' /\ suffix rest0 (line :: rest)
                  | Raise _ => same_store w w'
                  end).
    { intros w1 Hrun1 [evs ->].
      destruct (IH st' (logged w evs) w' r Hrun1) as (Hh & Hd & Hr).
      split; [exact Hh|]. split; [exact Hd|].
      destruct r as [[[|] rest']|e].
      - destruct Hr as (angles & Hc & Hkeys & Hgrid & Hsuf).
        exists angles. repeat split; try apply Hc; try congruence; auto.
        now apply suffix_cons_r.
      - destruct Hr as [Hs Hsuf]. split; [exact Hs|now apply suffix_cons_r].
      - exact Hr. }
    destruct moved.
    + rewrite move_to_angles_run in Hrun.
      destruct (servos_data_of (current_angles st') 200) as [sd|e].
      * apply (Hnext _ Hrun). eexists. reflexivity.
      * inversion Hrun; subst. repeat split.
    + apply (Hnext _ Hrun). exists []. now rewrite logged_nil.
Qed.

Lemma teach_position_io_outcome (name : string) (inputs : list string)
  (w w' : World) r :
  teach_position_io name inputs w = (r, w') ->
  home_position w' = home_position w
  /\ device_open w' = device_open w
  /\ match r with
     | Return (true, rest) =>
         exists angles,
           committed w w' name angles
           /\ keys angles = keys (home_position w)
           /\ (grid_angles (home_position w) -> grid_angles angles)
           /\ suffix rest inputs
     | Return (false, rest) => same_store w w' /\ suffix rest inputs
     | Raise _ => same_store w w'
     end.
Proof.
  unfold teach_position_io, bind, get_world. rewrite move_to_angles_run.
  destruct (servos_data_of (current_angles (teach_start w)) 1000) as [sd|e];
    intros Hrun.
  - apply teach_loop_io_outcome in Hrun. exact Hrun.
  - inversion Hrun; subst. repeat split.
Qed.



(** X9. A committed teaching session stores the taught angle map, which has
    the servo keys of the home position, under the name, keeps every other
    position, and has written the whole store to the file before it
    returns. *)
Theorem teach_commit_persists (name : string) (inputs : list string)
  (w w' : World) :
  teach_position name inputs w = (Return true, w') ->
  exists angles,
    saved_positions w' = set (saved_positions w) name angles
    /\ get (saved_positions w') name = Some angles
    /\ (forall other, other <> name ->
        get (saved_positions w') other = get (saved_positions w) other)
    /\ keys angles = keys (home_position w)
    /\ positions_file w' = Some (json_dump (saved_positions w'))
    /\ load_positions w' = json_load (json_dump (saved_positions w')).
Proof.
  rewrite teach_position_io_fst. intros Hrun.
  destruct (teach_position_io name inputs w) as [r0 w0] eqn:Hio.
  cbn [fst snd] in Hrun. inversion Hrun as [[Hr Hw]]. subst w0.
  destruct (teach_position_io_outcome _ _ _ _ _ Hio) as (_ & _ & Hout).
  destruct r0 as [[[|] rest]|e]; try discriminate.
  destruct Hout as (angles & [Hs Hf] & Hk & _ & _).
  exists angles. split; [exact Hs|]. rewrite Hs. split; [apply get_set_eq|].
  split; [intros other Hne; apply get_set_ne; congruence|].
  split; [exact Hk|]. rewrite <- Hs. split; [exact Hf|].
  unfold load_positions. now rewrite Hf.
Qed.

Lemma teach_commit_persists_witness :
  let w := init true (Some [("a"%string, [("5"%string, NInt 90)])]) in
  let w' := snd (teach_position "b" ["+"; "s"]%string w) in
  exists angles,
    saved_positions w' = set (saved_positions w) "b"%string angles
    /\ get (saved_positions w') "b"%string = Some angles
    /\ (forall other, other <> "b"%string ->
        get (saved_positions w') other = get (saved_positions w) other)
    /\ keys angles = keys (home_position w)
    /\ positions_file w' = Some (json_dump (saved_positions w'))
    /\ load_positions w' = json_load (json_dump (saved_positions w')).
Proof.
  intros w w'. apply (teach_commit_persists "b" ["+"; "s"]%string w w').
  vm_compute. reflexivity.
Defined.

Lemma int_of_str_raises (s : string) (e : exn) :
  int_of_str s = Raise e -> e = ValueError.
Proof.
  unfold int_of_str.
  destruct (match int_rstrip (int_lstrip s) with
            | String "-"%char r => option_map Z.opp (parse_digits r 0 false)
            | String "+"%char r => parse_digits r 0 false
            | _ => parse_digits (int_rstrip (int_lstrip s)) 0 false
            end); intros H; now inversion H.
Qed.

Lemma servos_data_of_not_EOF (angles : angle_map) (t : Z) :
  servos_data_of angles t <> Raise EOFError.
Proof.
  induction angles as [|[k v] angles IH]; cbn [servos_data_of];
    [discriminate|].
  destruct (py_int k) as [i|e] eqn:Hk; cbn [obind].
  - destruct (py_float v) as [f|e] eqn:Hv; cbn [obind].
    + unfold angle_to_position.
      destruct (Float64.to_int _) as [p|e] eqn:Hp; cbn [obind].
      * destruct (servos_data_of angles t); [discriminate|exact IH].
      * unfold Float64.to_int in Hp.
        destruct (Float64.mul _ _); inversion Hp; discriminate.
    + destruct v as [n|f]; cbn [py_float] in Hv; [|discriminate].
      unfold Float64.of_int in Hv.
      destruct (Float64.is_finite _); inversion Hv; discriminate.
  - destruct k as [n|s]; cbn [py_int] in Hk; [discriminate|].
    rewrite (int_of_str_raises _ _ Hk). discriminate.
Qed.

Lemma teach_command_not_EOF (command : string) (st : teach_state) :
  teach_command command st <> Raise EOFError.
Proof.
  unfold teach_command.
  destruct (decide (command = "q")); [discriminate|].
  destruct (decide (command = "s")); [discriminate|].
  destruct (contains command "123456").
  { destruct (int_of_str command) as [z|e] eqn:Hn; cbn [obind];
      [discriminate|]. rewrite (int_of_str_raises _ _ Hn). discriminate. }
  destruct (decide (command = "+")).
  { unfold getitem. destruct (get _ _); cbn [obind]; [|discriminate].
    destruct (num_ltb _ _); discriminate. }
  destruct (decide (command = "-")); [|discriminate].
  unfold getitem. destruct (get _ _); cbn [obind]; [|discriminate].
  destruct (num_gtb _ _); discriminate.
Qed.

(** A loop that has read all of [lines] and waits for more reads the blank
    line next. *)
Lemma teach_loop_blank_line (name line : string) (rest : list string) :
  strip line = ""%string ->
  forall (lines : list string) (st : teach_state) (w w1 : World),
    teach_loop name lines st w = (Raise EOFError, w1) ->
    teach_loop name (lines ++ line :: rest) st w = (Raise ValueError, w1).
Proof.
  intros Hblank. induction lines as [|l lines IH]; intros st w w1 Hrun.
  - cbn [teach_loop app] in *. unfold bind, lift, raise, ret, getitem in *.
    destruct (get (current_angles st) (KInt (selected_servo st)))
      as [v|]; [|discriminate].
    inversion Hrun; subst. rewrite Hblank. reflexivity.
  - cbn [teach_loop app] in *. unfold bind at 1, lift at 1, getitem in Hrun.
    unfold bind at 1, lift at 1, getitem.
    destruct (get (current_angles st) (KInt (selected_servo st)))
      as [v|]; [|discriminate].
    unfold bind at 1, lift at 1 in Hrun. unfold bind at 1, lift at 1.
    pose proof (teach_command_not_EOF (strip l) st) as Hcmd.
    destruct (teach_command (strip l) st) as [[| |st' moved]|e].
    + discriminate.
    + unfold bind, store_position, save_positions, ret in Hrun. discriminate.
    + unfold bind at 1 in Hrun. unfold bind at 1.
      destruct moved.
      * unfold bind at 1 in Hrun. unfold bind at 1.
        rewrite move_to_angles_run in *.
        pose proof (servos_data_of_not_EOF (current_angles st') 200) as Hsd.
        destruct (servos_data_of (current_angles st') 200) as [sd|e].
        -- unfold ret at 1 in Hrun. unfold ret at 1. now apply IH.
        -- inversion Hrun; subst. now destruct Hsd.
      * unfold ret at 1 in Hrun. unfold ret at 1. now apply IH.
    + inversion Hrun; subst. now destruct Hcmd.
Qed.

(** X10. An input line that is empty or blank ends the session with
    [ValueError] wherever it comes: when the lines before it have all been
    read and the session waits for more, the blank line raises, and nothing
    is saved. The empty string is a substring of ['123456'], and [int('')]
    fails. *)
Theorem teach_blank_line_raises (name line : string)
  (lines rest : list string) (w w1 : World) :
  Forall (fun l => plain l = true) lines ->
  strip line = ""%string ->
  teach_position name lines w = (Raise EOFError, w1) ->
  teach_position name (lines ++ line :: rest) w = (Raise ValueError, w1)
  /\ saved_positions w1 = saved_positions w
  /\ positions_file w1 = positions_file w.
Proof.
  intros _ Hblank Hrun. split.
  - unfold teach_position, get_world in *.
    unfold bind at 1 in Hrun. unfold bind at 1.
    unfold bind at 1 in Hrun. unfold bind at 1.
    rewrite move_to_angles_run in *.
    pose proof (servos_data_of_not_EOF
                  (current_angles (teach_start w)) 1000) as Hsd.
    destruct (servos_data_of (current_angles (teach_start w)) 1000)
      as [sd|e].
    + now apply teach_loop_blank_line.
    + inversion Hrun; subst. now destruct Hsd.
  - rewrite teach_position_io_fst in Hrun.
    destruct (teach_position_io name lines w) as [r0 w0] eqn:Hio.
    cbn [fst snd] in Hrun. inversion Hrun as [[Hr Hw]]. subst w0.
    destruct (teach_position_io_outcome _ _ _ _ _ Hio) as (_ & _ & Hout).
    destruct r0 as [[[|] rest0]|e]; try discriminate.
    exact Hout.
Qed.

Lemma teach_blank_line_raises_witness :
  let w := init true None in
  let w1 := snd (teach_position "a" ["+"; "2"; " - "]%string w) in
  teach_position "a" ["+"; "2"; " - "; "  "; "s"]%string w
  = (Raise ValueError, w1)
  /\ saved_positions w1 = saved_positions w
  /\ positions_file w1 = positions_file w.
Proof.
  intros w w1.
  apply (teach_blank_line_raises "a" "  " ["+"; "2"; " - "]%string
           ["s"%string] w w1).
  - repeat constructor.
  - reflexivity.
  - vm_compute. reflexivity.
Defined.

(** X11. Any input that is a substring of ['123456'] selects the number it
    spells, also one of several digits; when the angle map has no such key,
    the next prompt raises [KeyError] and the session ends without
    saving. *)
Theorem teach_select_missing_servo (name line : string) (rest : list string)
  (st : teach_state) (w : World) (v : num) (n : Z) :
  get (current_angles st) (KInt (selected_servo st)) = Some v ->
  contains (strip line) "123456" = true ->
  int_of_str (strip line) = Return n ->
  get (current_angles st) (KInt n) = None ->
  teach_command (strip line) st
  = Return (Continue {| current_angles := current_angles st;
                        selected_servo := n |} false)
  /\ teach_loop name (line :: rest) st w = (Raise KeyError, w).
Proof.
  intros Hsel Hsub Hint Hnone.
  assert (Hcmd : teach_command (strip line) st
                 = Return (Continue {| current_angles := current_angles st;
                                       selected_servo := n |} false)).
  { unfold teach_command.
    destruct (decide (strip line = "q")) as [Hq|_];
      [rewrite Hq in Hint; discriminate|].
    destruct (decide (strip line = "s")) as [Hs|_];
      [rewrite Hs in Hint; discriminate|].
    rewrite Hsub, Hint. reflexivity. }
  split; [exact Hcmd|].
  cbn [teach_loop]. unfold bind, lift, getitem. rewrite Hsel, Hcmd.
  unfold ret. destruct rest as [|l rest']; cbn [teach_loop];
    unfold bind, lift, getitem; cbn [current_angles selected_servo];
    now rewrite Hnone.
Qed.

Lemma teach_select_missing_servo_witness :
  let w := init true None in
  let st := teach_start w in
  teach_command (strip " 12 ") st
  = Return (Continue {| current_angles := current_angles st;
                        selected_servo := 12 |} false)
  /\ teach_loop "a" [" 12 "; "s"]%string st w = (Raise KeyError, w).
Proof.
  intros w st.
  apply (teach_select_missing_servo "a" " 12 " ["s"%string] st w (NInt 80) 12);
    reflexivity.
Defined.

Lemma str_keyed_no_int (position : angle_map) (n : Z) :
  forallb is_str (keys position) = true -> get position (KInt n) = None.
Proof.
  induction position as [|[k v] position IH]; cbn; [reflexivity|].
  intros Hk. apply andb_prop in Hk. destruct Hk as [Hk Hrest].
  destruct k as [n'|s']; [discriminate|].
  rewrite decide_False by discriminate. now apply IH.
Qed.

(** X12. Once [set_home_position] has made an angle map with [str] keys the
    home position, as a position loaded from the file is, teaching stops
    with [KeyError] at its first prompt, right after the move to the home
    position. *)
Theorem teach_after_str_keyed_home (name : string) (inputs : list string)
  (w : World) (angles : angle_map) (servos_data : list move) :
  angles <> [] ->
  forallb is_str (keys angles) = true ->
  servos_data_of angles 1000 = Return servos_data ->
  let w1 := snd (set_home_position (Some angles) w) in
  home_position w1 = angles
  /\ teach_position name inputs w1
     = (Raise KeyError,
        logged w1 (sent (device_open w1) (build_servo_packet servos_data))).
Proof.
  intros Hne Hstr Hsd w1.
  assert (Hhome : home_position w1 = angles).
  { subst w1. destruct angles as [|item rest]; [contradiction|reflexivity]. }
  split; [exact Hhome|].
  unfold teach_position, bind, get_world, teach_start.
  rewrite move_to_angles_run. cbn [current_angles].
  rewrite Hhome, Hsd.
  destruct inputs as [|line rest]; cbn [teach_loop]; unfold bind, lift, getitem;
    cbn [current_angles selected_servo logged home_position];
    rewrite (str_keyed_no_int _ _ Hstr); reflexivity.
Qed.

Lemma teach_after_str_keyed_home_witness :
  let angles := [(KStr "1", NInt 80); (KStr "5", NInt 90)] in
  let w1 := snd (set_home_position (Some angles) (init true None)) in
  home_position w1 = angles
  /\ teach_position "a" ["s"%string] w1
     = (Raise KeyError,
        logged w1 (sent (device_open w1)
                     (build_servo_packet [(1, 1388, 1000); (5, 1500, 1000)]))).
Proof.
  intros angles w1.
  apply (teach_after_str_keyed_home "a" ["s"%string] (init true None) angles
           [(1, 1388, 1000); (5, 1500, 1000)]).
  - discriminate.
  - reflexivity.
  - vm_compute. reflexivity.
Defined.

(** ** Dials *)

Lemma sleep_f0_8 (w : World) : sleep f0_8 w = (Return tt, logged w [Sleep f0_8]).
Proof. reflexivity. Qed.

(** X13. A dial with one of its three positions missing is not turned at
    all: [turn_dial] returns [False] and nothing is moved. *)
Theorem turn_dial_incomplete (dial_name : string) (turn_time : Z)
  (return_home : bool) (w : World) :
  get (saved_positions w) (dial_name +:+ "_open") = None
  \/ get (saved_positions w) (dial_name +:+ "_closed") = None
  \/ get (saved_positions w) (dial_name +:+ "_turned") = None ->
  turn_dial dial_name turn_time return_home w = (Return false, w).
Proof.
  intros Hmiss. unfold turn_dial. run_monad. unfold mem.
  destruct (get (saved_positions w) (dial_name +:+ "_open")); [|reflexivity].
  destruct (get (saved_positions w) (dial_name +:+ "_closed")); [|reflexivity].
  destruct (get (saved_positions w) (dial_name +:+ "_turned")); [|reflexivity].
  destruct Hmiss as [H|[H|H]]; discriminate.
Qed.

Lemma turn_dial_incomplete_witness :
  let w := init true (Some [("d_open"%string, [("1"%string, NInt 40)]);
                            ("d_closed"%string, [("1"%string, NInt 10)])]) in
  turn_dial "d" 1000 true w = (Return false, w).
Proof.
  intros w. apply (turn_dial_incomplete "d" 1000 true w).
  right. right. reflexivity.
Defined.

Lemma return_home_run (return_home : bool) (w : World) (sdh : list move) :
  (return_home = true ->
   servos_data_of (home_position w) 1000 = Return sdh) ->
  (if return_home
   then go_home 1000 ;; sleep (Float64.of_Z 1)
   else ret tt)%py w
  = (Return tt, logged w (home_tail (device_open w) return_home sdh)).
Proof.
  intros Hhome. unfold home_tail. destruct return_home.
  - unfold bind. rewrite go_home_run, (Hhome eq_refl), sleep_1.
    now rewrite logged_logged.
  - unfold ret. now rewrite logged_nil.
Qed.

(** X14. A dial turn is four moves, with the pauses between them: to the
    open position in 1000 ms, to the closed position in 500 ms, to the turned
    position in the turn time, and to the release position in 500 ms, then
    home when asked for. The release position is the turned position with
    the angle of the open position under the key ['1']; its other entries
    are those of the turned position. *)
Theorem turn_dial_moves (dial_name : string) (turn_time : Z)
  (return_home : bool) (w : World) (opened closed turned : angle_map)
  (grip : num) (sd1 sd2 sd3 sd4 sdh : list move) (s : float) :
  get (saved_positions w) (dial_name +:+ "_open") = Some opened ->
  get (saved_positions w) (dial_name +:+ "_closed") = Some closed ->
  get (saved_positions w) (dial_name +:+ "_turned") = Some turned ->
  get opened gripper = Some grip ->
  servos_data_of opened 1000 = Return sd1 ->
  servos_data_of closed 500 = Return sd2 ->
  servos_data_of turned turn_time = Return sd3 ->
  servos_data_of (set turned gripper grip) 500 = Return sd4 ->
  ms_to_seconds turn_time = Return s ->
  can_sleep (Float64.add s Float64.f0_5) = true ->
  (return_home = true ->
   servos_data_of (home_position w) 1000 = Return sdh) ->
  turn_dial dial_name turn_time return_home w
  = (Return true,
     logged w (sent (device_open w) (build_servo_packet sd1)
               ++ [Sleep Float64.f1_5]
               ++ sent (device_open w) (build_servo_packet sd2)
               ++ [Sleep f0_8]
               ++ sent (device_open w) (build_servo_packet sd3)
               ++ [Sleep (Float64.add s Float64.f0_5)]
               ++ sent (device_open w) (build_servo_packet sd4)
               ++ [Sleep f0_8]
               ++ home_tail (device_open w) return_home sdh))
  /\ get (set turned gripper grip) gripper = Some grip
  /\ forall k, k <> gripper -> get (set turned gripper grip) k = get turned k.
Proof.
  intros Ho Hc Ht Hg H1 H2 H3 H4 Hs Hsleep Hhome. split.
  - unfold turn_dial. run_monad. unfold mem, getitem.
    rewrite Ho, Hc, Ht. cbn [negb].
    rewrite move_to_angles_run, H1, sleep_f1_5.
    rewrite move_to_angles_run, H2, sleep_f0_8.
    rewrite move_to_angles_run, H3, Hs. cbn [obind].
    rewrite (sleep_run _ _ Hsleep), Hg.
    rewrite move_to_angles_run, H4, sleep_f0_8.
    rewrite (return_home_run return_home _ sdh) by exact Hhome.
    rewrite !logged_logged. cbn [device_open logged]. reflexivity.
  - split; [apply get_set_eq|]. intros k Hk. now apply get_set_ne.
Qed.

Lemma turn_dial_moves_witness :
  let opened := [(KStr "1", NInt 40); (KStr "5", NInt 90)] in
  let closed := [(KStr "1", NInt 10); (KStr "5", NInt 90)] in
  let turned := [(KStr "1", NInt 10); (KStr "5", NInt 120)] in
  let w := init true
             (Some [("d_open"%string,
                     [("1"%string, NInt 40); ("5"%string, NInt 90)]);
                    ("d_closed"%string,
                     [("1"%string, NInt 10); ("5"%string, NInt 90)]);
                    ("d_turned"%string,
                     [("1"%string, NInt 10); ("5"%string, NInt 120)])]) in
  turn_dial "d" 1000 false w
  = (Return true,
     logged w (sent true (build_servo_packet [(1, 944, 1000); (5, 1500, 1000)])
               ++ [Sleep Float64.f1_5]
               ++ sent true (build_servo_packet [(1, 611, 500); (5, 1500, 500)])
               ++ [Sleep f0_8]
               ++ sent true (build_servo_packet
                               [(1, 611, 1000); (5, 1833, 1000)])
               ++ [Sleep (Float64.add (Float64.of_Z 1) Float64.f0_5)]
               ++ sent true (build_servo_packet [(1, 944, 500); (5, 1833, 500)])
               ++ [Sleep f0_8]
               ++ home_tail true false []))
  /\ get (set turned gripper (NInt 40)) gripper = Some (NInt 40)
  /\ forall k, k <> gripper ->
               get (set turned gripper (NInt 40)) k = get turned k.
Proof.
  intros opened closed turned w.
  apply (turn_dial_moves "d" 1000 false w opened closed turned (NInt 40)
           [(1, 944, 1000); (5, 1500, 1000)] [(1, 611, 500); (5, 1500, 500)]
           [(1, 611, 1000); (5, 1833, 1000)] [(1, 944, 500); (5, 1833, 500)]
           [] (Float64.of_Z 1));
    try (vm_compute; reflexivity).
  discriminate.
Defined.

(** X15. Without the [str] key ['1'] in the open position the turn stops
    with [KeyError] after its third move: the dial is left gripped, with no
    release and no return home. *)
Theorem turn_dial_without_gripper_key (dial_name : string) (turn_time : Z)
  (return_home : bool) (w : World) (opened closed turned : angle_map)
  (sd1 sd2 sd3 : list move) (s : float) :
  get (saved_positions w) (dial_name +:+ "_open") = Some opened ->
  get (saved_positions w) (dial_name +:+ "_closed") = Some closed ->
  get (saved_positions w) (dial_name +:+ "_turned") = Some turned ->
  get opened gripper = None ->
  servos_data_of opened 1000 = Return sd1 ->
  servos_data_of closed 500 = Return sd2 ->
  servos_data_of turned turn_time = Return sd3 ->
  ms_to_seconds turn_time = Return s ->
  can_sleep (Float64.add s Float64.f0_5) = true ->
  turn_dial dial_name turn_time return_home w
  = (Raise KeyError,
     logged w (sent (device_open w) (build_servo_packet sd1)
               ++ [Sleep Float64.f1_5]
               ++ sent (device_open w) (build_servo_packet sd2)
               ++ [Sleep f0_8]
               ++ sent (device_open w) (build_servo_packet sd3)
               ++ [Sleep (Float64.add s Float64.f0_5)])).
Proof.
  intros Ho Hc Ht Hg H1 H2 H3 Hs Hsleep.
  unfold turn_dial. run_monad. unfold mem, getitem.
  rewrite Ho, Hc, Ht. cbn [negb].
  rewrite move_to_angles_run, H1, sleep_f1_5.
  rewrite move_to_angles_run, H2, sleep_f0_8.
  rewrite move_to_angles_run, H3, Hs. cbn [obind].
  rewrite (sleep_run _ _ Hsleep), Hg.
  rewrite !logged_logged. cbn [device_open logged]. reflexivity.
Qed.

Lemma turn_dial_without_gripper_key_witness :
  let w := {| device_open := true;
              home_position := default_home;
              saved_positions :=
                [("d_open"%string, [(KInt 1, NInt 40)]);
                 ("d_closed"%string, [(KInt 1, NInt 10)]);
                 ("d_turned"%string, [(KInt 1, NInt 10)])];
              positions_file := None;
              trace := [] |} in
  turn_dial "d" 1000 true w
  = (Raise KeyError,
     logged w (sent true (build_servo_packet [(1, 944, 1000)])
               ++ [Sleep Float64.f1_5]
               ++ sent true (build_servo_packet [(1, 611, 500)])
               ++ [Sleep f0_8]
               ++ sent true (build_servo_packet [(1, 611, 1000)])
               ++ [Sleep (Float64.add (Float64.of_Z 1) Float64.f0_5)])).
Proof.
  intros w.
  apply (turn_dial_without_gripper_key "d" 1000 true w
           [(KInt 1, NInt 40)] [(KInt 1, NInt 10)] [(KInt 1, NInt 10)]
           [(1, 944, 1000)] [(1, 611, 500)] [(1, 611, 1000)]
           (Float64.of_Z 1));
    vm_compute; reflexivity.
Defined.

(** *** Teaching a dial *)

Lemma after_commits_snoc (w w1 w2 : World) commits name angles :
  after_commits w w1 commits ->
  committed w1 w2 name angles ->
  home_position w2 = home_position w1 ->
  device_open w2 = device_open w1 ->
  keys angles = keys (home_position w1) ->
  (grid_angles (home_position w1) -> grid_angles angles) ->
  after_commits w w2 (commits ++ [(name, angles)]).
Proof.
  intros (Hs & Hf & Hh & Hd & Hall) [Hs2 Hf2] Hh2 Hd2 Hk Hg.
  repeat split.
  - rewrite fold_left_app. cbn. now rewrite <- Hs.
  - destruct commits; exact Hf2.
  - congruence.
  - congruence.
  - apply Forall_app. split; [exact Hall|]. constructor; [|constructor].
    cbn [snd]. rewrite <- Hh. auto.
Qed.

Lemma after_commits_same (w w1 w2 : World) commits :
  after_commits w w1 commits ->
  same_store w1 w2 ->
  home_position w2 = home_position w1 ->
  device_open w2 = device_open w1 ->
  after_commits w w2 commits.
Proof.
  intros (Hs & Hf & Hh & Hd & Hall) [Hs2 Hf2] Hh2 Hd2.
  repeat split; try congruence.
  rewrite Hf2, Hf. destruct commits; [reflexivity|now rewrite Hs2].
Qed.

(** One stage of [teach_dial_positions]: the pause, then a teaching
    session. *)
Lemma teach_stage (name : string) (inputs : list string) (w w' : World) r
  (commits : list (string * angle_map)) (w0 : World) :
  after_commits w0 w commits ->
  (r0 <- input inputs ;; teach_position_io name (snd r0))%py w = (r, w') ->
  match r with
  | Return (true, rest) =>
      exists angles, after_commits w0 w' (commits ++ [(name, angles)])
  | _ => after_commits w0 w' commits
  end.
Proof.
  intros Hbefore. unfold bind, input.
  destruct inputs as [|line rest]; cbn.
  - intros Hrun. inversion Hrun; subst. exact Hbefore.
  - intros Hrun. cbn [snd] in Hrun.
    destruct (teach_position_io_outcome _ _ _ _ _ Hrun) as (Hh & Hd & Hout).
    destruct r as [[[|] rest']|e].
    + destruct Hout as (angles & Hc & Hk & Hg & _). exists angles.
      now apply (after_commits_snoc w0 w w').
    + destruct Hout as [Hs _]. now apply (after_commits_same w0 w w').
    + now apply (after_commits_same w0 w w').
Qed.

Lemma bind_assoc {A B C} (m : M A) (f : A -> M B) (k : B -> M C)
  (w : World) :
  bind m (fun a => bind (f a) k) w = bind (bind m f) k w.
Proof. unfold bind. destruct (m w) as [[a|e] w1]; reflexivity. Qed.

Lemma teach_dial_outcome (dial_name : string) (inputs : list string)
  (w w' : World) r :
  teach_dial_positions dial_name inputs w = (r, w') ->
  match r with
  | Return (true, rest) =>
      exists a1 a2 a3,
        after_commits w w' [(dial_name +:+ "_open", a1);
                            (dial_name +:+ "_closed", a2);
                            (dial_name +:+ "_turned", a3)]
  | _ =>
      after_commits w w' []
      \/ (exists a1, after_commits w w' [(dial_name +:+ "_open", a1)])
      \/ (exists a1 a2,
             after_commits w w' [(dial_name +:+ "_open", a1);
                                 (dial_name +:+ "_closed", a2)])
  end.
Proof.
  unfold teach_dial_positions.
  assert (H0 : after_commits w w []) by (repeat split; constructor).
  intros Hrun. rewrite bind_assoc in Hrun. unfold bind at 1 in Hrun.
  destruct ((r0 <- input inputs ;;
             teach_position_io (dial_name +:+ "_open") (snd r0))%py w)
    as [r1 w1] eqn:H1.
  pose proof (teach_stage _ _ _ _ _ _ _ H0 H1) as S1.
  destruct r1 as [[[|] i1]|e1]; cbn [fst snd negb] in Hrun;
    [|inversion Hrun; subst; now left|inversion Hrun; subst; now left].
  destruct S1 as [a1 S1]. cbn [app] in S1.
  rewrite bind_assoc in Hrun. unfold bind at 1 in Hrun.
  destruct ((r0 <- input i1 ;;
             teach_position_io (dial_name +:+ "_closed") (snd r0))%py w1)
    as [r2 w2] eqn:H2.
  pose proof (teach_stage _ _ _ _ _ _ _ S1 H2) as S2.
  destruct r2 as [[[|] i2]|e2]; cbn [fst snd negb] in Hrun;
    [|inversion Hrun; subst; right; left; now exists a1
     |inversion Hrun; subst; right; left; now exists a1].
  destruct S2 as [a2 S2]. cbn [app] in S2.
  rewrite bind_assoc in Hrun. unfold bind at 1 in Hrun.
  destruct ((r0 <- input i2 ;;
             teach_position_io (dial_name +:+ "_turned") (snd r0))%py w2)
    as [r3 w3] eqn:H3.
  pose proof (teach_stage _ _ _ _ _ _ _ S2 H3) as S3.
  destruct r3 as [[[|] i3]|e3]; cbn [fst snd negb] in Hrun;
    inversion Hrun; subst.
  - destruct S3 as [a3 S3]. now exists a1, a2, a3.
  - right; right. now exists a1, a2.
  - right; right. now exists a1, a2.
Qed.

Lemma dial_names_distinct (dial_name : string) :
  dial_name +:+ "_open" <> dial_name +:+ "_closed"
  /\ dial_name +:+ "_open" <> dial_name +:+ "_turned"
  /\ dial_name +:+ "_closed" <> dial_name +:+ "_turned".
Proof.
  repeat split; intros H; apply (String.app_inj dial_name) in H;
    discriminate H.
Qed.



(** X17. A dial teaching that succeeds has stored all three positions, each
    with the servo keys of the home position, and has written the store to
    the file. *)
Theorem teach_dial_success (dial_name : string) (inputs rest : list string)
  (w w' : World) :
  teach_dial_positions dial_name inputs w = (Return (true, rest), w') ->
  exists a1 a2 a3,
    get (saved_positions w') (dial_name +:+ "_open") = Some a1
    /\ get (saved_positions w') (dial_name +:+ "_closed") = Some a2
    /\ get (saved_positions w') (dial_name +:+ "_turned") = Some a3
    /\ keys a1 = keys (home_position w)
    /\ keys a2 = keys (home_position w)
    /\ keys a3 = keys (home_position w)
    /\ positions_file w' = Some (json_dump (saved_positions w')).
Proof.
  intros Hrun. apply teach_dial_outcome in Hrun.
  destruct Hrun as (a1 & a2 & a3 & Hs & Hf & _ & _ & Hall).
  destruct (dial_names_distinct dial_name) as (Hoc & Hot & Hct).
  exists a1, a2, a3. cbn [fold_left fst snd] in Hs. rewrite Hs.
  inversion Hall as [|? ? [H1 _] Hall2]; subst.
  inversion Hall2 as [|? ? [H2 _] Hall3]; subst.
  inversion Hall3 as [|? ? [H3 _] _]; subst. cbn [snd] in *.
  rewrite get_set_eq.
  rewrite (get_set_ne _ _ _ _ (not_eq_sym Hct)), get_set_eq.
  rewrite (get_set_ne _ _ _ _ (not_eq_sym Hot)),
    (get_set_ne _ _ _ _ (not_eq_sym Hoc)), get_set_eq.
  rewrite <- Hs. repeat split; assumption.
Qed.

Lemma teach_dial_success_witness :
  let w := init true None in
  let w' := snd (teach_dial_positions "d"
                   [""; "+"; "s"; ""; "s"; ""; "s"]%string w) in
  exists a1 a2 a3,
    get (saved_positions w') "d_open"%string = Some a1
    /\ get (saved_positions w') "d_closed"%string = Some a2
    /\ get (saved_positions w') "d_turned"%string = Some a3
    /\ keys a1 = keys (home_position w)
    /\ keys a2 = keys (home_position w)
    /\ keys a3 = keys (home_position w)
    /\ positions_file w' = Some (json_dump (saved_positions w')).
Proof.
  intros w w'.
  apply (teach_dial_success "d" [""; "+"; "s"; ""; "s"; ""; "s"]%string []
           w w').
  vm_compute. reflexivity.
Defined.

(** X18. Right after a dial has been taught from a home position with
    [int] keys, as the default one, turning it in the same session stops
    with [KeyError] after the third move: the taught positions have no [str]
    key ['1']. *)
Theorem turn_dial_after_teaching (dial_name : string)
  (inputs rest : list string) (w w' : World) (turn_time : Z)
  (return_home : bool) (s : float) :
  grid_angles (home_position w) ->
  forallb is_int (keys (home_position w)) = true ->
  teach_dial_positions dial_name inputs w = (Return (true, rest), w') ->
  ms_to_seconds turn_time = Return s ->
  can_sleep (Float64.add s Float64.f0_5) = true ->
  exists sd1 sd2 sd3,
    turn_dial dial_name turn_time return_home w'
    = (Raise KeyError,
       logged w' (sent (device_open w') (build_servo_packet sd1)
                  ++ [Sleep Float64.f1_5]
                  ++ sent (device_open w') (build_servo_packet sd2)
                  ++ [Sleep f0_8]
                  ++ sent (device_open w') (build_servo_packet sd3)
                  ++ [Sleep (Float64.add s Float64.f0_5)])).
Proof.
  intros Hgrid Hint Hrun Hs Hsleep. apply teach_dial_outcome in Hrun.
  destruct Hrun as (a1 & a2 & a3 & Hsaved & _ & _ & _ & Hall).
  destruct (dial_names_distinct dial_name) as (Hoc & Hot & Hct).
  cbn [fold_left fst snd] in Hsaved.
  inversion Hall as [|? ? [H1 G1] Hall2]; subst.
  inversion Hall2 as [|? ? [H2 G2] Hall3]; subst.
  inversion Hall3 as [|? ? [H3 G3] _]; subst. cbn [snd] in *.
  assert (K1 : forallb is_int (keys a1) = true) by now rewrite H1.
  assert (K2 : forallb is_int (keys a2) = true) by now rewrite H2.
  assert (K3 : forallb is_int (keys a3) = true) by now rewrite H3.
  destruct (grid_encodable a1 1000 (G1 Hgrid) K1) as [sd1 E1].
  destruct (grid_encodable a2 500 (G2 Hgrid) K2) as [sd2 E2].
  destruct (grid_encodable a3 turn_time (G3 Hgrid) K3) as [sd3 E3].
  exists sd1, sd2, sd3.
  assert (Ho : get (saved_positions w') (dial_name +:+ "_open") = Some a1).
  { rewrite Hsaved, (get_set_ne _ _ _ _ (not_eq_sym Hot)),
      (get_set_ne _ _ _ _ (not_eq_sym Hoc)).
    apply get_set_eq. }
  assert (Hc : get (saved_positions w') (dial_name +:+ "_closed") = Some a2).
  { rewrite Hsaved, (get_set_ne _ _ _ _ (not_eq_sym Hct)).
    apply get_set_eq. }
  assert (Ht : get (saved_positions w') (dial_name +:+ "_turned") = Some a3).
  { rewrite Hsaved. apply get_set_eq. }
  unfold turn_dial. run_monad. unfold mem, getitem.
  rewrite Ho, Hc, Ht. cbn [negb].
  rewrite move_to_angles_run, E1, sleep_f1_5.
  rewrite move_to_angles_run, E2, sleep_f0_8.
  rewrite move_to_angles_run, E3, Hs. cbn [obind].
  assert (Hgrip : get a1 gripper = None) by now apply int_keyed_no_str.
  rewrite (sleep_run _ _ Hsleep), Hgrip.
  rewrite !logged_logged. cbn [device_open logged]. reflexivity.
Qed.

Lemma turn_dial_after_teaching_witness :
  let w := init true None in
  let w' := snd (teach_dial_positions "d"
                   [""; "+"; "s"; ""; "s"; ""; "s"]%string w) in
  exists sd1 sd2 sd3,
    turn_dial "d" 1000 true w'
    = (Raise KeyError,
       logged w' (sent (device_open w') (build_servo_packet sd1)
                  ++ [Sleep Float64.f1_5]
                  ++ sent (device_open w') (build_servo_packet sd2)
                  ++ [Sleep f0_8]
                  ++ sent (device_open w') (build_servo_packet sd3)
                  ++ [Sleep (Float64.add (Float64.of_Z 1) Float64.f0_5)])).
Proof.
  intros w w'.
  apply (turn_dial_after_teaching "d"
           [""; "+"; "s"; ""; "s"; ""; "s"]%string [] w w' 1000 true
           (Float64.of_Z 1)).
  - exact default_home_on_grid.
  - reflexivity.
  - vm_compute. reflexivity.
  - vm_compute. reflexivity.
  - vm_compute. reflexivity.
Defined.

(** ** run_sequence: any sequence *)

Lemma run_step_enters (s : step) (w : World) :
  exists r evs,
    run_step s w = (r, logged w evs) /\ calls evs = step_calls s.
Proof.
  destruct s as [name|button depth time|]; unfold run_step, step_calls.
  - destruct (press_button_calls (Some name) default_press_depth
                default_press_time w) as (r & evs & Hrun & Hcalls).
    unfold bind. rewrite Hrun.
    destruct r; eexists _, _; (split; [reflexivity|]);
      change (Call_press_button (Some name) default_press_depth
                default_press_time false :: evs)
        with ([bare_press name] ++ evs);
      now rewrite calls_app, Hcalls.
  - destruct (press_button_calls button (default (NInt 10) depth)
                (default 500 time) w) as (r & evs & Hrun & Hcalls).
    unfold bind. rewrite Hrun.
    destruct r; eexists _, _; (split; [reflexivity|]);
      match goal with |- calls (?c :: evs) = _ =>
        change (c :: evs) with ([c] ++ evs) end;
      now rewrite calls_app, Hcalls.
  - exists (Return tt), []. unfold ret. now rewrite logged_nil.
Qed.

Lemma for_steps_enters (sequence : list step) (delay : Z) :
  forall w : World,
    exists r evs rest,
      for_steps sequence delay w = (r, logged w evs)
      /\ flat_map step_calls sequence = calls evs ++ rest
      /\ (r = Return tt -> rest = []).
Proof.
  induction sequence as [|s sequence IH]; intros w.
  - exists (Return tt), [], []. cbn. unfold ret. now rewrite logged_nil.
  - cbn [flat_map for_steps].
    destruct (run_step_enters s w) as (r1 & evs1 & Hrun1 & Hc1).
    unfold bind at 1. rewrite Hrun1.
    destruct r1 as [[]|e];
      [|eexists _, _, _; split; [reflexivity|]; rewrite Hc1;
        split; [reflexivity|discriminate]].
    unfold bind at 1, lift.
    destruct (ms_to_seconds delay) as [sec|e];
      [|eexists _, _, _; split; [reflexivity|]; rewrite Hc1;
        split; [reflexivity|discriminate]].
    unfold bind at 1.
    destruct (sleep_cases sec (logged w evs1)) as [Hs|[e Hs]]; rewrite Hs;
      [|eexists _, _, _; split; [reflexivity|]; rewrite Hc1;
        split; [reflexivity|discriminate]].
    rewrite logged_logged.
    destruct (IH (logged w (evs1 ++ [Sleep sec])))
      as (r2 & evs2 & rest & Hrun2 & Hc2 & Hr2).
    rewrite Hrun2, logged_logged. exists r2. eexists. exists rest.
    split; [reflexivity|]. split; [|exact Hr2].
    rewrite !calls_app, Hc1, Hc2.
    change (calls [Sleep sec]) with (@nil event).
    now rewrite app_nil_r, app_assoc.
Qed.

Lemma for_range_enters (sequence : list step) (delay : Z) (n : nat) :
  forall w : World,
    exists r evs rest,
      for_range n (for_steps sequence delay) w = (r, logged w evs)
      /\ concat (replicate n (flat_map step_calls sequence))
         = calls evs ++ rest
      /\ (r = Return tt -> rest = []).
Proof.
  induction n as [|n IH]; intros w.
  - exists (Return tt), [], []. cbn. unfold ret. now rewrite logged_nil.
  - cbn [for_range replicate concat].
    destruct (for_steps_enters sequence delay w)
      as (r1 & evs1 & rest1 & Hrun1 & Hc1 & Hr1).
    unfold bind at 1. rewrite Hrun1. destruct r1 as [[]|e].
    + rewrite (Hr1 eq_refl), app_nil_r in Hc1.
      destruct (IH (logged w evs1)) as (r2 & evs2 & rest2 & Hrun2 & Hc2 & Hr2).
      rewrite Hrun2, logged_logged. exists r2. eexists. exists rest2.
      split; [reflexivity|]. split; [|exact Hr2].
      rewrite calls_app, Hc2, <- Hc1. now rewrite app_assoc.
    + eexists _, _, _. split; [reflexivity|]. split; [|discriminate].
      rewrite Hc1, <- app_assoc. reflexivity.
Qed.

(** X19. Whatever the sequence, the repeat count and the delay: the methods
    are entered round by round, in each round step by step in the order of the
    sequence, and [go_home] last when return-home is on. The entries made
    are a prefix of that list, and all of it when the sequence returns. A
    repeat count of zero or less makes no round. *)
Theorem run_sequence_enters_in_order (sequence : list step)
  (repeat delay : Z) (return_home : bool) (w : World) :
  exists r evs rest,
    run_sequence sequence repeat delay return_home w = (r, logged w evs)
    /\ concat (replicate (Z.to_nat repeat) (flat_map step_calls sequence))
         ++ home_call return_home
       = calls evs ++ rest
    /\ (r = Return tt -> rest = [])
    /\ (repeat <= 0 -> return_home = false -> r = Return tt /\ evs = []).
Proof.
  unfold run_sequence.
  destruct (for_range_enters sequence delay (Z.to_nat repeat) w)
    as (r1 & evs1 & rest1 & Hrun1 & Hc1 & Hr1).
  destruct return_home; unfold home_call.
  - unfold bind at 1. rewrite Hrun1. destruct r1 as [[]|e].
    + rewrite (Hr1 eq_refl), app_nil_r in Hc1.
      unfold bind at 1. rewrite go_home_run.
      cbn [home_position device_open logged].
      destruct (servos_data_of (home_position w) 1000) as [sdh|e].
      * rewrite sleep_1, !logged_logged. eexists _, _, [].
        split; [reflexivity|]. split; [|split; [reflexivity|discriminate]].
        rewrite !calls_app, <- Hc1.
        change (Call_go_home 1000 :: sent (device_open w) (build_servo_packet sdh))
          with ([Call_go_home 1000] ++ sent (device_open w) (build_servo_packet sdh)).
        rewrite calls_app, calls_sent.
        change (calls [Call_go_home 1000]) with [Call_go_home 1000].
        change (calls [Sleep (Float64.of_Z 1)]) with (@nil event).
        now rewrite !app_nil_r.
      * rewrite logged_logged. eexists _, _, [].
        split; [reflexivity|]. split; [|split; [reflexivity|discriminate]].
        rewrite calls_app, <- Hc1.
        change (calls [Call_go_home 1000]) with [Call_go_home 1000].
        now rewrite app_nil_r.
    + eexists _, _, _. split; [reflexivity|].
      split; [|split; discriminate].
      rewrite Hc1, <- app_assoc. reflexivity.
  - rewrite app_nil_r.
    assert (Hzero : repeat <= 0 -> for_range (Z.to_nat repeat)
                                     (for_steps sequence delay) w
                                   = (Return tt, w)).
    { intros Hle. now rewrite Z2Nat.nonpos by exact Hle. }
    unfold bind at 1. rewrite Hrun1. destruct r1 as [[]|e].
    + exists (Return tt), evs1, rest1. split; [reflexivity|].
      split; [exact Hc1|]. split; [exact Hr1|].
      intros Hle _. split; [reflexivity|].
      rewrite (Hzero Hle) in Hrun1. inversion Hrun1 as [Hw].
      apply (f_equal trace) in Hw. cbn [trace logged] in Hw.
      rewrite <- (app_nil_r (trace w)) in Hw at 1.
      now apply app_inv_head in Hw.
    + exists (Raise e), evs1, rest1. split; [reflexivity|].
      split; [exact Hc1|]. split; [exact Hr1|].
      intros Hle _. rewrite (Hzero Hle) in Hrun1. discriminate.
Qed.

(** X20. With a negative delay the sequence stops in the pause after its
    first step, with no second step and no return home: with [ValueError]
    when the delay fits the clock of [time.sleep], and with [OverflowError]
    when it is below about -9.2e12 ms. *)
Theorem run_sequence_negative_delay (s : step) (sequence : list step)
  (repeat delay : Z) (return_home : bool) (w w1 : World) (seconds : float) :
  1 <= repeat ->
  ms_to_seconds delay = Return seconds ->
  Float64.ltb seconds Float64.zero = true ->
  run_step s w = (Return tt, w1) ->
  run_sequence (s :: sequence) repeat delay return_home w
  = (Raise (if fits_clock seconds then ValueError else OverflowError), w1).
Proof.
  intros Hrep Hs Hneg Hstep. unfold run_sequence.
  destruct (Z.to_nat repeat) as [|n] eqn:Hn; [lia|].
  cbn [for_range for_steps]. unfold bind, lift. rewrite Hstep, Hs.
  assert (Hsleep : sleep seconds w1
                   = (Raise (if fits_clock seconds
                             then ValueError else OverflowError), w1)).
  { unfold sleep. destruct seconds as [sg|sg| |sg m e]; [| |discriminate|];
      (match goal with |- context [fits_clock ?x] =>
         destruct (fits_clock x) end; cbn [negb]; [rewrite Hneg|];
       reflexivity). }
  now rewrite Hsleep.
Qed.

Lemma run_sequence_negative_delay_witness :
  let w := init true None in
  run_sequence [StepStr "a"; StepStr "b"] 2 (-1) true w
  = (Raise ValueError,
     logged w [Call_press_button (Some "a"%string) (NInt 6) 500 false]).
Proof.
  intros w.
  apply (run_sequence_negative_delay (StepStr "a") [StepStr "b"] 2 (-1) true
           w (logged w [Call_press_button (Some "a"%string) (NInt 6) 500
                          false])
           (Float64.div (Float64.of_Z (-1)) Float64.f1000_0)).
  - lia.
  - vm_compute. reflexivity.
  - vm_compute. reflexivity.
  - vm_compute. reflexivity.
Defined.

(** ** A press on a closed device *)

Lemma press_button_full name depth t rh (w : World) position sd1 pp sd2 s sdh :
  lookup_position w name = Some position ->
  servos_data_of position 1000 = Return sd1 ->
  press_position_of position depth = Return pp ->
  servos_data_of pp t = Return sd2 ->
  ms_to_seconds t = Return s ->
  can_sleep (Float64.add s Float64.f0_5) = true ->
  (rh = true -> servos_data_of (home_position w) 1000 = Return sdh) ->
  press_button name depth t rh w
  = (Return true,
     logged w (Call_press_button name depth t rh
               :: sent (device_open w) (build_servo_packet sd1)
               ++ [Sleep Float64.f1_5]
               ++ sent (device_open w) (build_servo_packet sd2)
               ++ [Sleep (Float64.add s Float64.f0_5)]
               ++ home_tail (device_open w) rh sdh)).
Proof.
  intros Hl Hsd1 Hpp Hsd2 Hs Hsleep Hhome. unfold press_button. run_monad.
  change (lookup_position (logged w _) name) with (lookup_position w name).
  rewrite Hl. run_monad. rewrite move_to_angles_run, Hsd1, sleep_f1_5, Hpp.
  rewrite move_to_angles_run, Hsd2, Hs. cbn [obind].
  rewrite (sleep_run _ _ Hsleep).
  rewrite (return_home_run rh _ sdh) by exact Hhome.
  rewrite !logged_logged. cbn [device_open logged].
  reflexivity.
Qed.

(** X21. After [close], a press still goes through all its pauses and
    returns [True], although no report is written any more: the result of
    the moves is not looked at. *)
Theorem press_after_close_reports_success (name : string) (depth : num)
  (t : Z) (return_home : bool) (w : World) (position : angle_map)
  (s : float) :
  get (saved_positions w) name = Some position ->
  can_press position depth t = true ->
  ms_to_seconds t = Return s ->
  (return_home = true -> home_ready w = true) ->
  let w1 := snd (close w) in
  press_button (Some name) depth t return_home w1
  = (Return true,
     logged w1 (Call_press_button (Some name) depth t return_home
                :: Sleep Float64.f1_5
                :: Sleep (Float64.add s Float64.f0_5)
                :: (if return_home
                    then [Call_go_home 1000; Sleep (Float64.of_Z 1)]
                    else []))).
Proof.
  intros Hget Hpress Hs Hhome w1. unfold can_press in Hpress.
  destruct (servos_data_of position 1000) as [sd1|] eqn:Hsd1; [|discriminate].
  destruct (press_position_of position depth) as [pp|] eqn:Hpp;
    [|discriminate].
  rewrite Hs in Hpress.
  destruct (servos_data_of pp t) as [sd2|] eqn:Hsd2; [|discriminate].
  unfold home_ready in Hhome.
  destruct (servos_data_of (home_position w) 1000) as [sdh|] eqn:Hsdh.
  - rewrite (press_button_full (Some name) depth t return_home w1 position
               sd1 pp sd2 s sdh Hget Hsd1 Hpp Hsd2 Hs Hpress
               (fun _ => Hsdh)).
    destruct return_home; reflexivity.
  - destruct return_home; [now discriminate Hhome|].
    assert (Hh : false = true
                 -> servos_data_of (home_position w1) 1000 = Return [])
      by discriminate.
    now rewrite (press_button_full (Some name) depth t false w1 position
                   sd1 pp sd2 s [] Hget Hsd1 Hpp Hsd2 Hs Hpress Hh).
Qed.

Lemma press_after_close_reports_success_witness :
  let w := init true (Some [("a"%string, [("5"%string, NInt 90)])]) in
  let w1 := snd (close w) in
  press_button (Some "a"%string) (NInt 6) 500 true w1
  = (Return true,
     logged w1 [Call_press_button (Some "a"%string) (NInt 6) 500 true;
                Sleep Float64.f1_5;
                Sleep (Float64.add Float64.f0_5 Float64.f0_5);
                Call_go_home 1000;
                Sleep (Float64.of_Z 1)]).
Proof.
  intros w w1.
  apply (press_after_close_reports_success "a" (NInt 6) 500 true w
           [(KStr "5", NInt 90)] Float64.f0_5).
  - reflexivity.
  - vm_compute. reflexivity.
  - reflexivity.
  - intros _. vm_compute. reflexivity.
Defined.

(** ** The file, and the next session *)

(** *** Decimal text of an [int] *)

Lemma digit_val_pretty (x : N) :
  (x < 10)%N -> digit_val (pretty_N_char x) = Some (Z.of_N x).
Proof.
  intros Hx.
  assert (H : (x = 0 \/ x = 1 \/ x = 2 \/ x = 3 \/ x = 4 \/ x = 5 \/ x = 6
               \/ x = 7 \/ x = 8 \/ x = 9)%N) by lia.
  repeat (destruct H as [->|H]; [reflexivity|]). now subst.
Qed.

Lemma is_int_space_pretty (x : N) : is_int_space (pretty_N_char x) = false.
Proof. unfold pretty_N_char. repeat case_match; reflexivity. Qed.

Lemma parse_pretty_N_go (x : N) :
  forall (s : string) (prev : bool),
    (0 < x)%N ->
    parse_digits (pretty_N_go x s) 0 prev = parse_digits s (Z.of_N x) true.
Proof.
  induction (N.lt_wf_0 x) as [x _ IH]. intros s prev Hx.
  rewrite pretty_N_go_step by exact Hx.
  assert (Hd : digit_val (pretty_N_char (x `mod` 10)%N)
               = Some (Z.of_N (x `mod` 10)%N)).
  { apply digit_val_pretty. now apply N.mod_lt. }
  assert (Hdm : x = (10 * (x `div` 10) + x `mod` 10)%N)
    by (apply N.div_mod; lia).
  destruct (N.eq_dec (x `div` 10)%N 0%N) as [H0|Hpos].
  - rewrite H0 in *. rewrite pretty_N_go_0. cbn [parse_digits]. rewrite Hd.
    f_equal. clear Hd. set (m := (x `mod` 10)%N) in *. clearbody m. lia.
  - rewrite IH by (try apply N.div_lt; try apply N.neq_0_lt_0; try lia;
                   exact Hpos).
    cbn [parse_digits]. rewrite Hd. f_equal. clear Hd IH.
    set (m := (x `mod` 10)%N) in *. set (q := (x `div` 10)%N) in *.
    clearbody m q. lia.
Qed.

Lemma int_lstrip_non_space (c : ascii) (s : string) :
  is_int_space c = false -> int_lstrip (String c s) = String c s.
Proof. intros Hc. cbn [int_lstrip]. now rewrite Hc. Qed.

Lemma int_rstrip_non_space (s : string) :
  Forall (fun c => is_int_space c = false) (list_ascii_of_string s) ->
  int_rstrip s = s.
Proof.
  induction s as [|c s IH]; cbn [list_ascii_of_string int_rstrip];
    intros Hs; [reflexivity|].
  inversion Hs as [|? ? Hc Hrest]; subst. rewrite (IH Hrest).
  destruct s; [now rewrite Hc|reflexivity].
Qed.

Lemma pretty_N_go_non_space (x : N) :
  forall s : string,
    Forall (fun c => is_int_space c = false) (list_ascii_of_string s) ->
    Forall (fun c => is_int_space c = false)
      (list_ascii_of_string (pretty_N_go x s)).
Proof.
  induction (N.lt_wf_0 x) as [x _ IH]. intros s Hs.
  destruct (N.eq_dec x 0%N) as [->|Hx]; [now rewrite pretty_N_go_0|].
  rewrite pretty_N_go_step by lia. apply IH; [apply N.div_lt; lia|].
  cbn [list_ascii_of_string]. constructor; [apply is_int_space_pretty|exact Hs].
Qed.

Lemma pretty_N_go_head (x : N) :
  forall s : string,
    (0 < x)%N ->
    exists (d : N) (r : string),
      pretty_N_go x s = String (pretty_N_char d) r.
Proof.
  induction (N.lt_wf_0 x) as [x _ IH]. intros s Hx.
  rewrite pretty_N_go_step by exact Hx.
  destruct (N.eq_dec (x `div` 10)%N 0%N) as [H0|Hpos].
  - rewrite H0, pretty_N_go_0. eexists _, _. reflexivity.
  - apply IH; [apply N.div_lt; lia|now apply N.neq_0_lt_0].
Qed.

Lemma strip_pretty_positive (p : positive) :
  exists (d : N) (r : string),
    pretty_N_go (N.pos p) "" = String (pretty_N_char d) r
    /\ int_rstrip (int_lstrip (String (pretty_N_char d) r))
       = String (pretty_N_char d) r.
Proof.
  destruct (pretty_N_go_head (N.pos p) "") as (d & r & Hhead); [lia|].
  exists d, r. split; [exact Hhead|].
  rewrite int_lstrip_non_space by apply is_int_space_pretty.
  rewrite <- Hhead. apply int_rstrip_non_space, pretty_N_go_non_space.
  constructor.
Qed.

(** [int] reads the decimal text of an [int] back: [int(str(n))] is [n]. *)
Lemma int_of_str_pretty (n : Z) : int_of_str (pretty n) = Return n.
Proof.
  destruct n as [|p|p]; [reflexivity| |].
  - change (pretty (Z.pos p)) with (pretty_N_go (N.pos p) "").
    destruct (strip_pretty_positive p) as (d & r & Hhead & Hstrip).
    pose proof (parse_pretty_N_go (N.pos p) "" false eq_refl) as Hparse.
    rewrite Hhead in *. unfold int_of_str. rewrite Hstrip.
    assert (Hbody : match String (pretty_N_char d) r with
                    | String "-"%char r0 =>
                        option_map Z.opp (parse_digits r0 0 false)
                    | String "+"%char r0 => parse_digits r0 0 false
                    | _ => parse_digits (String (pretty_N_char d) r) 0 false
                    end
                    = parse_digits (String (pretty_N_char d) r) 0 false).
    { unfold pretty_N_char. repeat case_match; subst;
        first [reflexivity|discriminate]. }
    rewrite Hbody, Hparse. reflexivity.
  - change (pretty (Z.neg p)) with (String "-"%char (pretty_N_go (N.pos p) "")).
    pose proof (parse_pretty_N_go (N.pos p) "" false eq_refl) as Hparse.
    unfold int_of_str. rewrite int_lstrip_non_space by reflexivity.
    rewrite int_rstrip_non_space.
    + rewrite Hparse. reflexivity.
    + cbn [list_ascii_of_string].
      constructor; [reflexivity|apply pretty_N_go_non_space; constructor].
Qed.

Lemma py_int_json_key (k : key) : py_int (KStr (json_key k)) = py_int k.
Proof. destruct k as [n|s]; [apply int_of_str_pretty|reflexivity]. Qed.

Lemma servos_data_of_stringified (angles : angle_map) (t : Z) :
  servos_data_of (stringified angles) t = servos_data_of angles t.
Proof.
  induction angles as [|[k v] angles IH]; [reflexivity|].
  cbn [stringified map servos_data_of].
  change (map (fun '(k0, v0) => (KStr (json_key k0), v0)) angles)
    with (stringified angles).
  rewrite py_int_json_key, IH. reflexivity.
Qed.

(** *** A position that went through the file *)

Lemma get_map_values {V W} (f : V -> W) (d : list (string * V))
  (name : string) :
  get (map (fun '(n, v) => (n, f v)) d) name = option_map f (get d name).
Proof.
  induction d as [|[n v] d IH]; [reflexivity|].
  cbn [map get]. destruct (decide (n = name)); [reflexivity|exact IH].
Qed.

(** X22. A stored position read back from the file drives the servos
    exactly as before it was saved, whatever the type of its keys: [int]
    turns the member name of a servo id back into the id. *)
Theorem saved_position_replays_the_same
  (positions : dict string angle_map) (name : string) (angles : angle_map)
  (time_ms : Z) (w : World) :
  wf positions ->
  Forall distinct_names (map snd positions) ->
  get positions name = Some angles ->
  exists loaded,
    get (json_load (json_dump positions)) name = Some loaded
    /\ servos_data_of loaded time_ms = servos_data_of angles time_ms
    /\ move_to_angles loaded time_ms w = move_to_angles angles time_ms w.
Proof.
  intros Hwf Hd Hget. exists (stringified angles).
  rewrite json_load_dump by assumption.
  rewrite get_map_values, Hget. split; [reflexivity|].
  split; [apply servos_data_of_stringified|].
  unfold move_to_angles. now rewrite servos_data_of_stringified.
Qed.

Lemma saved_position_replays_the_same_witness :
  let angles := [(KInt 1, NInt 80); (KInt (-2), NInt 90); (KStr " 5", NInt 70)] in
  let positions := [("a"%string, angles)] in
  let w := init true None in
  exists loaded,
    get (json_load (json_dump positions)) "a"%string = Some loaded
    /\ servos_data_of loaded 500 = servos_data_of angles 500
    /\ move_to_angles loaded 500 w = move_to_angles angles 500 w.
Proof.
  intros angles positions w.
  apply (saved_position_replays_the_same positions "a" angles 500 w).
  - apply (bool_decide_unpack _). vm_compute. reflexivity.
  - constructor; [|constructor]. unfold distinct_names.
    apply (bool_decide_unpack _). vm_compute. reflexivity.
  - reflexivity.
Defined.

(** *** Pressing after a restart *)

Lemma press_depth_upto_180 :
  forallb (fun m => forallb (press_depth_ok m) degrees) grid_degrees = true.
Proof. vm_compute. reflexivity. Qed.

Lemma press_depth_spec (m k : Z) :
  0 <= m <= 180 -> m mod 5 = 0 -> 0 <= k <= 180 ->
  angle_to_position (Float64.sub (Float64.of_Z m) (Float64.of_Z k))
  = Return (unclamped_position (m - k)).
Proof.
  intros Hm Hgrid Hk.
  assert (Hinm : In m grid_degrees).
  { apply in_map_iff. exists (Z.to_nat (m / 5)). split.
    - rewrite Z2Nat.id by (apply Z.div_pos; lia).
      symmetry. apply Z.div_exact; [lia|exact Hgrid].
    - apply in_seq. assert (m / 5 < 37) by (apply Z.div_lt_upper_bound; lia).
      assert (0 <= m / 5) by (apply Z.div_pos; lia). lia. }
  assert (Hink : In k degrees).
  { apply in_map_iff. exists (Z.to_nat k). split; [lia|]. apply in_seq. lia. }
  pose proof (proj1 (forallb_forall _ _) press_depth_upto_180 m Hinm) as Hrow.
  pose proof (proj1 (forallb_forall _ _) Hrow k Hink) as Hchk.
  unfold press_depth_ok in Hchk.
  destruct (angle_to_position _) as [p|e]; [|discriminate].
  apply Z.eqb_eq in Hchk. now subst.
Qed.

Lemma int_keyed_distinct (angles : angle_map) :
  wf angles -> forallb is_int (keys angles) = true -> distinct_names angles.
Proof.
  unfold wf, distinct_names. generalize (keys angles). clear angles.
  intros l. induction l as [|k l IH]; cbn [map forallb]; intros Hnd Hint.
  - constructor.
  - apply andb_prop in Hint. destruct Hint as [Hk Hl].
    apply NoDup_cons in Hnd. destruct Hnd as [Hnotin Hnd].
    apply NoDup_cons. split; [|now apply IH].
    intros Hin. apply Hnotin. apply list_elem_of_In in Hin.
    apply in_map_iff in Hin. destruct Hin as (k' & Heq & Hin').
    assert (Hk' : is_int k' = true).
    { exact (proj1 (forallb_forall _ _) Hl k' Hin'). }
    destruct k as [n|?]; [|discriminate]. destruct k' as [n'|?]; [|discriminate].
    cbn [json_key] in Heq. apply (inj pretty) in Heq. subst.
    now apply list_elem_of_In.
Qed.

Lemma get_stringified_int (angles : angle_map) (n : Z) :
  forallb is_int (keys angles) = true ->
  get (stringified angles) (KStr (pretty n)) = get angles (KInt n).
Proof.
  induction angles as [|[k v] angles IH]; [reflexivity|].
  cbn [keys map fst forallb stringified get]. intros Hint.
  apply andb_prop in Hint. destruct Hint as [Hk Hl].
  destruct k as [a|?]; [|discriminate]. cbn [json_key].
  destruct (decide (a = n)) as [->|Hne].
  - now rewrite !decide_True.
  - rewrite !decide_False; [now apply IH|congruence|].
    intros Heq. inversion Heq as [Hp]. now apply (inj pretty) in Hp.
Qed.

Lemma servos_data_of_set (angles : angle_map) (t : Z) (k : key) (v : num)
  (sd : list move) (i p : Z) :
  servos_data_of angles t = Return sd ->
  py_int k = Return i ->
  obind (py_float v) angle_to_position = Return p ->
  exists sd', servos_data_of (set angles k v) t = Return sd'.
Proof.
  intros Hsd Hk Hv. revert sd Hsd.
  induction angles as [|[k0 v0] angles IH]; intros sd Hsd.
  - cbn [set servos_data_of]. rewrite Hk. cbn [obind].
    destruct (py_float v) as [f|]; [|discriminate]. cbn [obind] in *.
    rewrite Hv. eexists. reflexivity.
  - cbn [servos_data_of] in Hsd. cbn [set].
    destruct (py_int k0) as [i0|] eqn:Hk0; [|discriminate].
    cbn [obind] in Hsd.
    destruct (py_float v0) as [f0|] eqn:Hf0; [|discriminate].
    cbn [obind] in Hsd.
    destruct (angle_to_position f0) as [p0|] eqn:Hp0; [|discriminate].
    cbn [obind] in Hsd.
    destruct (servos_data_of angles t) as [sd0|] eqn:Hsd0; [|discriminate].
    destruct (decide (k0 = k)) as [->|Hne]; cbn [servos_data_of].
    + rewrite Hk. cbn [obind].
      destruct (py_float v) as [f|]; [|discriminate]. cbn [obind] in *.
      rewrite Hv. cbn [obind]. rewrite Hsd0. eexists. reflexivity.
    + rewrite Hk0. cbn [obind]. rewrite Hf0. cbn [obind]. rewrite Hp0.
      cbn [obind]. destruct (IH sd0 eq_refl) as [sd' Hsd'].
      rewrite Hsd'. eexists. reflexivity.
Qed.

(** X23. A position taught in one session can be pressed in the next one,
    by any depth of 0 to 180 whole degrees: the file gives the position back
    with [str] keys, the hover move sends the frame of the taught angle map,
    and the press returns [True]. *)
Theorem taught_position_pressable_after_restart (name : string)
  (inputs : list string) (w w' : World) (opened : bool) (k t : Z)
  (return_home : bool) (s : float) :
  wf (saved_positions w) ->
  Forall distinct_names (map snd (saved_positions w)) ->
  wf (home_position w) ->
  forallb is_int (keys (home_position w)) = true ->
  grid_angles (home_position w) ->
  mem (home_position w) (KInt 5) = true ->
  teach_position name inputs w = (Return true, w') ->
  0 <= k <= 180 ->
  ms_to_seconds t = Return s ->
  can_sleep (Float64.add s Float64.f0_5) = true ->
  let w2 := init opened (positions_file w') in
  exists angles sd1 sd2 sdh,
    get (saved_positions w') name = Some angles
    /\ get (saved_positions w2) name = Some (stringified angles)
    /\ servos_data_of angles 1000 = Return sd1
    /\ press_button (Some name) (NInt k) t return_home w2
       = (Return true,
          logged w2 (Call_press_button (Some name) (NInt k) t return_home
                     :: sent opened (build_servo_packet sd1)
                     ++ [Sleep Float64.f1_5]
                     ++ sent opened (build_servo_packet sd2)
                     ++ [Sleep (Float64.add s Float64.f0_5)]
                     ++ home_tail opened return_home sdh)).
Proof.
  intros Hwf Hdist Hwfh Hint Hgrid Hmem Hrun Hk Hs Hsleep w2.
  rewrite teach_position_io_fst in Hrun.
  destruct (teach_position_io name inputs w) as [r0 w0] eqn:Hio.
  cbn [fst snd] in Hrun. inversion Hrun as [[Hr Hw]]. subst w0.
  destruct (teach_position_io_outcome _ _ _ _ _ Hio) as (_ & _ & Hout).
  destruct r0 as [[[|] rest]|e]; try discriminate.
  destruct Hout as (angles & [Hsaved Hfile] & Hkeys & Hg & _).
  specialize (Hg Hgrid).
  assert (Hintk : forallb is_int (keys angles) = true) by now rewrite Hkeys.
  assert (Hwfa : wf angles) by (unfold wf; now rewrite Hkeys).
  destruct (grid_encodable angles 1000 Hg Hintk) as [sd1 Hsd1].
  destruct (grid_encodable angles t Hg Hintk) as [sdt Hsdt].
  (* the store of the next session *)
  assert (Hload : saved_positions w2
                  = map (fun '(n, a) => (n, stringified a))
                      (saved_positions w')).
  { subst w2. unfold init. cbn [saved_positions]. rewrite Hfile.
    apply json_load_dump; rewrite Hsaved.
    - now apply wf_set.
    - apply values_set; [exact Hdist|now apply int_keyed_distinct]. }
  assert (Hget' : get (saved_positions w') name = Some angles)
    by (rewrite Hsaved; apply get_set_eq).
  assert (Hget2 : get (saved_positions w2) name = Some (stringified angles))
    by (rewrite Hload, get_map_values, Hget'; reflexivity).
  (* the angle of servo 5 *)
  assert (H5 : exists m, get angles (KInt 5) = Some (NInt m)
                         /\ 0 <= m <= 180 /\ m mod 5 = 0).
  { unfold mem in Hmem.
    destruct (get (home_position w) (KInt 5)) as [v0|] eqn:Hh5;
      [|discriminate].
    apply get_Some_In in Hh5. rewrite <- Hkeys in Hh5.
    destruct (get angles (KInt 5)) as [v|] eqn:Ha5;
      [|apply get_None in Ha5; contradiction].
    pose proof (get_value on_grid angles (KInt 5) v Hg Ha5) as Hv.
    destruct v as [m|f]; [|contradiction]. exists m.
    split; [reflexivity|exact Hv]. }
  destruct H5 as (m & Ha5 & Hm & Hm5).
  assert (Hs5 : get (stringified angles) servo_to_press = Some (NInt m)).
  { change servo_to_press with (KStr (pretty 5)).
    now rewrite get_stringified_int. }
  assert (Hpp : press_position_of (stringified angles) (NInt k)
                = Return (set (stringified angles) servo_to_press
                            (NFloat (Float64.sub (Float64.of_Z m)
                                       (Float64.of_Z k))))).
  { apply (press_position_of_eq _ (NInt m)); [exact Hs5| |];
      cbn [py_float]; apply of_int_small; lia. }
  destruct (servos_data_of_set (stringified angles) t servo_to_press
              (NFloat (Float64.sub (Float64.of_Z m) (Float64.of_Z k)))
              sdt 5 (unclamped_position (m - k)))
    as [sd2 Hsd2].
  { now rewrite servos_data_of_stringified. }
  { reflexivity. }
  { cbn [py_float obind]. now apply press_depth_spec. }
  exists angles, sd1, sd2.
  assert (Hhome : exists sdh, servos_data_of default_home 1000 = Return sdh)
    by (eexists; vm_compute; reflexivity).
  destruct Hhome as [sdh Hsdh]. exists sdh.
  split; [exact Hget'|]. split; [exact Hget2|]. split; [exact Hsd1|].
  apply (press_button_full (Some name) (NInt k) t return_home w2
           (stringified angles) sd1
           (set (stringified angles) servo_to_press
              (NFloat (Float64.sub (Float64.of_Z m) (Float64.of_Z k))))
           sd2 s sdh); try assumption.
  - now rewrite servos_data_of_stringified.
  - intros _. exact Hsdh.
Qed.

Lemma taught_position_pressable_after_restart_witness :
  let w := init true None in
  let w' := snd (teach_position "a" ["+"; "s"]%string w) in
  let w2 := init true (positions_file w') in
  exists angles sd1 sd2 sdh,
    get (saved_positions w') "a"%string = Some angles
    /\ get (saved_positions w2) "a"%string = Some (stringified angles)
    /\ servos_data_of angles 1000 = Return sd1
    /\ press_button (Some "a"%string) (NInt 6) 500 true w2
       = (Return true,
          logged w2 (Call_press_button (Some "a"%string) (NInt 6) 500 true
                     :: sent true (build_servo_packet sd1)
                     ++ [Sleep Float64.f1_5]
                     ++ sent true (build_servo_packet sd2)
                     ++ [Sleep (Float64.add Float64.f0_5 Float64.f0_5)]
                     ++ home_tail true true sdh)).
Proof.
  intros w w'.
  apply (taught_position_pressable_after_restart "a" ["+"; "s"]%string
           w w' true 6 500 true Float64.f0_5).
  - constructor.
  - constructor.
  - apply (bool_decide_unpack _). vm_compute. reflexivity.
  - reflexivity.
  - exact default_home_on_grid.
  - reflexivity.
  - vm_compute. reflexivity.
  - lia.
  - reflexivity.
  - reflexivity.
Defined.

(** ** main: the interactive prompt *)

Import auto_control.

Lemma interactive_idle (fuel : nat) (line : string) (rest : list string)
  (w : World) :
  idle line = true ->
  interactive (S fuel) (line :: rest) w = interactive fuel rest w.
Proof.
  unfold idle. intros Hidle. cbn [interactive]. unfold bind at 1.
  cbn [input ret fst snd].
  destruct (split (strip line)) as [|c words]; [reflexivity|].
  apply andb_prop in Hidle. destruct Hidle as [Hquit Hrest].
  apply negb_true_iff in Hquit. rewrite Hquit.
  destruct (bool_decide (c = "list"%string)) eqn:Hlist; [reflexivity|].
  cbn [orb] in Hrest. destruct words as [|word words].
  - cbn [List.length Nat.leb]. now rewrite !andb_false_r.
  - apply negb_true_iff in Hrest. unfold acting_word in Hrest.
    repeat (apply orb_false_elim in Hrest; destruct Hrest as [Hrest ?]).
    repeat match goal with H : bool_decide _ = false |- _ =>
             rewrite H; clear H end.
    reflexivity.
Qed.

Lemma interactive_quit (fuel : nat) (line : string) (rest words : list string)
  (w : World) :
  split (strip line) = "quit"%string :: words ->
  interactive (S fuel) (line :: rest) w = (Return (Some tt), w).
Proof.
  intros Hsplit. cbn [interactive]. unfold bind at 1.
  cbn [input ret fst snd]. rewrite Hsplit. reflexivity.
Qed.

Lemma interactive_idle_lines (lines : list string) :
  Forall (fun line => idle line = true) lines ->
  forall (fuel : nat) (rest : list string) (w : World),
    interactive (List.length lines + fuel) (lines ++ rest) w
    = interactive fuel rest w.
Proof.
  induction 1 as [|line lines Hline _ IH]; intros fuel rest w; [reflexivity|].
  cbn [List.length Nat.add app]. rewrite interactive_idle by exact Hline.
  apply IH.
Qed.

Lemma main_prompt (args : Namespace) (inputs : list string) (w : World) :
  prompt_mode args = true ->
  device_open w = true ->
  main args inputs w
  = finally (interactive (S (List.length inputs)) inputs) close w.
Proof.
  unfold prompt_mode, main, dispatch. intros Hmode Hopen.
  repeat (apply andb_prop in Hmode; destruct Hmode as [Hmode ?]).
  repeat match goal with H : bool_decide _ = true |- _ =>
           apply bool_decide_eq_true in H; rewrite H; clear H end.
  apply negb_true_iff in Hmode. rewrite Hmode.
  unfold bind, get_world. rewrite Hopen. cbn [negb].
  destruct (sequence args) as [[|item rest]|]; try reflexivity.
  discriminate.
Qed.

(** X24. At the prompt, lines of ASCII text that are blank, ['list'], unknown, or an
    acting word without its argument do nothing: a session of such lines
    ended by ['quit'] returns with the world as it was except for the
    closed device, and leaves the lines after ['quit'] unread; without a
    ['quit'] it ends with the [EOFError] of [input], the device closed as
    well. *)
Theorem prompt_passes_over_idle_lines (args : Namespace)
  (lines : list string) (w : World) :
  prompt_mode args = true ->
  device_open w = true ->
  Forall (fun line => plain line = true) lines ->
  Forall (fun line => idle line = true) lines ->
  (forall (line : string) (words rest : list string),
      plain line = true ->
      split (strip line) = "quit"%string :: words ->
      main args (lines ++ line :: rest) w
      = (Return (Some tt), snd (close w)))
  /\ main args lines w = (Raise EOFError, snd (close w)).
Proof.
  intros Hmode Hopen _ Hidle. split.
  - intros line words rest _ Hquit.
    rewrite main_prompt by assumption. unfold finally.
    replace (S (List.length (lines ++ line :: rest)))
      with (List.length lines + S (S (List.length rest)))%nat
      by (rewrite length_app; cbn [List.length]; lia).
    rewrite (interactive_idle_lines lines Hidle).
    now rewrite (interactive_quit _ line rest words w Hquit).
  - rewrite main_prompt by assumption. unfold finally.
    replace (S (List.length lines)) with (List.length lines + 1)%nat by lia.
    rewrite <- (app_nil_r lines) at 2.
    rewrite (interactive_idle_lines lines Hidle). reflexivity.
Qed.

Lemma prompt_passes_over_idle_lines_witness :
  let args := {| teach := None; teach_dial := None; press := Some ""%string;
                 turn := None; list_ := false; sequence := None;
                 repeat := 1; delay := 1000; depth := 10;
                 turn_time := 1000 |} in
  let lines := [""; "  list "; "press"; "help me"; "teach"]%string in
  let w := init true None in
  (forall (line : string) (words rest : list string),
      plain line = true ->
      split (strip line) = "quit"%string :: words ->
      main args (lines ++ line :: rest) w
      = (Return (Some tt), snd (close w)))
  /\ main args lines w = (Raise EOFError, snd (close w)).
Proof.
  intros args lines w.
  apply (prompt_passes_over_idle_lines args lines w).
  - reflexivity.
  - reflexivity.
  - repeat constructor.
  - repeat constructor.
Defined.

(** ** main: teaching and pressing in one session *)

Lemma interactive_teach (fuel : nat) (line name : string)
  (rest : list string) (w : World) :
  split (strip line) = ["teach"%string; name] ->
  interactive (S fuel) (line :: rest) w
  = (r <- teach_position_io name rest ;; interactive fuel (snd r)) w.
Proof.
  intros Hsplit. cbn [interactive]. unfold bind at 1.
  cbn [input ret fst snd]. rewrite Hsplit. reflexivity.
Qed.

Lemma interactive_press (fuel : nat) (line name : string)
  (rest : list string) (w : World) :
  split (strip line) = ["press"%string; name] ->
  interactive (S fuel) (line :: rest) w
  = (press_button (Some name) default_press_depth default_press_time true ;;
     interactive fuel rest) w.
Proof.
  intros Hsplit. cbn [interactive]. unfold bind at 1.
  cbn [input ret fst snd]. rewrite Hsplit. reflexivity.
Qed.

(** X25. At the prompt, pressing a position in the session that taught it
    ends the program: with lines of ASCII text and a home position that has
    [int] keys, as the default one, ['teach <name>'] followed, after its committed teaching
    lines, by ['press <name>'] stops with [TypeError] after the hover move.
    The position stays saved, the device is closed, and the lines after
    the press are never read. *)
Theorem prompt_teach_then_press (args : Namespace) (teach_line press_line : string)
  (name : string) (lines rest : list string) (w w1 : World) :
  prompt_mode args = true ->
  device_open w = true ->
  grid_angles (home_position w) ->
  forallb is_int (keys (home_position w)) = true ->
  Forall (fun line => plain line = true)
    (teach_line :: lines ++ [press_line]) ->
  split (strip teach_line) = ["teach"%string; name] ->
  split (strip press_line) = ["press"%string; name] ->
  teach_position_io name (lines ++ press_line :: rest) w
  = (Return (true, press_line :: rest), w1) ->
  exists angles servos_data,
    get (saved_positions w1) name = Some angles
    /\ servos_data_of angles 1000 = Return servos_data
    /\ main args (teach_line :: lines ++ press_line :: rest) w
       = (Raise TypeError,
          snd (close
                 (logged w1
                    (Call_press_button (Some name) (NInt 6) 500 true
                     :: sent true (build_servo_packet servos_data)
                     ++ [Sleep Float64.f1_5])))).
Proof.
  intros Hmode Hopen Hgrid Hint _ Hteach Hpress Hrun.
  destruct (teach_position_io_outcome _ _ _ _ _ Hrun) as (_ & Hdev & Hout).
  destruct Hout as (angles & [Hsaved _] & Hkeys & Hg & _).
  assert (Hintk : forallb is_int (keys angles) = true) by now rewrite Hkeys.
  destruct (grid_encodable angles 1000 (Hg Hgrid) Hintk) as [sd Hsd].
  assert (Hget : get (saved_positions w1) name = Some angles)
    by (rewrite Hsaved; apply get_set_eq).
  exists angles, sd. split; [exact Hget|]. split; [exact Hsd|].
  rewrite main_prompt by assumption. unfold finally.
  rewrite (interactive_teach _ teach_line name _ w Hteach).
  unfold bind at 1. rewrite Hrun. cbn [snd].
  replace (List.length (teach_line :: lines ++ press_line :: rest))
    with (S (S (List.length lines + List.length rest)))%nat
    by (cbn [List.length]; rewrite length_app; cbn [List.length]; lia).
  rewrite (interactive_press _ press_line name _ w1 Hpress).
  unfold bind at 1.
  rewrite (press_button_no_key (Some name) default_press_depth
             default_press_time true w1 angles sd Hget Hsd
             (int_keyed_no_str angles "5" Hintk)).
  rewrite Hdev, Hopen. reflexivity.
Qed.

Lemma prompt_teach_then_press_witness :
  let args := {| teach := None; teach_dial := None; press := None;
                 turn := None; list_ := false; sequence := None;
                 repeat := 1; delay := 1000; depth := 10;
                 turn_time := 1000 |} in
  let w := init true None in
  let inputs := ["teach a"; "5"; "-"; "s"; " press  a"; "quit"]%string in
  let w1 := snd (teach_position_io "a" ["5"; "-"; "s"; " press  a"; "quit"]
                   w) in
  exists angles servos_data,
    get (saved_positions w1) "a"%string = Some angles
    /\ servos_data_of angles 1000 = Return servos_data
    /\ main args inputs w
       = (Raise TypeError,
          snd (close
                 (logged w1
                    (Call_press_button (Some "a"%string) (NInt 6) 500 true
                     :: sent true (build_servo_packet servos_data)
                     ++ [Sleep Float64.f1_5])))).
Proof.
  intros args w inputs w1.
  apply (prompt_teach_then_press args "teach a" " press  a" "a"
           ["5"; "-"; "s"]%string ["quit"%string] w w1).
  - reflexivity.
  - reflexivity.
  - exact default_home_on_grid.
  - reflexivity.
  - repeat constructor.
  - reflexivity.
  - reflexivity.
  - vm_compute. reflexivity.
Defined.

(** ** main: the depth of a press *)

Lemma press_button_enters name depth t rh (w : World) :
  exists r evs,
    press_button name depth t rh w
    = (r, logged w (Call_press_button name depth t rh :: evs)).
Proof.
  destruct (lookup_position w name) as [position|] eqn:Hl;
    [|eexists _, []; now apply press_button_missing].
  unfold press_button. run_monad.
  change (lookup_position (logged w _) name) with (lookup_position w name).
  rewrite Hl. run_monad. rewrite move_to_angles_run.
  destruct (servos_data_of position 1000) as [sd1|e];
    [|eexists _, []; reflexivity].
  rewrite sleep_f1_5.
  destruct (press_position_of position depth) as [pp|e];
    [|eexists _, _; rewrite ?logged_logged; reflexivity].
  rewrite move_to_angles_run.
  destruct (servos_data_of pp t) as [sd2|e];
    [|eexists _, _; rewrite ?logged_logged; reflexivity].
  destruct (obind (ms_to_seconds t) _) as [secs|e];
    [|eexists _, _; rewrite ?logged_logged; reflexivity].
  match goal with |- context [sleep secs ?w0] =>
    destruct (sleep_cases secs w0) as [Hs|[e Hs]]; rewrite Hs end;
    [|eexists _, _; rewrite ?logged_logged; reflexivity].
  destruct rh; [|eexists _, _; rewrite ?logged_logged; reflexivity].
  rewrite go_home_run. cbn [home_position device_open logged].
  destruct (servos_data_of (home_position w) 1000) as [sdh|e];
    [rewrite sleep_1|]; eexists _, _; rewrite ?logged_logged; reflexivity.
Qed.

(** X26. The depth of a press depends on how the program is driven:
    started with [--press], [main] presses by [args.depth]; at the prompt,
    ['press <name>'] presses by 6 degrees whatever [args.depth] is. Both
    hold the press 500 ms and return home. The lines of the prompt are
    ASCII text. *)
Theorem press_depth_by_mode (args : Namespace) (name : string)
  (inputs : list string) (w : World) :
  device_open w = true ->
  (list_ args = false ->
   given (teach args) = None ->
   given (teach_dial args) = None ->
   given (press args) = Some name ->
   exists r evs,
     main args inputs w
     = (r, snd (close
                  (logged w
                     (Call_press_button (Some name) (NInt (depth args)) 500
                        true :: evs))))
     /\ r <> Return None)
  /\ (prompt_mode args = true ->
      forall (line quit_line : string) (words rest : list string),
        plain line = true ->
        plain quit_line = true ->
        split (strip line) = ["press"%string; name] ->
        split (strip quit_line) = "quit"%string :: words ->
        exists r evs,
          main args (line :: quit_line :: rest) w
          = (r, snd (close
                       (logged w
                          (Call_press_button (Some name) (NInt 6) 500 true
                           :: evs))))
          /\ r <> Return None).
Proof.
  intros Hopen. split.
  - intros Hlist Hteach Hdial Hpress.
    unfold main, dispatch, bind at 1, get_world.
    rewrite Hopen, Hlist, Hteach, Hdial, Hpress. cbn [negb]. unfold finally.
    destruct (press_button_enters (Some name) (NInt (depth args))
                default_press_time true w) as (r & evs & Hrun).
    unfold bind. rewrite Hrun.
    destruct r as [b|e]; eexists _, evs; (split; [reflexivity|discriminate]).
  - intros Hmode line quit_line words rest _ _ Hline Hquit.
    rewrite main_prompt by assumption. unfold finally.
    rewrite (interactive_press _ line name _ w Hline).
    destruct (press_button_enters (Some name) default_press_depth
                default_press_time true w) as (r & evs & Hrun).
    unfold bind at 1. rewrite Hrun. destruct r as [b|e].
    + cbn [List.length].
      rewrite (interactive_quit _ quit_line rest words _ Hquit).
      eexists _, evs. split; [reflexivity|discriminate].
    + eexists _, evs. split; [reflexivity|discriminate].
Qed.

Lemma press_depth_by_mode_witness :
  let args := {| teach := None; teach_dial := None; press := Some "a"%string;
                 turn := None; list_ := false; sequence := None;
                 repeat := 1; delay := 1000; depth := 10;
                 turn_time := 1000 |} in
  let w := init true (Some [("a"%string, [("5"%string, NInt 90)])]) in
  exists r evs,
    main args [] w
    = (r, snd (close
                 (logged w
                    (Call_press_button (Some "a"%string) (NInt 10) 500 true
                     :: evs))))
    /\ r <> Return None.
Proof.
  intros args w.
  apply (proj1 (press_depth_by_mode args "a" [] w eq_refl)); reflexivity.
Defined.

(** ** main: the passes of the prompt *)

Lemma teach_position_io_rest (name : string) (inputs rest : list string)
  (w w' : World) (b : bool) :
  teach_position_io name inputs w = (Return (b, rest), w') ->
  (List.length rest <= List.length inputs)%nat.
Proof.
  intros Hrun.
  destruct (teach_position_io_outcome _ _ _ _ _ Hrun) as (_ & _ & Hout).
  destruct b.
  - destruct Hout as (angles & _ & _ & _ & Hsuf).
    now apply suffix_length.
  - destruct Hout as [_ Hsuf]. now apply suffix_length.
Qed.

Lemma teach_stage_rest (name : string) (inputs rest : list string)
  (w w' : World) (b : bool) :
  (r0 <- input inputs ;; teach_position_io name (snd r0)) w
  = (Return (b, rest), w') ->
  (List.length rest <= List.length inputs)%nat.
Proof.
  unfold bind, input. destruct inputs as [|line inputs]; cbn; [discriminate|].
  intros Hrun. apply teach_position_io_rest in Hrun. lia.
Qed.

Lemma teach_dial_rest (dial_name : string) (inputs rest : list string)
  (w w' : World) (b : bool) :
  teach_dial_positions dial_name inputs w = (Return (b, rest), w') ->
  (List.length rest <= List.length inputs)%nat.
Proof.
  unfold teach_dial_positions. intros Hrun.
  rewrite bind_assoc in Hrun. unfold bind at 1 in Hrun.
  destruct ((r0 <- input inputs ;;
             teach_position_io (dial_name +:+ "_open") (snd r0)) w)
    as [[[b1 i1]|e1] w1] eqn:H1; [|discriminate].
  apply teach_stage_rest in H1. cbn [fst snd] in Hrun.
  destruct b1; cbn [negb] in Hrun;
    [|unfold ret in Hrun; inversion Hrun; subst; exact H1].
  rewrite bind_assoc in Hrun. unfold bind at 1 in Hrun.
  destruct ((r0 <- input i1 ;;
             teach_position_io (dial_name +:+ "_closed") (snd r0)) w1)
    as [[[b2 i2]|e2] w2] eqn:H2; [|discriminate].
  apply teach_stage_rest in H2. cbn [fst snd] in Hrun.
  destruct b2; cbn [negb] in Hrun;
    [|unfold ret in Hrun; inversion Hrun; subst; lia].
  rewrite bind_assoc in Hrun. unfold bind at 1 in Hrun.
  destruct ((r0 <- input i2 ;;
             teach_position_io (dial_name +:+ "_turned") (snd r0)) w2)
    as [[[b3 i3]|e3] w3] eqn:H3; [|discriminate].
  apply teach_stage_rest in H3. cbn [fst snd] in Hrun.
  destruct b3; cbn [negb] in Hrun; unfold ret in Hrun;
    inversion Hrun; subst; lia.
Qed.

(** One pass more than there are lines is enough: the prompt never uses up
    its passes. *)
Lemma interactive_enough_fuel (fuel : nat) :
  forall (inputs : list string) (w w' : World),
    (List.length inputs < fuel)%nat ->
    interactive fuel inputs w <> (Return None, w').
Proof.
  induction fuel as [|fuel IH]; intros inputs w w' Hfuel; [lia|].
  cbn [interactive]. unfold bind at 1.
  destruct inputs as [|line rest]; cbn [input]; [discriminate|].
  cbn [List.length] in Hfuel. unfold ret at 1. cbn [fst snd].
  assert (Hrest : forall w0, interactive fuel rest w0 <> (Return None, w'))
    by (intros w0; apply IH; lia).
  destruct (split (strip line)) as [|c words]; [apply Hrest|].
  destruct (bool_decide (c = "quit"%string)); [discriminate|].
  destruct (bool_decide (c = "list"%string)); [apply Hrest|].
  destruct (bool_decide (c = "teach"%string)
            && (2 <=? List.length (c :: words))%nat).
  { unfold bind.
    destruct (teach_position_io _ rest w) as [[[b rest']|e] w1] eqn:Hrun;
      [|discriminate].
    apply teach_position_io_rest in Hrun. apply IH. cbn [snd]. lia. }
  destruct (bool_decide (c = "teach-dial"%string)
            && (2 <=? List.length (c :: words))%nat).
  { unfold bind.
    destruct (teach_dial_positions _ rest w) as [[[b rest']|e] w1] eqn:Hrun;
      [|discriminate].
    apply teach_dial_rest in Hrun. apply IH. cbn [snd]. lia. }
  destruct (bool_decide (c = "press"%string)
            && (2 <=? List.length (c :: words))%nat).
  { unfold bind. destruct (press_button _ _ _ _ w) as [[b|e] w1];
      [apply Hrest|discriminate]. }
  destruct (bool_decide (c = "turn"%string)
            && (2 <=? List.length (c :: words))%nat).
  { unfold bind. destruct (turn_dial _ _ _ w) as [[b|e] w1];
      [apply Hrest|discriminate]. }
  destruct (bool_decide (c = "sequence"%string)
            && (2 <=? List.length (c :: words))%nat).
  { unfold bind. destruct (run_sequence _ _ _ _ w) as [[b|e] w1];
      [apply Hrest|discriminate]. }
  apply Hrest.
Qed.

Lemma main_enough_fuel (args : Namespace) (inputs : list string)
  (w w' : World) :
  main args inputs w <> (Return None, w').
Proof.
  unfold main, bind at 1, get_world.
  destruct (device_open w); cbn [negb]; [|discriminate].
  unfold finally, close.
  destruct (dispatch args inputs w) as [r w1] eqn:Hrun.
  intros Hnone. inversion Hnone; subst. revert Hrun. unfold dispatch.
  destruct (list_ args); [discriminate|].
  destruct (given (teach args));
    [unfold bind; destruct (teach_position_io _ _ _) as [[?|?] ?];
     discriminate|].
  destruct (given (teach_dial args));
    [unfold bind; destruct (teach_dial_positions _ _ _) as [[?|?] ?];
     discriminate|].
  destruct (given (press args));
    [unfold bind; destruct (press_button _ _ _ _ _) as [[?|?] ?];
     discriminate|].
  destruct (given (turn args));
    [unfold bind; destruct (turn_dial _ _ _ _) as [[?|?] ?]; discriminate|].
  destruct (sequence args) as [[|item rest]|];
    try (apply interactive_enough_fuel; lia).
  unfold bind. destruct (run_sequence _ _ _ _ _) as [[?|?] ?]; discriminate.
Qed.

(** ** main of hiwonder_control.py *)

Lemma learm_interactive_passed_over (line : string) (rest : list string)
  (w : World) :
  passed_over line = true ->
  hiwonder_control.interactive (line :: rest) w
  = hiwonder_control.interactive rest w.
Proof.
  unfold passed_over. cbn [hiwonder_control.interactive]. cbv zeta.
  destruct (split (strip line)) as [|c words] eqn:Hsplit; [reflexivity|].
  destruct (bool_decide (c = "quit"%string)); [discriminate|].
  destruct (bool_decide (c = "home"%string)); [discriminate|].
  destruct (bool_decide (c = "list"%string)); [reflexivity|].
  destruct (bool_decide (c = "pos"%string)
            && (2 <=? List.length (c :: words))%nat).
  { unfold mem. intros Hmem.
    now destruct (get hiwonder_control.POSITIONS (nth 1 (c :: words) "")). }
  destruct (bool_decide (c = "move"%string)
            && (3 <=? List.length (c :: words))%nat); [|reflexivity].
  unfold bad_int. intros Hbad.
  unfold bind at 1, hiwonder_control.except_ValueError, bind, lift.
  destruct (int_of_str (nth 1 (c :: words) "")) as [s|e1] eqn:H1;
    [|rewrite (int_of_str_raises _ _ H1); reflexivity].
  destruct (int_of_str (nth 2 (c :: words) "")) as [a|e2] eqn:H2;
    [|rewrite (int_of_str_raises _ _ H2); reflexivity].
  cbn [orb] in Hbad. apply andb_prop in Hbad. destruct Hbad as [Hlen Hbad].
  rewrite Hlen.
  destruct (int_of_str (nth 3 (c :: words) "")) as [t|e3] eqn:H3;
    [discriminate|].
  rewrite (int_of_str_raises _ _ H3). reflexivity.
Qed.

Lemma learm_interactive_quit (line : string) (rest words : list string)
  (w : World) :
  split (strip line) = "quit"%string :: words ->
  hiwonder_control.interactive (line :: rest) w = (Return tt, w).
Proof.
  intros Hsplit. cbn [hiwonder_control.interactive]. rewrite Hsplit.
  reflexivity.
Qed.

Lemma learm_passed_over_lines (lines : list string) :
  Forall (fun line => passed_over line = true) lines ->
  forall (rest : list string) (w : World),
    hiwonder_control.interactive (lines ++ rest) w
    = hiwonder_control.interactive rest w.
Proof.
  induction 1 as [|line lines Hline _ IH]; intros rest w; [reflexivity|].
  cbn [app]. rewrite learm_interactive_passed_over by exact Hline.
  apply IH.
Qed.

Lemma learm_main_prompt (args : hiwonder_control.Namespace)
  (inputs : list string) (w : World) :
  learm_prompt_mode args = true ->
  device_open w = true ->
  hiwonder_control.main args inputs w
  = finally (hiwonder_control.interactive inputs) hiwonder_control.close w.
Proof.
  unfold learm_prompt_mode, hiwonder_control.main, hiwonder_control.dispatch.
  intros Hmode Hopen.
  apply andb_prop in Hmode. destruct Hmode as [Hmode Hservo].
  apply andb_prop in Hmode. destruct Hmode as [Hmode Hpos].
  apply andb_prop in Hmode. destruct Hmode as [Hmode Hhome].
  apply andb_prop in Hmode. destruct Hmode as [Hlist Htest].
  apply negb_true_iff in Hlist, Htest, Hhome.
  apply bool_decide_eq_true in Hpos.
  unfold bind, get_world. rewrite Hopen, Hlist, Htest, Hhome, Hpos.
  cbn [negb]. apply orb_prop in Hservo.
  destruct Hservo as [Hs|Ha]; apply bool_decide_eq_true in Hs || apply bool_decide_eq_true in Ha.
  - now rewrite Hs.
  - rewrite Ha.
    now destruct (hiwonder_control.given_servo (hiwonder_control.servo args)).
Qed.

(** X27. The prompt of [hiwonder_control.py] survives bad input: lines of
    ASCII text that are blank, ['list'], unknown, a ['pos'] with an unknown name, a command
    without its arguments, or a ['move'] with a word that [int] refuses,
    do nothing. A session of such lines ended by ['quit'] returns with the
    world as it was except for the closed device; without a ['quit'] it
    ends with the [EOFError] of [input]. *)
Theorem learm_prompt_passes_over (args : hiwonder_control.Namespace)
  (lines : list string) (w : World) :
  learm_prompt_mode args = true ->
  device_open w = true ->
  Forall (fun line => plain line = true) lines ->
  Forall (fun line => passed_over line = true) lines ->
  (forall (line : string) (words rest : list string),
      plain line = true ->
      split (strip line) = "quit"%string :: words ->
      hiwonder_control.main args (lines ++ line :: rest) w
      = (Return tt, snd (hiwonder_control.close w)))
  /\ hiwonder_control.main args lines w
     = (Raise EOFError, snd (hiwonder_control.close w)).
Proof.
  intros Hmode Hopen _ Hlines. split.
  - intros line words rest _ Hquit.
    rewrite learm_main_prompt by assumption. unfold finally.
    rewrite (learm_passed_over_lines lines Hlines).
    now rewrite (learm_interactive_quit line rest words w Hquit).
  - rewrite learm_main_prompt by assumption. unfold finally.
    rewrite <- (app_nil_r lines).
    rewrite (learm_passed_over_lines lines Hlines). reflexivity.
Qed.

Lemma learm_prompt_passes_over_witness :
  let args := {| hiwonder_control.servo := Some 0;
                 hiwonder_control.angle := Some 90;
                 hiwonder_control.time := 1000;
                 hiwonder_control.position := None;
                 hiwonder_control.list_ := false;
                 hiwonder_control.test := false;
                 hiwonder_control.home := false |} in
  let lines := ["move 1 ninety"; "move one 90 500"; "pos nowhere"; "pos";
                "move 1"; ""; "list"; "go"]%string in
  let w := init true None in
  (forall (line : string) (words rest : list string),
      plain line = true ->
      split (strip line) = "quit"%string :: words ->
      hiwonder_control.main args (lines ++ line :: rest) w
      = (Return tt, snd (hiwonder_control.close w)))
  /\ hiwonder_control.main args lines w
     = (Raise EOFError, snd (hiwonder_control.close w)).
Proof.
  intros args lines w.
  apply (learm_prompt_passes_over args lines w).
  - reflexivity.
  - reflexivity.
  - repeat constructor.
  - repeat constructor.
Defined.





